(** * AttachmentModal: preview / upload modal of the expense client

    A shallow embedding of the [AttachmentModal] React component
    (file validation pipeline, modal visibility, confirm gate, receipt
    menu) together with the properties the specification states about it.

    React state cells become the fields of [State]; every callback of the
    component becomes a [Handler]: a function from the state to an
    [Outcome] that carries the new state, the calls made to collaborators
    (the [Effect] log) and, when a JavaScript exception escapes, the error. *)

From Stdlib Require Import ZArith Lia Ascii String.
From stdpp Require Import base option list strings gmap pretty.

Local Open Scope Z_scope.

(** ** Data model *)

(** [source]: a URL string, an SVG function, or [undefined]. *)
Inductive Source :=
| SrcUndefined
| SrcString (url : string)
| SrcFunction (id : nat).

(** A file-like object.  [File] is a browser [File] instance
    ([fileObject instanceof File]): the DOM gives it a name, a size and a
    type.  [PlainObject] is any other object used as a file (the native
    picker result, [{name: originalFileName}], a carousel file): each
    property may be absent.  [extSource] is the [source] property that
    [lodashExtend(file, {source})] adds in [submitAndClose]. *)
Inductive FileObject :=
| File (name : string) (size : Z) (type : string) (extSource : option Source)
| PlainObject (name : option string) (size : option Z) (uri : option string)
              (extSource : option Source).

Definition fileName (f : FileObject) : option string :=
  match f with
  | File n _ _ _ => Some n
  | PlainObject n _ _ _ => n
  end.

(** [lodashGet(_file, 'size', 0)] *)
Definition lodashGet_size (f : FileObject) : Z :=
  match f with
  | File _ sz _ _ => sz
  | PlainObject _ sz _ _ => default 0 sz
  end.

(** [lodashExtend(file, {source})]: assigns [source] on the very object
    that is passed; on [undefined] a new object is made. *)
Definition withSource (src : Source) (f : FileObject) : FileObject :=
  match f with
  | File n sz ty _ => File n sz ty (Some src)
  | PlainObject n sz u _ => PlainObject n sz u (Some src)
  end.

Definition lodashExtend (f : option FileObject) (src : Source) : FileObject :=
  match f with
  | Some f => withSource src f
  | None => PlainObject None None None (Some src)
  end.

(** The result of [webkitGetAsEntry()]. *)
Record FileSystemEntry := { isDirectory : bool }.

(** The argument [_data] of [validateAndDisplayFileToUpload]: a
    [DataTransferItem] (drag and drop, paste), a [File] or a native picker
    object.  For each of the two methods the code probes with [typeof],
    [None] says that it is not a function and [Some r] gives what the call
    returns ([null] is the inner [None]).  [own] is the object itself seen
    as a file, used when there is no [getAsFile]. *)
Record Payload := {
  webkitGetAsEntry : option (option FileSystemEntry);
  getAsFile : option (option FileObject);
  own : FileObject
}.

Module Attachment.
(** The carousel's attachment record passed to [onNavigate]. *)
Record t := {
  source : Source;
  isAuthTokenRequired : bool;
  file : option FileObject;
  isReceipt : bool
}.
End Attachment.

(** [CONST.MODAL.MODAL_TYPE] *)
Inductive ModalType := CENTERED_UNSWIPEABLE | CENTERED.

(** [ROUTES.EDIT_REQUEST.getRoute(threadReportID, field)] *)
Inductive Route := EDIT_REQUEST (threadReportID : option string) (field : string).

(** The closure kept in [onModalHideCallbackRef.current]. *)
Inductive Callback := NavigateTo (route : Route).

(** Calls made to collaborators, in the order they are made. *)
Inductive Effect :=
| Props_onModalShow
| Props_onModalHide
| Props_onConfirm (arg : FileObject)
| Props_onCarouselAttachmentChange (attachment : Attachment.t)
| Navigation_navigate (route : Route)
| Navigation_dismissModal (reportID : option string)
| IOU_detachReceipt (transactionID reportID : option string)
| FileDownload (url : Source) (name : option string)
| Keyboard_dismiss
| Animated_timing (toValue : Z) (duration : Z).

Inductive JsError := TypeError (what : string).

(** The [useState] cells and the [useRef] cell of the component. *)
Record State := {
  onModalHideCallbackRef : option Callback;
  isModalOpen : bool;
  shouldLoadAttachment : bool;
  isAttachmentInvalid : bool;
  isDeleteReceiptConfirmModalVisible : bool;
  isAuthTokenRequired : bool;
  isAttachmentReceipt : bool;
  attachmentInvalidReasonTitle : string;
  attachmentInvalidReason : option string;
  source : Source;
  modalType : ModalType;
  isConfirmButtonDisabled : bool;
  shouldShowDownloadButton : bool;
  file : option FileObject
}.

(** ** Handlers: state, effect log and exceptions *)

Inductive Outcome (A : Type) :=
| Returned (a : A) (σ : State) (log : list Effect)
| Thrown (e : JsError) (σ : State) (log : list Effect).
Arguments Returned {A} a σ log.
Arguments Thrown {A} e σ log.

Definition Handler (A : Type) : Type := State → Outcome A.

Definition handler_ret {A} (a : A) : Handler A := λ σ, Returned a σ [].

Definition handler_bind {A B} (k : A → Handler B) (m : Handler A) : Handler B :=
  λ σ, match m σ with
       | Returned a σ1 l1 =>
           match k a σ1 with
           | Returned b σ2 l2 => Returned b σ2 (l1 ++ l2)
           | Thrown e σ2 l2 => Thrown e σ2 (l1 ++ l2)
           end
       | Thrown e σ1 l1 => Thrown e σ1 l1
       end.

#[global] Instance handler_mret : MRet Handler := @handler_ret.
#[global] Instance handler_mbind : MBind Handler := @handler_bind.

Definition get : Handler State := λ σ, Returned σ σ [].
Definition modify (f : State → State) : Handler unit := λ σ, Returned tt (f σ) [].
Definition emit (e : Effect) : Handler unit := λ σ, Returned tt σ [e].
Definition throw {A} (e : JsError) : Handler A := λ σ, Thrown e σ [].

(** What is left of a handler run: the state and the calls it made.  An
    exception that escapes an event handler does not undo the updates made
    before it. *)
Definition finalState {A} (o : Outcome A) : State :=
  match o with Returned _ σ _ | Thrown _ σ _ => σ end.

Definition effects {A} (o : Outcome A) : list Effect :=
  match o with Returned _ _ l | Thrown _ _ l => l end.

Definition returns {A} (o : Outcome A) : bool :=
  match o with Returned _ _ _ => true | Thrown _ _ _ => false end.

(** ** State setters

    [setX v] is the [useState] setter of cell [x] ([onModalHideCallbackRef]
    is a ref: [setOnModalHideCallbackRef v] is the assignment to
    [.current]).  No handler of the component reads a cell after writing
    it, so applying the update at once agrees with React's batching. *)

Definition setOnModalHideCallbackRef (v : option Callback) : Handler unit :=
  modify (λ σ,
  {| onModalHideCallbackRef := v;
     isModalOpen := isModalOpen σ;
     shouldLoadAttachment := shouldLoadAttachment σ;
     isAttachmentInvalid := isAttachmentInvalid σ;
     isDeleteReceiptConfirmModalVisible := isDeleteReceiptConfirmModalVisible σ;
     isAuthTokenRequired := isAuthTokenRequired σ;
     isAttachmentReceipt := isAttachmentReceipt σ;
     attachmentInvalidReasonTitle := attachmentInvalidReasonTitle σ;
     attachmentInvalidReason := attachmentInvalidReason σ;
     source := source σ;
     modalType := modalType σ;
     isConfirmButtonDisabled := isConfirmButtonDisabled σ;
     shouldShowDownloadButton := shouldShowDownloadButton σ;
     file := file σ |}).

Definition setIsModalOpen (v : bool) : Handler unit :=
  modify (λ σ,
  {| onModalHideCallbackRef := onModalHideCallbackRef σ;
     isModalOpen := v;
     shouldLoadAttachment := shouldLoadAttachment σ;
     isAttachmentInvalid := isAttachmentInvalid σ;
     isDeleteReceiptConfirmModalVisible := isDeleteReceiptConfirmModalVisible σ;
     isAuthTokenRequired := isAuthTokenRequired σ;
     isAttachmentReceipt := isAttachmentReceipt σ;
     attachmentInvalidReasonTitle := attachmentInvalidReasonTitle σ;
     attachmentInvalidReason := attachmentInvalidReason σ;
     source := source σ;
     modalType := modalType σ;
     isConfirmButtonDisabled := isConfirmButtonDisabled σ;
     shouldShowDownloadButton := shouldShowDownloadButton σ;
     file := file σ |}).

Definition setShouldLoadAttachment (v : bool) : Handler unit :=
  modify (λ σ,
  {| onModalHideCallbackRef := onModalHideCallbackRef σ;
     isModalOpen := isModalOpen σ;
     shouldLoadAttachment := v;
     isAttachmentInvalid := isAttachmentInvalid σ;
     isDeleteReceiptConfirmModalVisible := isDeleteReceiptConfirmModalVisible σ;
     isAuthTokenRequired := isAuthTokenRequired σ;
     isAttachmentReceipt := isAttachmentReceipt σ;
     attachmentInvalidReasonTitle := attachmentInvalidReasonTitle σ;
     attachmentInvalidReason := attachmentInvalidReason σ;
     source := source σ;
     modalType := modalType σ;
     isConfirmButtonDisabled := isConfirmButtonDisabled σ;
     shouldShowDownloadButton := shouldShowDownloadButton σ;
     file := file σ |}).

Definition setIsAttachmentInvalid (v : bool) : Handler unit :=
  modify (λ σ,
  {| onModalHideCallbackRef := onModalHideCallbackRef σ;
     isModalOpen := isModalOpen σ;
     shouldLoadAttachment := shouldLoadAttachment σ;
     isAttachmentInvalid := v;
     isDeleteReceiptConfirmModalVisible := isDeleteReceiptConfirmModalVisible σ;
     isAuthTokenRequired := isAuthTokenRequired σ;
     isAttachmentReceipt := isAttachmentReceipt σ;
     attachmentInvalidReasonTitle := attachmentInvalidReasonTitle σ;
     attachmentInvalidReason := attachmentInvalidReason σ;
     source := source σ;
     modalType := modalType σ;
     isConfirmButtonDisabled := isConfirmButtonDisabled σ;
     shouldShowDownloadButton := shouldShowDownloadButton σ;
     file := file σ |}).

Definition setIsDeleteReceiptConfirmModalVisible (v : bool) : Handler unit :=
  modify (λ σ,
  {| onModalHideCallbackRef := onModalHideCallbackRef σ;
     isModalOpen := isModalOpen σ;
     shouldLoadAttachment := shouldLoadAttachment σ;
     isAttachmentInvalid := isAttachmentInvalid σ;
     isDeleteReceiptConfirmModalVisible := v;
     isAuthTokenRequired := isAuthTokenRequired σ;
     isAttachmentReceipt := isAttachmentReceipt σ;
     attachmentInvalidReasonTitle := attachmentInvalidReasonTitle σ;
     attachmentInvalidReason := attachmentInvalidReason σ;
     source := source σ;
     modalType := modalType σ;
     isConfirmButtonDisabled := isConfirmButtonDisabled σ;
     shouldShowDownloadButton := shouldShowDownloadButton σ;
     file := file σ |}).

Definition setIsAuthTokenRequired (v : bool) : Handler unit :=
  modify (λ σ,
  {| onModalHideCallbackRef := onModalHideCallbackRef σ;
     isModalOpen := isModalOpen σ;
     shouldLoadAttachment := shouldLoadAttachment σ;
     isAttachmentInvalid := isAttachmentInvalid σ;
     isDeleteReceiptConfirmModalVisible := isDeleteReceiptConfirmModalVisible σ;
     isAuthTokenRequired := v;
     isAttachmentReceipt := isAttachmentReceipt σ;
     attachmentInvalidReasonTitle := attachmentInvalidReasonTitle σ;
     attachmentInvalidReason := attachmentInvalidReason σ;
     source := source σ;
     modalType := modalType σ;
     isConfirmButtonDisabled := isConfirmButtonDisabled σ;
     shouldShowDownloadButton := shouldShowDownloadButton σ;
     file := file σ |}).

Definition setIsAttachmentReceipt (v : bool) : Handler unit :=
  modify (λ σ,
  {| onModalHideCallbackRef := onModalHideCallbackRef σ;
     isModalOpen := isModalOpen σ;
     shouldLoadAttachment := shouldLoadAttachment σ;
     isAttachmentInvalid := isAttachmentInvalid σ;
     isDeleteReceiptConfirmModalVisible := isDeleteReceiptConfirmModalVisible σ;
     isAuthTokenRequired := isAuthTokenRequired σ;
     isAttachmentReceipt := v;
     attachmentInvalidReasonTitle := attachmentInvalidReasonTitle σ;
     attachmentInvalidReason := attachmentInvalidReason σ;
     source := source σ;
     modalType := modalType σ;
     isConfirmButtonDisabled := isConfirmButtonDisabled σ;
     shouldShowDownloadButton := shouldShowDownloadButton σ;
     file := file σ |}).

Definition setAttachmentInvalidReasonTitle (v : string) : Handler unit :=
  modify (λ σ,
  {| onModalHideCallbackRef := onModalHideCallbackRef σ;
     isModalOpen := isModalOpen σ;
     shouldLoadAttachment := shouldLoadAttachment σ;
     isAttachmentInvalid := isAttachmentInvalid σ;
     isDeleteReceiptConfirmModalVisible := isDeleteReceiptConfirmModalVisible σ;
     isAuthTokenRequired := isAuthTokenRequired σ;
     isAttachmentReceipt := isAttachmentReceipt σ;
     attachmentInvalidReasonTitle := v;
     attachmentInvalidReason := attachmentInvalidReason σ;
     source := source σ;
     modalType := modalType σ;
     isConfirmButtonDisabled := isConfirmButtonDisabled σ;
     shouldShowDownloadButton := shouldShowDownloadButton σ;
     file := file σ |}).

Definition setAttachmentInvalidReason (v : option string) : Handler unit :=
  modify (λ σ,
  {| onModalHideCallbackRef := onModalHideCallbackRef σ;
     isModalOpen := isModalOpen σ;
     shouldLoadAttachment := shouldLoadAttachment σ;
     isAttachmentInvalid := isAttachmentInvalid σ;
     isDeleteReceiptConfirmModalVisible := isDeleteReceiptConfirmModalVisible σ;
     isAuthTokenRequired := isAuthTokenRequired σ;
     isAttachmentReceipt := isAttachmentReceipt σ;
     attachmentInvalidReasonTitle := attachmentInvalidReasonTitle σ;
     attachmentInvalidReason := v;
     source := source σ;
     modalType := modalType σ;
     isConfirmButtonDisabled := isConfirmButtonDisabled σ;
     shouldShowDownloadButton := shouldShowDownloadButton σ;
     file := file σ |}).

Definition setSource (v : Source) : Handler unit :=
  modify (λ σ,
  {| onModalHideCallbackRef := onModalHideCallbackRef σ;
     isModalOpen := isModalOpen σ;
     shouldLoadAttachment := shouldLoadAttachment σ;
     isAttachmentInvalid := isAttachmentInvalid σ;
     isDeleteReceiptConfirmModalVisible := isDeleteReceiptConfirmModalVisible σ;
     isAuthTokenRequired := isAuthTokenRequired σ;
     isAttachmentReceipt := isAttachmentReceipt σ;
     attachmentInvalidReasonTitle := attachmentInvalidReasonTitle σ;
     attachmentInvalidReason := attachmentInvalidReason σ;
     source := v;
     modalType := modalType σ;
     isConfirmButtonDisabled := isConfirmButtonDisabled σ;
     shouldShowDownloadButton := shouldShowDownloadButton σ;
     file := file σ |}).

Definition setModalType (v : ModalType) : Handler unit :=
  modify (λ σ,
  {| onModalHideCallbackRef := onModalHideCallbackRef σ;
     isModalOpen := isModalOpen σ;
     shouldLoadAttachment := shouldLoadAttachment σ;
     isAttachmentInvalid := isAttachmentInvalid σ;
     isDeleteReceiptConfirmModalVisible := isDeleteReceiptConfirmModalVisible σ;
     isAuthTokenRequired := isAuthTokenRequired σ;
     isAttachmentReceipt := isAttachmentReceipt σ;
     attachmentInvalidReasonTitle := attachmentInvalidReasonTitle σ;
     attachmentInvalidReason := attachmentInvalidReason σ;
     source := source σ;
     modalType := v;
     isConfirmButtonDisabled := isConfirmButtonDisabled σ;
     shouldShowDownloadButton := shouldShowDownloadButton σ;
     file := file σ |}).

Definition setIsConfirmButtonDisabled (v : bool) : Handler unit :=
  modify (λ σ,
  {| onModalHideCallbackRef := onModalHideCallbackRef σ;
     isModalOpen := isModalOpen σ;
     shouldLoadAttachment := shouldLoadAttachment σ;
     isAttachmentInvalid := isAttachmentInvalid σ;
     isDeleteReceiptConfirmModalVisible := isDeleteReceiptConfirmModalVisible σ;
     isAuthTokenRequired := isAuthTokenRequired σ;
     isAttachmentReceipt := isAttachmentReceipt σ;
     attachmentInvalidReasonTitle := attachmentInvalidReasonTitle σ;
     attachmentInvalidReason := attachmentInvalidReason σ;
     source := source σ;
     modalType := modalType σ;
     isConfirmButtonDisabled := v;
     shouldShowDownloadButton := shouldShowDownloadButton σ;
     file := file σ |}).

Definition setShouldShowDownloadButton (v : bool) : Handler unit :=
  modify (λ σ,
  {| onModalHideCallbackRef := onModalHideCallbackRef σ;
     isModalOpen := isModalOpen σ;
     shouldLoadAttachment := shouldLoadAttachment σ;
     isAttachmentInvalid := isAttachmentInvalid σ;
     isDeleteReceiptConfirmModalVisible := isDeleteReceiptConfirmModalVisible σ;
     isAuthTokenRequired := isAuthTokenRequired σ;
     isAttachmentReceipt := isAttachmentReceipt σ;
     attachmentInvalidReasonTitle := attachmentInvalidReasonTitle σ;
     attachmentInvalidReason := attachmentInvalidReason σ;
     source := source σ;
     modalType := modalType σ;
     isConfirmButtonDisabled := isConfirmButtonDisabled σ;
     shouldShowDownloadButton := v;
     file := file σ |}).

Definition setFile (v : option FileObject) : Handler unit :=
  modify (λ σ,
  {| onModalHideCallbackRef := onModalHideCallbackRef σ;
     isModalOpen := isModalOpen σ;
     shouldLoadAttachment := shouldLoadAttachment σ;
     isAttachmentInvalid := isAttachmentInvalid σ;
     isDeleteReceiptConfirmModalVisible := isDeleteReceiptConfirmModalVisible σ;
     isAuthTokenRequired := isAuthTokenRequired σ;
     isAttachmentReceipt := isAttachmentReceipt σ;
     attachmentInvalidReasonTitle := attachmentInvalidReasonTitle σ;
     attachmentInvalidReason := attachmentInvalidReason σ;
     source := source σ;
     modalType := modalType σ;
     isConfirmButtonDisabled := isConfirmButtonDisabled σ;
     shouldShowDownloadButton := shouldShowDownloadButton σ;
     file := v |}).

(** ** Collaborators

    Everything the component imports and only calls: the size limits of
    [CONST.API_ATTACHMENT_VALIDATIONS], [CONST.EDIT_REQUEST_FIELD.RECEIPT],
    [Str.isPDF], the localisation,
    [FileUtils.cleanFileName], [URL.createObjectURL],
    [addEncryptedAuthTokenToURL], and the Onyx records with the utilities
    that inspect them ([ReportActionsUtils], [ReportUtils], [Policy],
    [TransactionUtils]). *)
Class Collaborators := {
  MAX_SIZE : Z;
  MIN_SIZE : Z;
  EDIT_REQUEST_FIELD_RECEIPT : string;
  Str_isPDF : string → bool;
  translate : string → string;
  cleanFileName : string → string;
  createObjectURL : FileObject → string;
  addEncryptedAuthTokenToURL : Source → Source;
  Report : Type;
  ReportAction : Type;
  Policy : Type;
  Transaction : Type;
  reportID : Report → option string;
  parentReportActionID : Report → option string;
  actorAccountID : ReportAction → option Z;
  transactionID : Transaction → option string;
  isDeletedAction : option ReportAction → bool;
  isSettled : option string → bool;
  isAdminOfFreePolicy : list (option Policy) → bool;
  isExpenseReport : Report → bool;
  isMoneyRequestReport : Report → bool;
  hasReceipt : option Transaction → bool;
  isReceiptBeingScanned : option Transaction → bool
}.

(** [props.session] *)
Record Session := { accountID : option Z }.

(** [Expensicons] used by the receipt menu. *)
Inductive Icon := Camera | Download | Trashcan.

(** An entry of [threeDotsMenuItems]. *)
Record MenuItem := {
  icon : Icon;
  text : string;
  onSelected : Handler unit
}.

(** The result of an expression evaluated while rendering. *)
Inductive JsResult (A : Type) :=
| Ok (a : A)
| Raised (e : JsError).
Arguments Ok {A} a.
Arguments Raised {A} e.

Section Component.
Context `{Collaborators}.

(** The props the handlers read.  [onConfirm] tells whether the caller
    supplied a confirm callback; the callbacks themselves are
    collaborators and their calls are logged as effects. *)
Record Props := {
  props_source : Source;
  onConfirm : bool;
  defaultOpen : bool;
  originalFileName : string;
  props_isAuthTokenRequired : bool;
  report : Report;
  transaction : option Transaction;
  parentReport : option Report;
  parentReportActions : option (gmap string ReportAction);
  policy : option Policy;
  session : option Session
}.

Variable props : Props.

(** The values given to [useState] and [useRef] on mount. *)
Definition initialState : State :=
  {| onModalHideCallbackRef := None;
     isModalOpen := defaultOpen props;
     shouldLoadAttachment := false;
     isAttachmentInvalid := false;
     isDeleteReceiptConfirmModalVisible := false;
     isAuthTokenRequired := props_isAuthTokenRequired props;
     isAttachmentReceipt := false;
     attachmentInvalidReasonTitle := "";
     attachmentInvalidReason := None;
     source := props_source props;
     modalType := CENTERED_UNSWIPEABLE;
     isConfirmButtonDisabled := false;
     shouldShowDownloadButton := true;
     file := if String.eqb (originalFileName props) ""
             then None
             else Some (PlainObject (Some (originalFileName props)) None None None) |}.

Definition onNavigate (attachment : Attachment.t) : Handler unit :=
  setSource (Attachment.source attachment);;
  setFile (Attachment.file attachment);;
  setIsAttachmentReceipt (Attachment.isReceipt attachment);;
  setIsAuthTokenRequired (Attachment.isAuthTokenRequired attachment);;
  emit (Props_onCarouselAttachmentChange attachment).

(** [_file.name || translate('attachmentView.unknownFilename')] *)
Definition nameOrUnknown (_file : FileObject) : string :=
  match fileName _file with
  | Some n => if String.eqb n "" then translate "attachmentView.unknownFilename" else n
  | None => translate "attachmentView.unknownFilename"
  end.

Definition getModalType (sourceURL : option string) (_file : FileObject) : ModalType :=
  match sourceURL with
  | Some url =>
      if negb (String.eqb url "") && (Str_isPDF url || Str_isPDF (nameOrUnknown _file))
      then CENTERED_UNSWIPEABLE
      else CENTERED
  | None => CENTERED
  end.

Definition setDownloadButtonVisibility (shouldShowButton : bool) : Handler unit :=
  σ ← get;
  if Bool.eqb (shouldShowDownloadButton σ) shouldShowButton
  then mret tt
  else setShouldShowDownloadButton shouldShowButton.

Definition downloadAttachment : Handler unit :=
  σ ← get;
  let sourceURL :=
    if isAuthTokenRequired σ then addEncryptedAuthTokenToURL (source σ) else source σ in
  match file σ with
  | None => throw (TypeError "file.name")
  | Some f =>
      emit (FileDownload sourceURL (fileName f));;
      emit Keyboard_dismiss
  end.

Definition submitAndClose : Handler unit :=
  σ ← get;
  if negb (isModalOpen σ) || isConfirmButtonDisabled σ
  then mret tt
  else
    (if onConfirm props
     then setFile (withSource (source σ) <$> file σ);;
          emit (Props_onConfirm (lodashExtend (file σ) (source σ)))
     else mret tt);;
    setIsModalOpen false.

Definition closeConfirmModal : Handler unit :=
  setIsAttachmentInvalid false;;
  setIsDeleteReceiptConfirmModalVisible false.

Definition deleteAndCloseModal : Handler unit :=
  emit (IOU_detachReceipt (transaction props ≫= transactionID) (reportID (report props)));;
  setIsDeleteReceiptConfirmModalVisible false;;
  emit (Navigation_dismissModal (reportID (report props))).

Definition isValidFile (_file : FileObject) : Handler bool :=
  if lodashGet_size _file >? MAX_SIZE then
    setIsAttachmentInvalid true;;
    setAttachmentInvalidReasonTitle "attachmentPicker.attachmentTooLarge";;
    setAttachmentInvalidReason (Some "attachmentPicker.sizeExceeded");;
    mret false
  else if lodashGet_size _file <? MIN_SIZE then
    setIsAttachmentInvalid true;;
    setAttachmentInvalidReasonTitle "attachmentPicker.attachmentTooSmall";;
    setAttachmentInvalidReason (Some "attachmentPicker.sizeNotMet");;
    mret false
  else mret true.

Definition isDirectoryCheck (_data : Payload) : Handler bool :=
  match webkitGetAsEntry _data with
  | None => mret true
  | Some None => throw (TypeError "webkitGetAsEntry().isDirectory")
  | Some (Some entry) =>
      if isDirectory entry then
        setIsAttachmentInvalid true;;
        setAttachmentInvalidReasonTitle "attachmentPicker.attachmentError";;
        setAttachmentInvalidReason (Some "attachmentPicker.folderNotAllowedMessage");;
        mret false
      else mret true
  end.

(** [let fileObject = _data; if (typeof _data.getAsFile === 'function')
    fileObject = _data.getAsFile();] *)
Definition fileObjectOf (_data : Payload) : option FileObject :=
  match getAsFile _data with
  | Some result => result
  | None => Some (own _data)
  end.

Definition uriSource (uri : option string) : Source :=
  match uri with
  | Some u => SrcString u
  | None => SrcUndefined
  end.

Definition validateAndDisplayFileToUpload (_data : Payload) : Handler unit :=
  notDirectory ← isDirectoryCheck _data;
  if negb notDirectory then mret tt
  else
    match fileObjectOf _data with
    | None => mret tt
    | Some fileObject =>
        valid ← isValidFile fileObject;
        if negb valid then mret tt
        else
          match fileObject with
          | File name size type _ =>
              let cleanName := cleanFileName name in
              let updatedFile :=
                if String.eqb name cleanName then fileObject
                else File cleanName size type None in
              let inputSource := createObjectURL updatedFile in
              let inputModalType := getModalType (Some inputSource) updatedFile in
              setIsModalOpen true;;
              setSource (SrcString inputSource);;
              setFile (Some updatedFile);;
              setModalType inputModalType
          | PlainObject _ _ uri _ =>
              let inputModalType := getModalType uri fileObject in
              setIsModalOpen true;;
              setSource (uriSource uri);;
              setFile (Some fileObject);;
              setModalType inputModalType
          end
    end.

Definition updateConfirmButtonVisibility (shouldFadeOut : bool) : Handler unit :=
  setIsConfirmButtonDisabled shouldFadeOut;;
  let toValue := if shouldFadeOut then 0 else 1 in
  emit (Animated_timing toValue 100).

Definition closeModal : Handler unit := setIsModalOpen false.

Definition openModal : Handler unit := setIsModalOpen true.

(** *** The receipt menu *)

(** [lodashGet(props.session, 'accountID', null) === parentReportAction.actorAccountID]:
    the left side is a number or [null], the right side a number or
    [undefined]. *)
Definition sameAccountID (sessionAccountID actorID : option Z) : bool :=
  match sessionAccountID, actorID with
  | Some a, Some b => a =? b
  | _, _ => false
  end.

Definition runCallback (cb : Callback) : Handler unit :=
  match cb with
  | NavigateTo route => emit (Navigation_navigate route)
  end.

Definition replaceItem : MenuItem :=
  {| icon := Camera;
     text := translate "common.replace";
     onSelected :=
       setOnModalHideCallbackRef
         (Some (NavigateTo (EDIT_REQUEST (reportID (report props))
                                         EDIT_REQUEST_FIELD_RECEIPT)));;
       closeModal |}.

(** The Download entry.  [onSelected] is the body of the closure
    [() => downloadAttachment(source)]; the closure belongs to the render
    that computed the menu, see [selectedFrom]. *)
Definition downloadItem : MenuItem :=
  {| icon := Download;
     text := translate "common.download";
     onSelected := downloadAttachment |}.

Definition deleteItem : MenuItem :=
  {| icon := Trashcan;
     text := translate "receipt.deleteReceipt";
     onSelected := setIsDeleteReceiptConfirmModalVisible true |}.

(** [props.parentReportActions[props.report.parentReportActionID]]: a
    missing id is the property name ["undefined"]. *)
Definition parentReportActionOf (actions : gmap string ReportAction) : option ReportAction :=
  actions !! default "undefined" (parentReportActionID (report props)).

(** [isRequestor]: reading [actorAccountID] of a missing action raises,
    once [isMoneyRequestReport] let the [&&] go on. *)
Definition isRequestorOf (parent : Report) (parentReportAction : option ReportAction)
  : JsResult bool :=
  if isMoneyRequestReport parent then
    match parentReportAction with
    | Some action =>
        Ok (sameAccountID (session props ≫= accountID) (actorAccountID action))
    | None => Raised (TypeError "parentReportAction.actorAccountID")
    end
  else Ok false.

Definition threeDotsMenuItems (σ : State) : JsResult (list MenuItem) :=
  match isAttachmentReceipt σ, parentReport props, parentReportActions props with
  | true, Some parent, Some actions =>
      let parentReportAction := parentReportActionOf actions in
      let isDeleted := isDeletedAction parentReportAction in
      let settled := isSettled (reportID parent) in
      let isAdmin := isAdminOfFreePolicy [policy props] && isExpenseReport parent in
      match isRequestorOf parent parentReportAction with
      | Raised e => Raised e
      | Ok isRequestor =>
          let canEdit := negb settled && negb isDeleted && (isAdmin || isRequestor) in
          Ok ((if canEdit then [replaceItem] else [])
              ++ [downloadItem]
              ++ (if hasReceipt (transaction props)
                     && negb (isReceiptBeingScanned (transaction props))
                  then [deleteItem] else []))
      end
  | _, _, _ => Ok []
  end.

(** The menu is memoised: [useMemo] recomputes it only when
    [isAttachmentReceipt] or one of the props of its dependency list
    changes, and [source], [file], [isAuthTokenRequired] and
    [downloadAttachment] are not in that list.  Its entries are therefore
    the closures of the render that last computed it.  The closures of
    Replace and Delete read no state cell.  The closure of Download calls
    the [downloadAttachment] of that render: it reads the cells as they
    were in that render, [ρ], and writes none. *)
Definition selectedFrom (ρ : State) (item : MenuItem) : Handler unit :=
  match icon item with
  | Download =>
      λ σ, match onSelected item ρ with
           | Returned a _ log => Returned a σ log
           | Thrown e _ log => Thrown e σ log
           end
  | _ => onSelected item
  end.

(** *** The handlers given to [Modal] *)

Definition onModalShow : Handler unit :=
  emit Props_onModalShow;;
  setShouldLoadAttachment true.

Definition onModalHide : Handler unit :=
  emit Props_onModalHide;;
  σ ← get;
  match onModalHideCallbackRef σ with
  | Some cb => runCallback cb
  | None => mret tt
  end;;
  setShouldLoadAttachment false.
End Component.

(** ** The mounted component and its events *)

(** What can happen to a mounted component: the calls the component
    exposes or wires to its children, and the two [Modal] hooks. *)
Inductive Event :=
| EvShow                                   (* children's [show] *)
| EvDisplayFileInModal (_data : Payload)   (* children's [displayFileInModal] *)
| EvClose                                  (* [onClose], back and close buttons *)
| EvSubmit                                 (* [onSubmit], the confirm button *)
| EvNavigate (attachment : Attachment.t)   (* the carousel's [onNavigate] *)
| EvToggleKeyboard (shouldFadeOut : bool)
| EvSetDownloadButtonVisibility (shouldShowButton : bool)
| EvDownloadButtonPress
| EvSelectMenuItem (index : nat)           (* an entry of the three dots menu *)
| EvConfirmDelete                          (* delete dialog, confirm *)
| EvCloseConfirmModal                      (* either dialog, cancel or close *)
| EvModalShow                              (* [Modal]'s [onModalShow] *)
| EvModalHide.                             (* [Modal]'s [onModalHide] *)

(** Modelled from the spec: the [Modal] component (./Modal), which owns the
    entrance and exit transitions and calls the two hooks.  Section 4.3:
    on the transition into [Open] the show hook fires, on the transition
    into [Closed] the hide hook fires; section 5: the hooks are
    continuations of the transitions, run on a later turn of the event
    loop.  [surfaceShown] records that the show hook has fired and the hide
    hook has not fired since.

    [menuRender] is from the source: the state of the render in which
    [useMemo] last computed [threeDotsMenuItems], whose closures the menu
    holds until it is computed again. *)
Record Mounted := {
  state : State;
  surfaceShown : bool;
  menuRender : State
}.

Section Lifecycle.
Context `{Collaborators}.
Variable props : Props.

Definition mount : Mounted :=
  {| state := initialState props;
     surfaceShown := false;
     menuRender := initialState props |}.

(** The handler [h] runs and the component renders again.  The props
    being fixed, the render computes the menu anew exactly when
    [isAttachmentReceipt] differs from the previous render's. *)
Definition after (c : Mounted) (shown : bool) (h : Handler unit)
  : option (Mounted * list Effect) :=
  let σ' := finalState (h (state c)) in
  Some ({| state := σ';
           surfaceShown := shown;
           menuRender :=
             if Bool.eqb (isAttachmentReceipt σ') (isAttachmentReceipt (state c))
             then menuRender c
             else σ' |},
        effects (h (state c))).

(** One event: [None] when the event cannot happen in [c].  The three
    dots button is rendered when [isAttachmentReceipt && isModalOpen];
    the delete dialog when it is visible on a receipt.  A selected entry
    is the closure held by the memoised menu; which entries there are is
    read off the current cells, the menu depending on the cells through
    [isAttachmentReceipt] only.  [Modal] calls the
    show hook once [isVisible] is true and the surface is not shown, and
    the hide hook once [isVisible] is false and the surface is shown.  An
    exception that escapes a handler leaves the component mounted, with
    the updates made before it. *)
Definition step (c : Mounted) (ev : Event) : option (Mounted * list Effect) :=
  let σ := state c in
  let shown := surfaceShown c in
  match ev with
  | EvShow => after c shown openModal
  | EvDisplayFileInModal _data => after c shown (validateAndDisplayFileToUpload _data)
  | EvClose => after c shown closeModal
  | EvSubmit => after c shown (submitAndClose props)
  | EvNavigate attachment => after c shown (onNavigate attachment)
  | EvToggleKeyboard b => after c shown (updateConfirmButtonVisibility b)
  | EvSetDownloadButtonVisibility b => after c shown (setDownloadButtonVisibility b)
  | EvDownloadButtonPress => after c shown downloadAttachment
  | EvSelectMenuItem index =>
      if isAttachmentReceipt σ && isModalOpen σ then
        match threeDotsMenuItems props σ with
        | Ok items =>
            item ← items !! index;
            after c shown (selectedFrom (menuRender c) item)
        | Raised _ => None
        end
      else None
  | EvConfirmDelete =>
      if isAttachmentReceipt σ && isDeleteReceiptConfirmModalVisible σ
      then after c shown (deleteAndCloseModal props)
      else None
  | EvCloseConfirmModal => after c shown closeConfirmModal
  | EvModalShow =>
      if isModalOpen σ && negb shown then after c true onModalShow else None
  | EvModalHide =>
      if negb (isModalOpen σ) && shown then after c false onModalHide else None
  end.

Fixpoint run (c : Mounted) (evs : list Event) : option (Mounted * list Effect) :=
  match evs with
  | [] => Some (c, [])
  | ev :: evs =>
      '(c1, log1) ← step c ev;
      '(c2, log2) ← run c1 evs;
      Some (c2, log1 ++ log2)
  end.

Inductive reachable : Mounted → Prop :=
| reachable_mount : reachable mount
| reachable_step c ev c' log :
    reachable c → step c ev = Some (c', log) → reachable c'.

Definition isNavigation (e : Effect) : bool :=
  match e with
  | Navigation_navigate _ => true
  | _ => false
  end.

Definition isHide (ev : Event) : bool :=
  match ev with
  | EvModalHide => true
  | _ => false
  end.
End Lifecycle.

Definition count {A} (p : A → bool) (l : list A) : nat :=
  length (List.filter p l).

(** ** Vocabulary of the properties *)

(** The verdicts of the validation pipeline, and the pipeline as the
    specification words it: rules 1 to 4, the first failing rule wins. *)
Inductive Verdict := FolderNotAllowed | SizeExceeded | SizeNotMet | Valid.

Definition pipelineVerdict `{Collaborators} (isDirectoryPayload : bool) (size : Z) : Verdict :=
  if isDirectoryPayload then FolderNotAllowed
  else if size >? MAX_SIZE then SizeExceeded
  else if size <? MIN_SIZE then SizeNotMet
  else Valid.

(** The payload is a directory entry: [webkitGetAsEntry] exists and the
    entry it returns has [isDirectory]. *)
Definition isDirectoryEntry (_data : Payload) : bool :=
  match webkitGetAsEntry _data with
  | Some (Some entry) => isDirectory entry
  | _ => false
  end.

(** The payload has no [webkitGetAsEntry], or the call returns an entry. *)
Definition entryAvailable (_data : Payload) : bool :=
  match webkitGetAsEntry _data with
  | Some None => false
  | _ => true
  end.

(** [σ] with the invalid-file dialog raised for the given title and
    reason keys; every other cell is as in [σ]. *)
Definition invalidated (title reason : string) (σ : State) : State :=
  {| onModalHideCallbackRef := onModalHideCallbackRef σ;
     isModalOpen := isModalOpen σ;
     shouldLoadAttachment := shouldLoadAttachment σ;
     isAttachmentInvalid := true;
     isDeleteReceiptConfirmModalVisible := isDeleteReceiptConfirmModalVisible σ;
     isAuthTokenRequired := isAuthTokenRequired σ;
     isAttachmentReceipt := isAttachmentReceipt σ;
     attachmentInvalidReasonTitle := title;
     attachmentInvalidReason := Some reason;
     source := source σ;
     modalType := modalType σ;
     isConfirmButtonDisabled := isConfirmButtonDisabled σ;
     shouldShowDownloadButton := shouldShowDownloadButton σ;
     file := file σ |}.

(** What a run of the pipeline shows for each verdict. *)
Definition verdictObserved (v : Verdict) (σ : State) (o : Outcome unit) : Prop :=
  match v with
  | FolderNotAllowed =>
      o = Returned tt (invalidated "attachmentPicker.attachmentError"
                                   "attachmentPicker.folderNotAllowedMessage" σ) []
  | SizeExceeded =>
      o = Returned tt (invalidated "attachmentPicker.attachmentTooLarge"
                                   "attachmentPicker.sizeExceeded" σ) []
  | SizeNotMet =>
      o = Returned tt (invalidated "attachmentPicker.attachmentTooSmall"
                                   "attachmentPicker.sizeNotMet" σ) []
  | Valid =>
      ∃ σ', o = Returned tt σ' []
            ∧ isModalOpen σ' = true
            ∧ isAttachmentInvalid σ' = isAttachmentInvalid σ
            ∧ attachmentInvalidReasonTitle σ' = attachmentInvalidReasonTitle σ
            ∧ attachmentInvalidReason σ' = attachmentInvalidReason σ
  end.

(** The file of record after acceptance (section 4.1, filename
    sanitisation): a [File] whose name is not clean is copied under the
    clean name, any other file object is kept as it is. *)
Definition fileOfRecord `{Collaborators} (f : FileObject) : FileObject :=
  match f with
  | File name size type _ =>
      if String.eqb name (cleanFileName name) then f
      else File (cleanFileName name) size type None
  | PlainObject _ _ _ _ => f
  end.

(** The source under which a file of record is displayed. *)
Definition sourceOfFile `{Collaborators} (f : FileObject) : Source :=
  match f with
  | File _ _ _ _ => SrcString (createObjectURL f)
  | PlainObject _ _ uri _ => uriSource uri
  end.

(** [offHook h]: [h] leaves the loading flag alone, navigates nowhere and
    does not empty a filled [onModalHideCallbackRef]. *)
Definition offHook {A} (h : Handler A) : Prop :=
  ∀ σ, shouldLoadAttachment (finalState (h σ)) = shouldLoadAttachment σ
       ∧ count isNavigation (effects (h σ)) = 0%nat
       ∧ (is_Some (onModalHideCallbackRef σ) →
          is_Some (onModalHideCallbackRef (finalState (h σ)))).

(** ** A sample configuration

    Limits of 24 MB and 240 bytes, names cleaned by turning spaces into
    underscores, and small records for the Onyx data. *)
Module Sample.
Record reportData := {
  id : string;
  parentAction : option string;
  expense : bool;
  moneyRequest : bool
}.
Record actionData := { actor : Z; deleted : bool }.
Record transactionData := { receipt : bool; scanning : bool }.

Definition endsWithPdf (s : string) : bool :=
  String.eqb (String.substring (String.length s - 4) 4 s) ".pdf".

Fixpoint underscoreSpaces (s : string) : string :=
  match s with
  | EmptyString => EmptyString
  | String c rest =>
      String (if Ascii.eqb c " "%char then "_"%char else c) (underscoreSpaces rest)
  end.

#[export] Instance collaborators : Collaborators :=
  {| MAX_SIZE := 25165824;
     MIN_SIZE := 240;
     EDIT_REQUEST_FIELD_RECEIPT := "receipt";
     Str_isPDF := endsWithPdf;
     translate := λ key, key;
     cleanFileName := underscoreSpaces;
     createObjectURL := λ f, String.append "blob:" (default "" (fileName f));
     addEncryptedAuthTokenToURL := λ src, src;
     Report := reportData;
     ReportAction := actionData;
     Policy := bool;
     Transaction := transactionData;
     reportID := λ r, Some (id r);
     parentReportActionID := parentAction;
     actorAccountID := λ a, Some (actor a);
     transactionID := λ _, Some "t1";
     isDeletedAction := λ a, from_option deleted false a;
     isSettled := λ rid, bool_decide (rid = Some "settled");
     isAdminOfFreePolicy := λ ps, bool_decide (ps = [Some true]);
     isExpenseReport := expense;
     isMoneyRequestReport := moneyRequest;
     hasReceipt := λ t, from_option receipt false t;
     isReceiptBeingScanned := λ t, from_option scanning false t |}.

(** A receipt thread whose parent report [parentId] holds the request
    made by account 7, viewed by account 7. *)
Definition receiptProps (parentId : string) : Props :=
  {| props_source := SrcString "https://example.com/receipt.jpg";
     onConfirm := false;
     defaultOpen := false;
     originalFileName := "";
     props_isAuthTokenRequired := true;
     report := {| id := "thread"; parentAction := Some "a1";
                  expense := false; moneyRequest := false |};
     transaction := Some {| receipt := true; scanning := false |};
     parentReport := Some {| id := parentId; parentAction := None;
                             expense := true; moneyRequest := true |};
     parentReportActions := Some {[ "a1" := {| actor := 7; deleted := false |} ]};
     policy := Some false;
     session := Some {| accountID := Some 7 |} |}.

Definition receiptAttachment : Attachment.t :=
  {| Attachment.source := SrcString "https://example.com/receipt.jpg";
     Attachment.isAuthTokenRequired := true;
     Attachment.file := Some (PlainObject (Some "receipt.jpg") None None None);
     Attachment.isReceipt := true |}.

(** An upload dialog with a confirm callback. *)
Definition uploadProps : Props :=
  {| props_source := SrcString "";
     onConfirm := true;
     defaultOpen := false;
     originalFileName := "";
     props_isAuthTokenRequired := false;
     report := {| id := ""; parentAction := None; expense := false; moneyRequest := false |};
     transaction := None;
     parentReport := None;
     parentReportActions := None;
     policy := None;
     session := None |}.

(** A dropped file, a dropped folder, and a dragged text selection: the
    last is a [DataTransferItem] of kind string, for which both
    [webkitGetAsEntry()] and [getAsFile()] return [null]. *)
Definition item : FileObject := PlainObject None None None None.

Definition droppedFile (f : FileObject) : Payload :=
  {| webkitGetAsEntry := Some (Some {| isDirectory := false |});
     getAsFile := Some (Some f);
     own := item |}.

Definition droppedFolder (f : FileObject) : Payload :=
  {| webkitGetAsEntry := Some (Some {| isDirectory := true |});
     getAsFile := Some (Some f);
     own := item |}.

Definition draggedText : Payload :=
  {| webkitGetAsEntry := Some None;
     getAsFile := Some None;
     own := item |}.

(** A [DataTransferItem] that carries a file and has no file system
    entry behind it: [webkitGetAsEntry()] returns [null], [getAsFile()]
    the file. *)
Definition entrylessFile (f : FileObject) : Payload :=
  {| webkitGetAsEntry := Some None;
     getAsFile := Some (Some f);
     own := item |}.

(** An entry without a file object behind it. *)
Definition emptyEntry : Payload :=
  {| webkitGetAsEntry := Some (Some {| isDirectory := false |});
     getAsFile := Some None;
     own := item |}.

(** A file chosen in the picker. *)
Definition picked (f : FileObject) : Payload :=
  {| webkitGetAsEntry := None; getAsFile := None; own := f |}.

(** Files: one byte over the maximum, empty, exactly at each limit, and
    a PDF whose name holds a space. *)
Definition oversized : FileObject := File "scan.png" (25165824 + 1) "image/png" None.
Definition emptyFile : FileObject := File "test.png" 0 "image/png" None.
Definition largest : FileObject := File "max.bin" 25165824 "" None.
Definition smallest : FileObject := File "min.bin" 240 "" None.
Definition spacedPdf : FileObject := File "my receipt.pdf" 1000 "application/pdf" None.

(** A photo from the native picker, with its [uri]. *)
Definition nativePhoto : FileObject :=
  PlainObject (Some "photo.jpg") (Some 5000) (Some "file:///photo.jpg") None.

(** The upload dialog just mounted, and opened on [spacedPdf]. *)
Definition idle : State := initialState uploadProps.

Definition previewing : State :=
  finalState (validateAndDisplayFileToUpload (picked spacedPdf) idle).

(** The receipt preview of report [parentId], open on the receipt. *)
Definition viewing (parentId : string) : State :=
  finalState (onNavigate receiptAttachment
                (finalState (openModal (initialState (receiptProps parentId))))).

Definition editRoute : Route := EDIT_REQUEST (Some "thread") "receipt".

(** The preview after Replace was selected: closed, surface still shown. *)
Definition replacing : Mounted :=
  {| state := finalState (onSelected (replaceItem (receiptProps "open"))
                            (finalState (onModalShow (viewing "open"))));
     surfaceShown := true;
     menuRender := viewing "open" |}.

End Sample.

(** ** Vocabulary of the further properties *)

(** [preserves P h]: a run of [h] from a state in [P] ends in [P],
    whether it returns or raises. *)
Definition preserves {A} (P : State → Prop) (h : Handler A) : Prop :=
  ∀ σ, P σ → P (finalState (h σ)).

Definition isConfirm (e : Effect) : bool :=
  match e with
  | Props_onConfirm _ => true
  | _ => false
  end.

(** The cells [validateAndDisplayFileToUpload] has no business with. *)
Definition bystanders (σ : State)
  : option Callback * bool * bool * bool * bool * bool * bool :=
  (onModalHideCallbackRef σ, shouldLoadAttachment σ,
   isDeleteReceiptConfirmModalVisible σ, isAuthTokenRequired σ,
   isAttachmentReceipt σ, isConfirmButtonDisabled σ, shouldShowDownloadButton σ).

(** The title and prompt keys of the invalid-file dialog, and the three
    pairs the component ever writes. *)
Definition dialogText (σ : State) : string * option string :=
  (attachmentInvalidReasonTitle σ, attachmentInvalidReason σ).

Definition knownDialogTexts : list (string * option string) :=
  [("attachmentPicker.attachmentError", Some "attachmentPicker.folderNotAllowedMessage");
   ("attachmentPicker.attachmentTooLarge", Some "attachmentPicker.sizeExceeded");
   ("attachmentPicker.attachmentTooSmall", Some "attachmentPicker.sizeNotMet")].

(** The dialog is down with the texts of the mount, or the texts are one
    of the three pairs. *)
Definition dialogConsistent (σ : State) : Prop :=
  (isAttachmentInvalid σ = false ∧ dialogText σ = ("", None))
  ∨ dialogText σ ∈ knownDialogTexts.

Definition isMenuSelection (ev : Event) : bool :=
  match ev with
  | EvSelectMenuItem _ => true
  | _ => false
  end.

(** [canEdit] as [threeDotsMenuItems] computes it, for a parent report
    and an originating action that was found. *)
Definition canEditFor `{Collaborators} (props : Props)
    (parent : Report) (action : ReportAction) : bool :=
  negb (isSettled (reportID parent))
  && negb (isDeletedAction (Some action))
  && (isAdminOfFreePolicy [policy props] && isExpenseReport parent
      || isMoneyRequestReport parent
         && sameAccountID (session props ≫= accountID) (actorAccountID action)).

(** [submitAndClose] as the closure of one render.  [useCallback] keeps
    the function that the render in state [ρ] made until one of
    [isModalOpen], [isConfirmButtonDisabled], [props.onConfirm], [file] and
    [source] has changed and the component has rendered again.  The guard
    and the argument of [onConfirm] are what that render captured;
    [lodashExtend] writes [source] on the captured file object and
    [setIsModalOpen] acts on the cells.  It is meant for calls that no
    other handler separates from the render, so that the file cell still
    holds the captured object. *)
Definition submitAndCloseOf `{Collaborators} (props : Props) (ρ : State) : Handler unit :=
  if negb (isModalOpen ρ) || isConfirmButtonDisabled ρ
  then mret tt
  else
    (if onConfirm props
     then setFile (withSource (source ρ) <$> file ρ);;
          emit (Props_onConfirm (lodashExtend (file ρ) (source ρ)))
     else mret tt);;
    setIsModalOpen false.

(** ** SignInPage

    The sign-in page: [getRenderOptions] decides which form is shown, the
    component body derives the welcome header and text and, while
    rendering, may navigate to the SAML sign-in or log a warning. *)
Module SignIn.

(** [getPlatform()] as far as the page tells platforms apart:
    [CONST.PLATFORM.WEB], [CONST.PLATFORM.DESKTOP], any other. *)
Inductive Platform := WEB | DESKTOP | OtherPlatform.

(** The argument object of [getRenderOptions]. *)
Record RenderArguments := {
  hasLogin : bool;
  hasValidateCode : bool;
  hasAccount : bool;
  isPrimaryLogin : bool;
  isAccountValidated : bool;
  isSAMLEnabled : bool;
  isSAMLRequired : bool;
  isUsingMagicCode : bool;
  hasEmailDeliveryFailure : bool
}.

(** The object [getRenderOptions] returns. *)
Record RenderOptions := {
  shouldShowLoginForm : bool;
  shouldShowEmailDeliveryFailurePage : bool;
  shouldShowUnlinkLoginForm : bool;
  shouldShowValidateCodeForm : bool;
  shouldShowChooseSSOOrMagicCode : bool;
  shouldInitiateSAMLLogin : bool;
  shouldShowWelcomeHeader : bool;
  shouldShowWelcomeText : bool
}.

(** [Permissions.canUseSAML() || platform === WEB || platform === DESKTOP] *)
Definition samlAllowed (canUseSAML : bool) (platform : Platform) : bool :=
  canUseSAML
  || match platform with
     | WEB | DESKTOP => true
     | OtherPlatform => false
     end.

Definition getRenderOptions (canUseSAML : bool) (platform : Platform)
    (a : RenderArguments) : RenderOptions :=
  let shouldShowLoginForm := negb (hasLogin a) && negb (hasValidateCode a) in
  let shouldShowChooseSSOOrMagicCode :=
    if samlAllowed canUseSAML platform
    then hasAccount a && hasLogin a && isSAMLEnabled a
         && negb (isSAMLRequired a) && negb (isUsingMagicCode a)
    else false in
  let shouldInitiateSAMLLogin :=
    if samlAllowed canUseSAML platform
    then hasAccount a && hasLogin a && isSAMLRequired a
    else false in
  let shouldShowEmailDeliveryFailurePage :=
    hasLogin a && hasEmailDeliveryFailure a && negb shouldShowChooseSSOOrMagicCode in
  let isUnvalidatedSecondaryLogin :=
    hasLogin a && negb (isPrimaryLogin a) && negb (isAccountValidated a)
    && negb (hasEmailDeliveryFailure a) in
  let shouldShowValidateCodeForm :=
    hasAccount a && (hasLogin a || hasValidateCode a)
    && negb isUnvalidatedSecondaryLogin && negb (hasEmailDeliveryFailure a)
    && negb shouldShowChooseSSOOrMagicCode && negb shouldInitiateSAMLLogin in
  let shouldShowWelcomeHeader :=
    shouldShowLoginForm || shouldShowValidateCodeForm
    || shouldShowChooseSSOOrMagicCode || isUnvalidatedSecondaryLogin in
  let shouldShowWelcomeText :=
    shouldShowLoginForm || shouldShowValidateCodeForm
    || shouldShowChooseSSOOrMagicCode in
  {| shouldShowLoginForm := shouldShowLoginForm;
     shouldShowEmailDeliveryFailurePage := shouldShowEmailDeliveryFailurePage;
     shouldShowUnlinkLoginForm := isUnvalidatedSecondaryLogin;
     shouldShowValidateCodeForm := shouldShowValidateCodeForm;
     shouldShowChooseSSOOrMagicCode := shouldShowChooseSSOOrMagicCode;
     shouldInitiateSAMLLogin := shouldInitiateSAMLLogin;
     shouldShowWelcomeHeader := shouldShowWelcomeHeader;
     shouldShowWelcomeText := shouldShowWelcomeText |}.

(** [props.account], with the shape its propTypes give; [None] is a
    property that is not there.  [errors] is kept as the list of its
    messages. *)
Record Account := {
  errors : option (list string);
  validated : option bool;
  primaryLogin : option string;
  requiresTwoFactorAuth : option bool;
  accountHasEmailDeliveryFailure : option bool;
  isLoading : option bool;
  loadingForm : option string;
  accountIsSAMLEnabled : option bool;
  accountIsSAMLRequired : option bool
}.

(** [props.credentials] *)
Record Credentials := {
  login : option string;
  twoFactorAuthCode : option string;
  validateCode : option string
}.

(** [Boolean(x)] on an optional boolean and on an optional string. *)
Definition truthy (b : option bool) : bool := default false b.

Definition nonEmpty (s : option string) : bool :=
  match s with
  | Some s => negb (String.eqb s "")
  | None => false
  end.

(** [_.isEmpty(account)] *)
Definition isEmptyAccount (account : Account) : bool :=
  match account with
  | {| errors := None; validated := None; primaryLogin := None;
       requiresTwoFactorAuth := None; accountHasEmailDeliveryFailure := None;
       isLoading := None; loadingForm := None; accountIsSAMLEnabled := None;
       accountIsSAMLRequired := None |} => true
  | _ => false
  end.

(** [s.replace(/ /g, nbsp)], with [nbsp] the no-break space U+00A0
    written as its two UTF-8 bytes. *)
Fixpoint hardSpaces (s : string) : string :=
  match s with
  | EmptyString => EmptyString
  | String c rest =>
      if Ascii.eqb c " "%char
      then String (ascii_of_nat 194) (String (ascii_of_nat 160) (hardSpaces rest))
      else String c (hardSpaces rest)
  end.

(** What the page does while it renders, besides returning its view. *)
Inductive RenderEffect :=
| Navigation_navigate_SAML_SIGN_IN
| Log_warn (message : string).

(** What the page hands to [SignInPageLayout] and its children. *)
Record View := {
  welcomeHeader : string;
  welcomeText : string;
  layoutShouldShowWelcomeHeader : bool;
  layoutShouldShowWelcomeText : bool;
  loginFormIsVisible : bool;
  loginFormBlurOnSubmit : bool;
  rendersValidateCodeForm : bool;
  rendersUnlinkLoginForm : bool;
  rendersChooseSSOOrMagicCode : bool;
  rendersEmailDeliveryFailurePage : bool
}.

Section Page.
(** The hooks and libraries the page calls: the permissions and the
    platform, [CONST.FORMS.LOGIN_FORM], the localisation ([translate]
    with its optional [{login}] parameter, [formatPhoneNumber]), and
    [Str.removeSMSDomain] and [Str.isSMSLogin]. *)
Variables (canUseSAML : bool) (platform : Platform) (LOGIN_FORM : string).
Variable translate : string → option string → string.
Variable formatPhoneNumber : string → string.
Variables (removeSMSDomain : string → string) (isSMSLogin : string → bool).

Definition renderArguments (credentials : Credentials) (account : Account)
    (isUsingMagicCode : bool) : RenderArguments :=
  {| hasLogin := nonEmpty (login credentials);
     hasValidateCode := nonEmpty (validateCode credentials);
     hasAccount := negb (isEmptyAccount account);
     isPrimaryLogin :=
       negb (nonEmpty (primaryLogin account))
       || bool_decide (primaryLogin account = login credentials);
     isAccountValidated := truthy (validated account);
     isSAMLEnabled := truthy (accountIsSAMLEnabled account);
     isSAMLRequired := truthy (accountIsSAMLRequired account);
     isUsingMagicCode := isUsingMagicCode;
     hasEmailDeliveryFailure := truthy (accountHasEmailDeliveryFailure account) |}.

(** The login as the welcome text shows it. *)
Definition userLoginToDisplay (credentials : Credentials) : string :=
  let userLogin := removeSMSDomain (default "" (login credentials)) in
  if isSMSLogin userLogin then hardSpaces (formatPhoneNumber userLogin) else userLogin.

(** The body of [SignInPage]: the view and the effects of one render, for
    the props, the window width and the two state cells.  The two
    [useEffect] calls with an empty dependency list
    ([Performance.measureTTI], [App.setLocale]) run once after the first
    render, not in the body, and are not part of the render's effects. *)
Definition SignInPage (credentials : Credentials) (account : Account)
    (isInModal isSmallScreenWidth isUsingRecoveryCode isUsingMagicCode : bool)
    : View * list RenderEffect :=
  let shouldShowSmallScreen := isSmallScreenWidth || isInModal in
  let o := getRenderOptions canUseSAML platform
             (renderArguments credentials account isUsingMagicCode) in
  let samlEffects :=
    if shouldInitiateSAMLLogin o && bool_decide (loadingForm account = Some LOGIN_FORM)
    then [Navigation_navigate_SAML_SIGN_IN] else [] in
  let headerText := translate "login.hero.header" None in
  let '(header, text, warnEffects) :=
    if shouldShowLoginForm o then
      (if isSmallScreenWidth then headerText else translate "welcomeText.getStarted" None,
       if isSmallScreenWidth then translate "welcomeText.getStarted" None else "",
       [])
    else if shouldShowValidateCodeForm o then
      if truthy (requiresTwoFactorAuth account) then
        (if isSmallScreenWidth then "" else translate "welcomeText.welcomeBack" None,
         if isUsingRecoveryCode
         then translate "validateCodeForm.enterRecoveryCode" None
         else translate "validateCodeForm.enterAuthenticatorCode" None,
         [])
      else
        let shown := Some (userLoginToDisplay credentials) in
        if truthy (validated account) then
          (if shouldShowSmallScreen then "" else translate "welcomeText.welcomeBack" None,
           if shouldShowSmallScreen
           then translate "welcomeText.welcomeBack" None +:+ " "
                +:+ translate "welcomeText.welcomeEnterMagicCode" shown
           else translate "welcomeText.welcomeEnterMagicCode" shown,
           [])
        else
          (if shouldShowSmallScreen then "" else translate "welcomeText.welcome" None,
           if shouldShowSmallScreen
           then translate "welcomeText.welcome" None +:+ " "
                +:+ translate "welcomeText.newFaceEnterMagicCode" shown
           else translate "welcomeText.newFaceEnterMagicCode" shown,
           [])
    else if shouldShowUnlinkLoginForm o || shouldShowEmailDeliveryFailurePage o
            || shouldShowChooseSSOOrMagicCode o then
      (if shouldShowSmallScreen then headerText
       else translate "welcomeText.welcomeBack" None,
       "", [])
    else
      ("", "",
       if negb (shouldInitiateSAMLLogin o)
       then [Log_warn "SignInPage in unexpected state!"] else []) in
  ({| welcomeHeader := header;
      welcomeText := text;
      layoutShouldShowWelcomeHeader :=
        shouldShowWelcomeHeader o || negb isSmallScreenWidth || negb isInModal;
      layoutShouldShowWelcomeText := shouldShowWelcomeText o;
      loginFormIsVisible := shouldShowLoginForm o;
      loginFormBlurOnSubmit := bool_decide (validated account = Some false);
      rendersValidateCodeForm := shouldShowValidateCodeForm o;
      rendersUnlinkLoginForm := shouldShowUnlinkLoginForm o;
      rendersChooseSSOOrMagicCode := shouldShowChooseSSOOrMagicCode o;
      rendersEmailDeliveryFailurePage := shouldShowEmailDeliveryFailurePage o |},
   samlEffects ++ warnEffects).
End Page.
End SignIn.

(** Whether a string holds a plain space. *)
Fixpoint hasSpace (s : string) : bool :=
  match s with
  | EmptyString => false
  | String c rest => Ascii.eqb c " "%char || hasSpace rest
  end.

(** The no-break space U+00A0 as [hardSpaces] writes it, and
    [words.join(separator)]. *)
Definition noBreakSpace : string :=
  String (ascii_of_nat 194) (String (ascii_of_nat 160) EmptyString).

Fixpoint joinWith (separator : string) (words : list string) : string :=
  match words with
  | [] => ""
  | word :: rest =>
      match rest with
      | [] => word
      | _ :: _ => word +:+ separator +:+ joinWith separator rest
      end
  end.

(** ** Sage Intacct settings pages *)
Module SageIntacct.

(** [SageIntacctDataElementWithValue]: a vendor of the connection. *)
Record DataElementWithValue := {
  id : string;
  value : option string
}.

Definition getDefaultVendorName (defaultVendor : string)
    (vendors : list DataElementWithValue) : string :=
  match List.find (λ vendor, String.eqb (id vendor) defaultVendor) vendors with
  | Some vendor => default defaultVendor (value vendor)
  | None => defaultVendor
  end.

(** A bank account of [policy.connections.intacct.data.bankAccounts]. *)
Record BankAccount := {
  bankAccountID : string;
  name : option string
}.

(** [policy.connections.intacct.data], as far as the pages read it. *)
Record IntacctData := {
  bankAccounts : option (list BankAccount);
  vendors : option (list DataElementWithValue)
}.

(** A row of the expense type list ([MenuListItem]). *)
Record MenuListItem := {
  rowValue : string;
  text : string;
  keyForList : string;
  isSelected : bool
}.

(** The calls the pages make to [@userActions/connections/SageIntacct]. *)
Inductive Update :=
| updateSageIntacctNonreimbursableExpensesExportDestination
    (policyID : string) (destination : string)
| updateSageIntacctDefaultVendor
    (policyID : string) (settingName : string) (vendor : option string).

Section Pages.
(** [useLocalize], the policy id ([policy?.id], absent without a policy),
    and the constants [CONST.SAGE_INTACCT_NON_REIMBURSABLE_EXPENSE_TYPE]
    (its values, in order) and
    [CONST.SAGE_INTACCT_CONFIG.NON_REIMBURSABLE_CREDIT_CARD_VENDOR]. *)
Variable translate : string → string.
Variable policy_id : option string.
Variable expenseTypes : list string.
Variable NON_REIMBURSABLE_CREDIT_CARD_VENDOR : string.

(** [policy?.id ?? '-1'] *)
Definition policyID : string := default "-1" policy_id.

(** The rows of [SageIntacctNonReimbursableExpensesPage], for
    [config?.export.nonReimbursable]. *)
Definition data (nonReimbursable : option string) : list MenuListItem :=
  (λ expenseType,
     {| rowValue := expenseType;
        text := translate ("workspace.sageIntacct.nonReimbursableExpenses.values."
                           +:+ expenseType);
        keyForList := expenseType;
        isSelected := bool_decide (nonReimbursable = Some expenseType) |})
  <$> expenseTypes.

Definition selectNonReimbursableExpense (nonReimbursable : option string)
    (row : MenuListItem) : list Update :=
  if bool_decide (Some (rowValue row) = nonReimbursable) then []
  else [updateSageIntacctNonreimbursableExpensesExportDestination policyID (rowValue row)].

(** The [onToggle] of the default vendor switch:
    [enabled ? policy?.connections?.intacct?.data?.vendors?.[0].id ?? null : null].
    [vendorList] is [None] when a link of the optional chain is missing;
    on an empty list the read of [.id] raises. *)
Definition defaultVendorOnToggle (vendorList : option (list DataElementWithValue))
    (enabled : bool) : JsResult (list Update) :=
  if enabled then
    match vendorList with
    | None =>
        Ok [updateSageIntacctDefaultVendor policyID NON_REIMBURSABLE_CREDIT_CARD_VENDOR None]
    | Some [] => Raised (TypeError "vendors[0].id")
    | Some (vendor :: _) =>
        Ok [updateSageIntacctDefaultVendor policyID NON_REIMBURSABLE_CREDIT_CARD_VENDOR
              (Some (id vendor))]
    end
  else Ok [updateSageIntacctDefaultVendor policyID NON_REIMBURSABLE_CREDIT_CARD_VENDOR None].

(** The title of the payment account row of [SageIntacctAdvancedPage]:
    [data.bankAccounts.find((bankAccount) => bankAccount.id ===
    reimbursementAccountID)?.name || translate('...notConfigured')]. *)
Definition paymentAccountTitle (intacctData : option IntacctData)
    (reimbursementAccountID : option string) : JsResult string :=
  match intacctData with
  | None => Raised (TypeError "data.bankAccounts")
  | Some d =>
      match bankAccounts d with
      | None => Raised (TypeError "data.bankAccounts.find")
      | Some accounts =>
          match List.find (λ bankAccount,
                             bool_decide (Some (bankAccountID bankAccount)
                                          = reimbursementAccountID)) accounts with
          | Some {| name := Some n |} =>
              if String.eqb n "" then Ok (translate "workspace.sageIntacct.notConfigured")
              else Ok n
          | _ => Ok (translate "workspace.sageIntacct.notConfigured")
          end
      end
  end.
End Pages.
End SageIntacct.

(** ** DistanceRequest

    The waypoint list of a distance request: the markers drawn on the map,
    the renumbering after a drag, and when a route is fetched. *)
Module Distance.

Section Waypoints.
(** A latitude or longitude: the component only tests them for [nil] and
    passes them on. *)
Variable Coordinate : Type.

Record Waypoint := {
  lat : option Coordinate;
  lng : option Coordinate;
  address : option string
}.

Inductive MarkerComponent := DotIndicatorUnfilled | Location | DotIndicator.

Record Marker := {
  markerID : string;
  coordinate : Coordinate * Coordinate;
  markerComponent : MarkerComponent
}.

(** [TransactionUtils.getWaypointIndex] and the text of a number in a
    template string. *)
Variable getWaypointIndex : string → Z.
Variable showCoordinate : Coordinate → string.

(** The callback of [_.map(waypoints, (waypoint, key) => ...)]: nothing
    for a waypoint that is [null] or lacks a coordinate. *)
Definition toMarker (lastWaypointIndex : Z) (entry : string * option Waypoint)
    : option Marker :=
  match entry with
  | (key, Some {| lat := Some latitude; lng := Some longitude |}) =>
      let index := getWaypointIndex key in
      Some {| markerID := showCoordinate longitude +:+ "," +:+ showCoordinate latitude
                          +:+ "," +:+ pretty index;
              coordinate := (longitude, latitude);
              markerComponent :=
                if Z.eqb index 0 then DotIndicatorUnfilled
                else if Z.eqb index lastWaypointIndex then Location
                else DotIndicator |}
  | _ => None
  end.

(** [waypointMarkers], for the entries of [waypoints] in the order
    [_.map] visits them; [lastWaypointIndex] is [_.size(waypoints) - 1]. *)
Definition waypointMarkers (waypoints : list (string * option Waypoint))
    : list Marker :=
  omap (toMarker (Z.of_nat (length waypoints) - 1)) waypoints.

(** The key [`waypoint${index}`]. *)
Definition waypointKey (index : nat) : string := "waypoint" +:+ pretty index.

(** [lodashGet(waypoints, waypoint, null)] for a property name: [null]
    (here [None]) for a missing or [null] waypoint. *)
Definition lodashGet_waypoint (waypoints : gmap string (option Waypoint))
    (key : string) : option Waypoint :=
  default None (waypoints !! key).

(** The loop of [onDragEnd]: [_.each(data, (waypoint, index) => {
    newWaypoints[`waypoint${index}`] = lodashGet(waypoints, waypoint, null); })],
    from index [index] on. *)
Fixpoint renumber (waypoints : gmap string (option Waypoint)) (data : list string)
    (index : nat) (newWaypoints : gmap string (option Waypoint))
    : gmap string (option Waypoint) :=
  match data with
  | [] => newWaypoints
  | waypoint :: rest =>
      renumber waypoints rest (S index)
        (<[waypointKey index := lodashGet_waypoint waypoints waypoint]> newWaypoints)
  end.

(** The object [onDragEnd] hands to [Transaction.updateWaypoints]. *)
Definition onDragEnd (waypoints : gmap string (option Waypoint)) (data : list string)
    : gmap string (option Waypoint) :=
  renumber waypoints data 0 ∅.
End Waypoints.

(** [shouldFetchRoute], from the flags read off the transaction and the
    number of validated waypoints. *)
Definition shouldFetchRoute (hasRoute hasRouteError haveValidatedWaypointsChanged
    isLoadingRoute : bool) (validatedWaypoints : nat) : bool :=
  (negb hasRoute && negb hasRouteError || haveValidatedWaypointsChanged)
  && negb isLoadingRoute && (1 <? validatedWaypoints)%nat.

(** The effect that fetches the route: whether [Transaction.getRoute] is
    called. *)
Definition fetchesRoute (isOffline hasRoute hasRouteError
    haveValidatedWaypointsChanged isLoadingRoute : bool)
    (validatedWaypoints : nat) : bool :=
  negb (isOffline
        || negb (shouldFetchRoute hasRoute hasRouteError
                   haveValidatedWaypointsChanged isLoadingRoute validatedWaypoints)).

(** [isDisabled] of the Next button. *)
Definition nextIsDisabled (hasRouteError : bool) (validatedWaypoints : nat) : bool :=
  (validatedWaypoints <? 2)%nat || hasRouteError.
End Distance.

(** ** Further sample data *)
Module Cases.
#[local] Existing Instance Sample.collaborators.

(** A PDF from the native picker that came without a [uri]. *)
Definition nativePdf : FileObject :=
  PlainObject (Some "scan.pdf") (Some 1000) None None.

(** The upload dialog after a folder was dropped on it. *)
Definition refused : Mounted :=
  {| state := finalState (validateAndDisplayFileToUpload
                            (Sample.droppedFolder Sample.oversized) Sample.idle);
     surfaceShown := false;
     menuRender := Sample.idle |}.

(** The receipt preview of the open report, shown. *)
Definition receiptShown : Mounted :=
  {| state := finalState (onModalShow (Sample.viewing "open"));
     surfaceShown := true;
     menuRender := Sample.viewing "open" |}.


(** A visit to the receipt of the settled report: open, browse to the
    receipt, press the first menu entry, close. *)
Definition settledVisit : list Event :=
  [EvShow; EvModalShow; EvNavigate Sample.receiptAttachment;
   EvSelectMenuItem 0; EvClose; EvModalHide].

(** Sign-in: no credentials yet; a login whose account data has not
    arrived; a validated account behind required SAML whose login form is
    loading; a phone login. *)
Definition noCredentials : SignIn.Credentials :=
  {| SignIn.login := None; SignIn.twoFactorAuthCode := None;
     SignIn.validateCode := None |}.

Definition emailLogin : SignIn.Credentials :=
  {| SignIn.login := Some "ada@example.com"; SignIn.twoFactorAuthCode := None;
     SignIn.validateCode := None |}.

Definition phoneLogin : SignIn.Credentials :=
  {| SignIn.login := Some "+15550100@expensify.sms";
     SignIn.twoFactorAuthCode := None; SignIn.validateCode := None |}.

Definition noAccount : SignIn.Account :=
  {| SignIn.errors := None; SignIn.validated := None; SignIn.primaryLogin := None;
     SignIn.requiresTwoFactorAuth := None;
     SignIn.accountHasEmailDeliveryFailure := None; SignIn.isLoading := None;
     SignIn.loadingForm := None; SignIn.accountIsSAMLEnabled := None;
     SignIn.accountIsSAMLRequired := None |}.

Definition samlAccount : SignIn.Account :=
  {| SignIn.errors := None; SignIn.validated := Some true;
     SignIn.primaryLogin := Some "ada@example.com";
     SignIn.requiresTwoFactorAuth := None;
     SignIn.accountHasEmailDeliveryFailure := None; SignIn.isLoading := Some true;
     SignIn.loadingForm := Some "LoginForm"; SignIn.accountIsSAMLEnabled := Some true;
     SignIn.accountIsSAMLRequired := Some true |}.

Definition firstVisit : SignIn.RenderArguments :=
  {| SignIn.hasLogin := false; SignIn.hasValidateCode := false;
     SignIn.hasAccount := false; SignIn.isPrimaryLogin := true;
     SignIn.isAccountValidated := false; SignIn.isSAMLEnabled := false;
     SignIn.isSAMLRequired := false; SignIn.isUsingMagicCode := false;
     SignIn.hasEmailDeliveryFailure := false |}.

Definition translateKey (key : string) (parameter : option string) : string :=
  match parameter with
  | Some p => key +:+ ":" +:+ p
  | None => key
  end.

Definition dropSmsDomain (s : string) : string :=
  String.substring 0 (String.length s - String.length "@expensify.sms") s.

Definition spacedNumber (s : string) : string :=
  String.substring 0 2 s +:+ " " +:+ String.substring 2 3 s +:+ " "
  +:+ String.substring 5 4 s.

(** The sign-in page on the web, with these stand-ins for the libraries. *)
Definition webPage :=
  SignIn.SignInPage false SignIn.WEB "LoginForm" translateKey spacedNumber id
    (String.prefix "+").

(** Sage Intacct: two vendors, the second without a value, and three
    bank accounts, two of them under one id. *)
Definition vendors : list SageIntacct.DataElementWithValue :=
  [{| SageIntacct.id := "v1"; SageIntacct.value := Some "Acme" |};
   {| SageIntacct.id := "v2"; SageIntacct.value := None |}].

Definition intacctData : SageIntacct.IntacctData :=
  {| SageIntacct.bankAccounts :=
       Some [{| SageIntacct.bankAccountID := "b1"; SageIntacct.name := Some "Checking" |};
             {| SageIntacct.bankAccountID := "b2"; SageIntacct.name := Some "" |};
             {| SageIntacct.bankAccountID := "b1"; SageIntacct.name := Some "Savings" |}];
     SageIntacct.vendors := Some vendors |}.

Definition expenseTypes : list string := ["CREDIT_CARD_CHARGE"; "VENDOR_BILL"].

(** A distance request with three stops, the second not located yet, and
    the order after the last stop was dragged to the front. *)
Definition stop (latitude longitude : Z) (name : string) : Distance.Waypoint Z :=
  {| Distance.lat := Some latitude; Distance.lng := Some longitude;
     Distance.address := Some name |}.

Definition unlocated : Distance.Waypoint Z :=
  {| Distance.lat := None; Distance.lng := None; Distance.address := None |}.

Definition stops : list (string * option (Distance.Waypoint Z)) :=
  [("waypoint0", Some (stop 47 8 "Zurich"));
   ("waypoint1", Some unlocated);
   ("waypoint2", Some (stop 46 7 "Bern"))].

Definition stopsObject : gmap string (option (Distance.Waypoint Z)) :=
  list_to_map stops.

Definition draggedOrder : list string := ["waypoint2"; "waypoint0"; "waypoint1"].

Definition indexOfKey (key : string) : Z :=
  if String.eqb key "waypoint0" then 0
  else if String.eqb key "waypoint1" then 1
  else if String.eqb key "waypoint2" then 2
  else -1.
End Cases.

(** * Properties *)

(** Unfolds the handler monad and the setters, leaving the outcome of a
    handler as a [match] tree over its inputs. *)
Ltac run_handler :=
  cbv [mbind mret handler_mbind handler_mret handler_bind handler_ret
       get modify emit throw
       setOnModalHideCallbackRef setIsModalOpen setShouldLoadAttachment
       setIsAttachmentInvalid setIsDeleteReceiptConfirmModalVisible
       setIsAuthTokenRequired setIsAttachmentReceipt
       setAttachmentInvalidReasonTitle setAttachmentInvalidReason
       setSource setModalType setIsConfirmButtonDisabled
       setShouldShowDownloadButton setFile].

Section Validation.
Context `{Collaborators}.
Implicit Types (σ : State) (f : FileObject) (d : Payload).

(** *** [isValidFile] *)

Lemma isValidFile_too_large σ f :
  MAX_SIZE < lodashGet_size f →
  isValidFile f σ =
    Returned false (invalidated "attachmentPicker.attachmentTooLarge"
                                "attachmentPicker.sizeExceeded" σ) [].
Proof.
  intros Hlarge. unfold isValidFile.
  destruct (Z.gtb_spec (lodashGet_size f) MAX_SIZE) as [_|Hle]; [|lia].
  reflexivity.
Qed.

Lemma isValidFile_too_small σ f :
  lodashGet_size f ≤ MAX_SIZE →
  lodashGet_size f < MIN_SIZE →
  isValidFile f σ =
    Returned false (invalidated "attachmentPicker.attachmentTooSmall"
                                "attachmentPicker.sizeNotMet" σ) [].
Proof.
  intros Hmax Hsmall. unfold isValidFile.
  destruct (Z.gtb_spec (lodashGet_size f) MAX_SIZE) as [Hgt|_]; [lia|].
  destruct (Z.ltb_spec (lodashGet_size f) MIN_SIZE) as [_|Hge]; [|lia].
  reflexivity.
Qed.

Lemma isValidFile_within_bounds σ f :
  MIN_SIZE ≤ lodashGet_size f ≤ MAX_SIZE →
  isValidFile f σ = Returned true σ [].
Proof.
  intros [Hmin Hmax]. unfold isValidFile.
  destruct (Z.gtb_spec (lodashGet_size f) MAX_SIZE) as [Hgt|_]; [lia|].
  destruct (Z.ltb_spec (lodashGet_size f) MIN_SIZE) as [Hlt|_]; [lia|].
  reflexivity.
Qed.

(** *** [isDirectoryCheck] *)

Lemma isDirectoryCheck_directory σ d :
  isDirectoryEntry d = true →
  isDirectoryCheck d σ =
    Returned false (invalidated "attachmentPicker.attachmentError"
                                "attachmentPicker.folderNotAllowedMessage" σ) [].
Proof.
  unfold isDirectoryEntry, isDirectoryCheck.
  destruct (webkitGetAsEntry d) as [[entry|]|]; try discriminate.
  intros ->. reflexivity.
Qed.

Lemma isDirectoryCheck_passes σ d :
  entryAvailable d = true →
  isDirectoryEntry d = false →
  isDirectoryCheck d σ = Returned true σ [].
Proof.
  unfold entryAvailable, isDirectoryEntry, isDirectoryCheck.
  destruct (webkitGetAsEntry d) as [[entry|]|]; try discriminate; [|reflexivity].
  intros _ ->. reflexivity.
Qed.

Lemma isDirectoryCheck_null_entry σ d :
  webkitGetAsEntry d = Some None →
  isDirectoryCheck d σ = Thrown (TypeError "webkitGetAsEntry().isDirectory") σ [].
Proof. unfold isDirectoryCheck. intros ->. reflexivity. Qed.

(** *** [validateAndDisplayFileToUpload], branch by branch *)

Lemma validate_directory σ d :
  isDirectoryEntry d = true →
  validateAndDisplayFileToUpload d σ =
    Returned tt (invalidated "attachmentPicker.attachmentError"
                             "attachmentPicker.folderNotAllowedMessage" σ) [].
Proof.
  intros Hdir. unfold validateAndDisplayFileToUpload.
  cbv [mbind handler_mbind handler_bind].
  rewrite (isDirectoryCheck_directory _ _ Hdir). reflexivity.
Qed.

Lemma validate_null_entry σ d :
  webkitGetAsEntry d = Some None →
  validateAndDisplayFileToUpload d σ =
    Thrown (TypeError "webkitGetAsEntry().isDirectory") σ [].
Proof.
  intros Hnull. unfold validateAndDisplayFileToUpload.
  cbv [mbind handler_mbind handler_bind].
  rewrite (isDirectoryCheck_null_entry _ _ Hnull). reflexivity.
Qed.

Lemma entryAvailable_false d :
  entryAvailable d = false → webkitGetAsEntry d = Some None.
Proof.
  unfold entryAvailable. destruct (webkitGetAsEntry d) as [[entry|]|]; congruence.
Qed.

Lemma fileObjectOf_candidate d f :
  getAsFile d = Some (Some f) ∨ (getAsFile d = None ∧ own d = f) →
  fileObjectOf d = Some f.
Proof.
  unfold fileObjectOf. intros [->|[-> ->]]; reflexivity.
Qed.

Lemma thrown_is_no_verdict (v : Verdict) σ e σ' log :
  ¬ verdictObserved v σ (Thrown e σ' log).
Proof. destruct v; cbn [verdictObserved]; [discriminate..|]. intros (? & [=] & _). Qed.

Lemma validate_after_directory_check σ d :
  entryAvailable d = true →
  isDirectoryEntry d = false →
  validateAndDisplayFileToUpload d σ =
    match fileObjectOf d with
    | None => Returned tt σ []
    | Some f =>
        match isValidFile f σ with
        | Returned false σ1 log => Returned tt σ1 log
        | Returned true σ1 log =>
            Returned tt
              {| onModalHideCallbackRef := onModalHideCallbackRef σ1;
                 isModalOpen := true;
                 shouldLoadAttachment := shouldLoadAttachment σ1;
                 isAttachmentInvalid := isAttachmentInvalid σ1;
                 isDeleteReceiptConfirmModalVisible :=
                   isDeleteReceiptConfirmModalVisible σ1;
                 isAuthTokenRequired := isAuthTokenRequired σ1;
                 isAttachmentReceipt := isAttachmentReceipt σ1;
                 attachmentInvalidReasonTitle := attachmentInvalidReasonTitle σ1;
                 attachmentInvalidReason := attachmentInvalidReason σ1;
                 source := sourceOfFile (fileOfRecord f);
                 modalType :=
                   match fileOfRecord f with
                   | File _ _ _ _ =>
                       getModalType (Some (createObjectURL (fileOfRecord f)))
                                    (fileOfRecord f)
                   | PlainObject _ _ uri _ => getModalType uri (fileOfRecord f)
                   end;
                 isConfirmButtonDisabled := isConfirmButtonDisabled σ1;
                 shouldShowDownloadButton := shouldShowDownloadButton σ1;
                 file := Some (fileOfRecord f) |} log
        | Thrown e σ1 log => Thrown e σ1 log
        end
    end.
Proof.
  intros Havail Hfile. unfold validateAndDisplayFileToUpload.
  cbv [mbind handler_mbind handler_bind].
  rewrite (isDirectoryCheck_passes _ _ Havail Hfile). cbn [negb].
  destruct (fileObjectOf d) as [f|]; [|reflexivity].
  destruct (isValidFile f σ) as [[|] σ1 log|e σ1 log]; cbn [negb app];
    [|run_handler; rewrite app_nil_r; reflexivity|reflexivity].
  destruct f as [name size type ext|name size uri ext]; cbn [fileOfRecord].
  - destruct (String.eqb name (cleanFileName name)); run_handler;
      cbn [app sourceOfFile]; rewrite app_nil_r; reflexivity.
  - run_handler. cbn [app sourceOfFile]. rewrite app_nil_r. reflexivity.
Qed.
End Validation.

Section ValidationClaims.
Context `{Collaborators}.
Implicit Types (σ : State) (f : FileObject) (d : Payload).

(** C3, with the case the code misses.  The pipeline applies its rules
    in the order directory, too large, too small, and the first failing
    rule decides: a directory-entry payload is rejected with the
    folder-not-allowed reason whatever it holds, and a payload whose
    candidate is the file object [f] (what [getAsFile()] returns or,
    without that method, the payload itself) gets the verdict that rules
    1 to 4 of the specification give for it, as long as
    [webkitGetAsEntry()], where it exists, returns an entry.  When it
    returns [null] the payload is not a directory, yet no rule is applied
    to [f]: the directory check raises a [TypeError], the state stays as
    it was and the verdict of the rules is not shown. *)
Theorem rules_in_order_unless_entry_is_null σ d :
  (isDirectoryEntry d = true →
   verdictObserved FolderNotAllowed σ (validateAndDisplayFileToUpload d σ))
  ∧ (∀ f, getAsFile d = Some (Some f) ∨ (getAsFile d = None ∧ own d = f) →
          (entryAvailable d = true →
           verdictObserved (pipelineVerdict (isDirectoryEntry d) (lodashGet_size f)) σ
                           (validateAndDisplayFileToUpload d σ))
          ∧ (entryAvailable d = false →
             isDirectoryEntry d = false
             ∧ validateAndDisplayFileToUpload d σ
               = Thrown (TypeError "webkitGetAsEntry().isDirectory") σ []
             ∧ ¬ verdictObserved
                   (pipelineVerdict (isDirectoryEntry d) (lodashGet_size f)) σ
                   (validateAndDisplayFileToUpload d σ))).
Proof.
  split.
  - intros Hdir. apply validate_directory, Hdir.
  - intros f Hf. apply fileObjectOf_candidate in Hf. split.
    + intros Havail. unfold pipelineVerdict.
      destruct (isDirectoryEntry d) eqn:Hdir.
      { apply validate_directory, Hdir. }
      rewrite (validate_after_directory_check _ _ Havail Hdir), Hf.
      destruct (Z.gtb_spec (lodashGet_size f) MAX_SIZE) as [Hgt|Hle].
      { rewrite (isValidFile_too_large _ _ Hgt). reflexivity. }
      destruct (Z.ltb_spec (lodashGet_size f) MIN_SIZE) as [Hlt|Hge].
      { rewrite (isValidFile_too_small _ _ Hle Hlt). reflexivity. }
      rewrite isValidFile_within_bounds by lia.
      eexists. split; [reflexivity|]. repeat split.
    + intros Hnull. apply entryAvailable_false in Hnull.
      rewrite (validate_null_entry _ _ Hnull).
      unfold isDirectoryEntry. rewrite Hnull.
      split; [reflexivity|]. split; [reflexivity|].
      apply thrown_is_no_verdict.
Qed.

(** C4, with the case the code misses.  A candidate file (what
    [getAsFile()] returns or, without that method, the payload itself)
    larger than the maximum is rejected as too large with the
    size-exceeded reason and is not adopted (the active source, the
    active file and the modal state stay as they were), as long as
    [webkitGetAsEntry()], where it exists, returns an entry.  When it
    returns [null] the file is not looked at: the call raises a
    [TypeError] and no dialog is raised. *)
Theorem oversized_file_rejected_unless_entry_is_null σ d f :
  isDirectoryEntry d = false →
  getAsFile d = Some (Some f) ∨ (getAsFile d = None ∧ own d = f) →
  MAX_SIZE < lodashGet_size f →
  let o := validateAndDisplayFileToUpload d σ in
  (entryAvailable d = true →
   o = Returned tt (invalidated "attachmentPicker.attachmentTooLarge"
                                "attachmentPicker.sizeExceeded" σ) []
   ∧ isAttachmentInvalid (finalState o) = true
   ∧ attachmentInvalidReasonTitle (finalState o) = "attachmentPicker.attachmentTooLarge"
   ∧ attachmentInvalidReason (finalState o) = Some "attachmentPicker.sizeExceeded"
   ∧ source (finalState o) = source σ
   ∧ file (finalState o) = file σ
   ∧ isModalOpen (finalState o) = isModalOpen σ)
  ∧ (entryAvailable d = false →
     o = Thrown (TypeError "webkitGetAsEntry().isDirectory") σ []
     ∧ isAttachmentInvalid (finalState o) = isAttachmentInvalid σ
     ∧ attachmentInvalidReason (finalState o) = attachmentInvalidReason σ).
Proof.
  intros Hdir Hf Hlarge o. subst o. apply fileObjectOf_candidate in Hf. split.
  - intros Havail.
    rewrite (validate_after_directory_check _ _ Havail Hdir), Hf.
    rewrite (isValidFile_too_large _ _ Hlarge). repeat split.
  - intros Hnull. apply entryAvailable_false in Hnull.
    rewrite (validate_null_entry _ _ Hnull). repeat split.
Qed.

(** C5, with the case the code misses.  With limits that leave room
    between them, a candidate file smaller than the minimum (a file of 0
    bytes when the minimum is positive) is rejected as too small with the
    size-not-met reason, and the active source, file and modal state stay
    as they were, as long as [webkitGetAsEntry()], where it exists,
    returns an entry.  When it returns [null] the file is not looked at:
    the call raises a [TypeError] and no dialog is raised. *)
Theorem undersized_file_rejected_unless_entry_is_null σ d f :
  MIN_SIZE ≤ MAX_SIZE →
  isDirectoryEntry d = false →
  getAsFile d = Some (Some f) ∨ (getAsFile d = None ∧ own d = f) →
  lodashGet_size f < MIN_SIZE →
  let o := validateAndDisplayFileToUpload d σ in
  (entryAvailable d = true →
   o = Returned tt (invalidated "attachmentPicker.attachmentTooSmall"
                                "attachmentPicker.sizeNotMet" σ) []
   ∧ isAttachmentInvalid (finalState o) = true
   ∧ attachmentInvalidReasonTitle (finalState o) = "attachmentPicker.attachmentTooSmall"
   ∧ attachmentInvalidReason (finalState o) = Some "attachmentPicker.sizeNotMet"
   ∧ source (finalState o) = source σ
   ∧ file (finalState o) = file σ
   ∧ isModalOpen (finalState o) = isModalOpen σ)
  ∧ (entryAvailable d = false →
     o = Thrown (TypeError "webkitGetAsEntry().isDirectory") σ []
     ∧ isAttachmentInvalid (finalState o) = isAttachmentInvalid σ
     ∧ attachmentInvalidReason (finalState o) = attachmentInvalidReason σ).
Proof.
  intros Hconf Hdir Hf Hsmall o. subst o. apply fileObjectOf_candidate in Hf. split.
  - intros Havail.
    rewrite (validate_after_directory_check _ _ Havail Hdir), Hf.
    rewrite isValidFile_too_small by lia. repeat split.
  - intros Hnull. apply entryAvailable_false in Hnull.
    rewrite (validate_null_entry _ _ Hnull). repeat split.
Qed.

(** C6, with the case the code misses.  A candidate that is not a
    directory and whose size lies within the limits, both ends included,
    is accepted, as long as [webkitGetAsEntry()], where it exists, returns
    an entry: no dialog is raised and the modal opens.  A [File] becomes
    the active file under its clean name (as it is when the name is
    clean, as a copy of the same size and type otherwise) and the source
    is the object URL made for the active file.  Any other file object
    becomes the active file as it is and the source is its [uri], or
    undefined when it has none.  When [webkitGetAsEntry()] returns [null]
    the candidate is not adopted: the call raises a [TypeError] and the
    state stays as it was. *)
Theorem file_within_bounds_displayed_unless_entry_is_null σ d f :
  isDirectoryEntry d = false →
  getAsFile d = Some (Some f) ∨ (getAsFile d = None ∧ own d = f) →
  MIN_SIZE ≤ lodashGet_size f ≤ MAX_SIZE →
  (entryAvailable d = true →
   ∃ σ', validateAndDisplayFileToUpload d σ = Returned tt σ' []
         ∧ isModalOpen σ' = true
         ∧ isAttachmentInvalid σ' = isAttachmentInvalid σ
         ∧ (∀ name size type ext, f = File name size type ext →
              (name = cleanFileName name → file σ' = Some f)
              ∧ (name ≠ cleanFileName name →
                 file σ' = Some (File (cleanFileName name) size type None))
              ∧ ∃ active, file σ' = Some active
                          ∧ fileName active = Some (cleanFileName name)
                          ∧ lodashGet_size active = lodashGet_size f
                          ∧ source σ' = SrcString (createObjectURL active))
         ∧ (∀ name size uri ext, f = PlainObject name size uri ext →
              file σ' = Some f
              ∧ (∀ u, uri = Some u → source σ' = SrcString u)
              ∧ (uri = None → source σ' = SrcUndefined)))
  ∧ (entryAvailable d = false →
     validateAndDisplayFileToUpload d σ
     = Thrown (TypeError "webkitGetAsEntry().isDirectory") σ []).
Proof.
  intros Hdir Hf Hsize. apply fileObjectOf_candidate in Hf. split.
  - intros Havail.
    rewrite (validate_after_directory_check _ _ Havail Hdir), Hf.
    rewrite (isValidFile_within_bounds _ _ Hsize).
    eexists. split; [reflexivity|].
    cbn [isModalOpen file source isAttachmentInvalid].
    split; [reflexivity|]. split; [reflexivity|]. split.
    + intros name size type ext ->. cbn [fileOfRecord sourceOfFile].
      destruct (String.eqb_spec name (cleanFileName name)) as [Hclean|Hdirty].
      * split; [reflexivity|]. split; [congruence|].
        eexists. split; [reflexivity|]. cbn [fileName lodashGet_size sourceOfFile].
        rewrite <- Hclean. repeat split.
      * split; [congruence|]. split; [reflexivity|].
        eexists. split; [reflexivity|]. repeat split.
    + intros name size uri ext ->. cbn [fileOfRecord sourceOfFile uriSource].
      split; [reflexivity|]. split; [intros u ->; reflexivity | intros ->; reflexivity].
  - intros Hnull. apply entryAvailable_false in Hnull.
    apply (validate_null_entry _ _ Hnull).
Qed.

(** Without a file object behind an entry that is not a directory the
    call returns at once: no dialog, no state change. *)
Lemma missing_file_object_is_ignored σ d :
  entryAvailable d = true →
  isDirectoryEntry d = false →
  fileObjectOf d = None →
  validateAndDisplayFileToUpload d σ = Returned tt σ [].
Proof.
  intros Havail Hdir Hf.
  rewrite (validate_after_directory_check _ _ Havail Hdir), Hf. reflexivity.
Qed.

(** C9.  A payload for which [webkitGetAsEntry()] returns [null] is not a
    directory; when its [getAsFile()] gives no file object either, the
    call does not return: the directory check reads [isDirectory] of
    [null] and a [TypeError] escapes, before the guard on the missing file
    object is reached.  The state is left as it was. *)
Theorem missing_file_object_with_null_entry_raises σ d :
  webkitGetAsEntry d = Some None →
  fileObjectOf d = None →
  isDirectoryEntry d = false
  ∧ validateAndDisplayFileToUpload d σ
    = Thrown (TypeError "webkitGetAsEntry().isDirectory") σ []
  ∧ returns (validateAndDisplayFileToUpload d σ) = false.
Proof.
  intros Hnull _. unfold isDirectoryEntry.
  rewrite (validate_null_entry _ _ Hnull), Hnull. repeat split.
Qed.

(** C10.  Both size comparisons are strict: a file of exactly the maximum
    size and a file of exactly the minimum size pass [isValidFile]; a
    file object without a [size] property counts as 0 bytes and is
    rejected as too small. *)
Theorem size_limits_are_inclusive σ :
  0 < MIN_SIZE →
  MIN_SIZE ≤ MAX_SIZE →
  (∀ f, lodashGet_size f = MAX_SIZE → isValidFile f σ = Returned true σ [])
  ∧ (∀ f, lodashGet_size f = MIN_SIZE → isValidFile f σ = Returned true σ [])
  ∧ (∀ name uri ext,
       lodashGet_size (PlainObject name None uri ext) = 0
       ∧ isValidFile (PlainObject name None uri ext) σ
         = Returned false (invalidated "attachmentPicker.attachmentTooSmall"
                                       "attachmentPicker.sizeNotMet" σ) []).
Proof.
  intros Hpos Hconf. repeat split.
  - intros f Hf. apply isValidFile_within_bounds. lia.
  - intros f Hf. apply isValidFile_within_bounds. lia.
  - apply isValidFile_too_small; cbn; lia.
Qed.
End ValidationClaims.

(** ** Handlers that stay clear of the modal hooks *)

Lemma count_app {A} (p : A → bool) (l1 l2 : list A) :
  count p (l1 ++ l2) = (count p l1 + count p l2)%nat.
Proof. unfold count. rewrite List.filter_app, length_app. reflexivity. Qed.

Lemma offHook_ret {A} (a : A) : offHook (mret a).
Proof. intros σ. cbn. auto. Qed.

Lemma offHook_bind {A B} (m : Handler A) (k : A → Handler B) :
  offHook m → (∀ a, offHook (k a)) → offHook (m ≫= k).
Proof.
  intros Hm Hk σ. cbv [mbind handler_mbind handler_bind].
  destruct (Hm σ) as (Hflag & Hnav & Href).
  destruct (m σ) as [a σ1 l1|e σ1 l1]; cbn [finalState effects] in *; [|auto].
  destruct (Hk a σ1) as (Hflag' & Hnav' & Href').
  destruct (k a σ1) as [b σ2 l2|e σ2 l2]; cbn [finalState effects] in *;
    rewrite count_app, Hnav, Hnav'; (split; [congruence|auto]).
Qed.

Lemma offHook_get : offHook get.
Proof. intros σ. cbn. auto. Qed.

Lemma offHook_throw {A} (e : JsError) : offHook (throw (A:=A) e).
Proof. intros σ. cbn. auto. Qed.

Lemma offHook_emit (e : Effect) : isNavigation e = false → offHook (emit e).
Proof. intros He σ. cbn. unfold count. cbn. rewrite He. auto. Qed.

Lemma offHook_modify (f : State → State) :
  (∀ σ, shouldLoadAttachment (f σ) = shouldLoadAttachment σ) →
  (∀ σ, is_Some (onModalHideCallbackRef σ) → is_Some (onModalHideCallbackRef (f σ))) →
  offHook (modify f).
Proof. intros Hflag Href σ. cbn. auto. Qed.

Create HintDb offhook.

#[local] Hint Resolve offHook_ret offHook_get offHook_throw : offhook.
#[local] Hint Extern 1 (offHook (emit _)) =>
  apply offHook_emit; reflexivity : offhook.
#[local] Hint Extern 1 (offHook (_ ≫= _)) =>
  apply offHook_bind; [|intros ?] : offhook.
#[local] Hint Extern 2 (offHook (modify _)) =>
  apply offHook_modify; [reflexivity | intros ? ?; cbn; eauto] : offhook.
#[local] Hint Extern 3 (offHook (match ?x with _ => _ end)) =>
  destruct x : offhook.

Ltac off_hook :=
  cbv [setOnModalHideCallbackRef setIsModalOpen
       setIsAttachmentInvalid setIsDeleteReceiptConfirmModalVisible
       setIsAuthTokenRequired setIsAttachmentReceipt
       setAttachmentInvalidReasonTitle setAttachmentInvalidReason
       setSource setModalType setIsConfirmButtonDisabled
       setShouldShowDownloadButton setFile];
  auto 30 with offhook.

Section Frame.
Context `{Collaborators}.
Variable props : Props.

Lemma offHook_validate d : offHook (validateAndDisplayFileToUpload d).
Proof.
  unfold validateAndDisplayFileToUpload, isDirectoryCheck, isValidFile.
  off_hook.
Qed.

Lemma offHook_submitAndClose : offHook (submitAndClose props).
Proof. unfold submitAndClose. off_hook. Qed.

Lemma offHook_downloadAttachment : offHook downloadAttachment.
Proof. unfold downloadAttachment. off_hook. Qed.

Lemma offHook_onNavigate a : offHook (onNavigate a).
Proof. unfold onNavigate. off_hook. Qed.

Lemma offHook_openModal : offHook openModal.
Proof. unfold openModal. off_hook. Qed.

Lemma offHook_closeModal : offHook closeModal.
Proof. unfold closeModal. off_hook. Qed.

Lemma offHook_updateConfirmButtonVisibility b : offHook (updateConfirmButtonVisibility b).
Proof. unfold updateConfirmButtonVisibility. off_hook. Qed.

Lemma offHook_setDownloadButtonVisibility b : offHook (setDownloadButtonVisibility b).
Proof. unfold setDownloadButtonVisibility. off_hook. Qed.

Lemma offHook_deleteAndCloseModal : offHook (deleteAndCloseModal props).
Proof. unfold deleteAndCloseModal. off_hook. Qed.

Lemma offHook_closeConfirmModal : offHook closeConfirmModal.
Proof. unfold closeConfirmModal. off_hook. Qed.

Lemma offHook_menu σ items item ρ :
  threeDotsMenuItems props σ = Ok items → item ∈ items →
  offHook (selectedFrom ρ item).
Proof.
  unfold threeDotsMenuItems. intros Hitems Hitem.
  assert (item ∈ [replaceItem props; downloadItem; deleteItem]) as Hin.
  { repeat case_match; simplify_eq; cbn in Hitem;
    rewrite ?elem_of_cons, ?elem_of_nil in *; tauto. }
  clear Hitems Hitem.
  rewrite !elem_of_cons, elem_of_nil in Hin.
  destruct Hin as [->|[->|[->|[]]]];
    cbn [selectedFrom icon onSelected replaceItem downloadItem deleteItem].
  - unfold closeModal. off_hook.
  - intros σ0. destruct (offHook_downloadAttachment ρ) as (_ & Hnav & _).
    destruct (downloadAttachment ρ); cbn [finalState effects] in *; auto.
  - off_hook.
Qed.
End Frame.

(** ** One event at a time *)

Section Steps.
Context `{Collaborators}.
Variable props : Props.
Implicit Types (c : Mounted) (ev : Event) (log : list Effect).

Lemma hook_or_not ev :
  ev = EvModalShow ∨ ev = EvModalHide ∨ (ev ≠ EvModalShow ∧ ev ≠ EvModalHide).
Proof. destruct ev; auto; right; right; split; discriminate. Qed.

Lemma after_offHook c shown h c' log :
  offHook h →
  after c shown h = Some (c', log) →
  surfaceShown c' = shown
  ∧ shouldLoadAttachment (state c') = shouldLoadAttachment (state c)
  ∧ count isNavigation log = 0%nat
  ∧ (is_Some (onModalHideCallbackRef (state c)) →
     is_Some (onModalHideCallbackRef (state c'))).
Proof.
  intros Hh [= <- <-]. destruct (Hh (state c)) as (Hflag & Hnav & Href).
  cbn [state surfaceShown]. auto.
Qed.

(** Every event but the two hooks keeps the surface, the loading flag and
    a queued action, and navigates nowhere. *)
Lemma step_offHook c ev c' log :
  step props c ev = Some (c', log) →
  ev ≠ EvModalShow →
  ev ≠ EvModalHide →
  surfaceShown c' = surfaceShown c
  ∧ shouldLoadAttachment (state c') = shouldLoadAttachment (state c)
  ∧ count isNavigation log = 0%nat
  ∧ (is_Some (onModalHideCallbackRef (state c)) →
     is_Some (onModalHideCallbackRef (state c'))).
Proof.
  intros Hstep Hshow Hhide. destruct ev; try congruence; cbn [step] in Hstep.
  - eapply after_offHook, Hstep. apply offHook_openModal.
  - eapply after_offHook, Hstep. apply offHook_validate.
  - eapply after_offHook, Hstep. apply offHook_closeModal.
  - eapply after_offHook, Hstep. apply offHook_submitAndClose.
  - eapply after_offHook, Hstep. apply offHook_onNavigate.
  - eapply after_offHook, Hstep. apply offHook_updateConfirmButtonVisibility.
  - eapply after_offHook, Hstep. apply offHook_setDownloadButtonVisibility.
  - eapply after_offHook, Hstep. apply offHook_downloadAttachment.
  - destruct (isAttachmentReceipt (state c) && isModalOpen (state c)); [|discriminate].
    destruct (threeDotsMenuItems props (state c)) as [items|e] eqn:Hitems; [|discriminate].
    destruct (items !! index) as [item|] eqn:Hitem; [|discriminate].
    cbn in Hstep. eapply after_offHook, Hstep.
    eapply offHook_menu; [exact Hitems|]. eapply list_elem_of_lookup_2, Hitem.
  - destruct (isAttachmentReceipt (state c)
              && isDeleteReceiptConfirmModalVisible (state c)); [|discriminate].
    eapply after_offHook, Hstep. apply offHook_deleteAndCloseModal.
  - eapply after_offHook, Hstep. apply offHook_closeConfirmModal.
Qed.

(** The show hook: fires on an open modal whose surface is not shown,
    calls the caller's hook and raises the loading flag. *)
Lemma step_modalShow c c' log :
  step props c EvModalShow = Some (c', log) →
  isModalOpen (state c) = true
  ∧ surfaceShown c = false
  ∧ surfaceShown c' = true
  ∧ shouldLoadAttachment (state c') = true
  ∧ onModalHideCallbackRef (state c') = onModalHideCallbackRef (state c)
  ∧ log = [Props_onModalShow].
Proof.
  cbn [step]. destruct (isModalOpen (state c)), (surfaceShown c);
    cbn [negb andb]; try discriminate.
  intros [= <- <-]. repeat split.
Qed.

(** The hide hook: fires on a closed modal whose surface is shown, calls
    the caller's hook, then the queued action if there is one, lowers the
    loading flag and leaves the queue as it is. *)
Lemma step_modalHide c c' log :
  step props c EvModalHide = Some (c', log) →
  isModalOpen (state c) = false
  ∧ surfaceShown c = true
  ∧ surfaceShown c' = false
  ∧ shouldLoadAttachment (state c') = false
  ∧ onModalHideCallbackRef (state c') = onModalHideCallbackRef (state c)
  ∧ log = Props_onModalHide ::
          match onModalHideCallbackRef (state c) with
          | Some (NavigateTo route) => [Navigation_navigate route]
          | None => []
          end.
Proof.
  cbn [step]. destruct (isModalOpen (state c)), (surfaceShown c);
    cbn [negb andb]; try discriminate.
  unfold after, onModalHide. run_handler.
  destruct (onModalHideCallbackRef (state c)) as [[route]|] eqn:Href;
    intros [= <- <-]; cbn [state surfaceShown shouldLoadAttachment
                           onModalHideCallbackRef app];
    rewrite ?Href; repeat split.
Qed.



(** With an action queued, a run navigates once for each hide hook in it
    and the action is still queued at the end. *)
Lemma run_navigation_count evs : ∀ c c' log,
  is_Some (onModalHideCallbackRef (state c)) →
  run props c evs = Some (c', log) →
  count isNavigation log = count isHide evs
  ∧ is_Some (onModalHideCallbackRef (state c')).
Proof.
  induction evs as [|ev evs IH]; intros c c' log Href Hrun.
  - injection Hrun as <- <-. auto.
  - cbn [run] in Hrun.
    destruct (step props c ev) as [[c1 log1]|] eqn:Hstep; [|discriminate].
    cbn in Hrun.
    destruct (run props c1 evs) as [[c2 log2]|] eqn:Hrest; [|discriminate].
    injection Hrun as <- <-.
    assert (count isNavigation log1 = count isHide [ev]
            ∧ is_Some (onModalHideCallbackRef (state c1))) as [Hnav Href1].
    { destruct (hook_or_not ev) as [->|[->|[Hshow Hhide]]].
      - apply step_modalShow in Hstep as (_ & _ & _ & _ & Hkeep & ->).
        rewrite Hkeep. auto.
      - apply step_modalHide in Hstep as (_ & _ & _ & _ & Hkeep & ->).
        rewrite Hkeep. split; [|exact Href].
        destruct Href as [[route] ->]. reflexivity.
      - destruct (step_offHook _ _ _ _ Hstep Hshow Hhide) as (_ & _ & Hnav & Hkeep).
        split; [|auto]. rewrite Hnav. destruct ev; congruence || reflexivity. }
    destruct (IH _ _ _ Href1 Hrest) as [Hnav2 Href2].
    split; [|exact Href2].
    rewrite count_app, Hnav, Hnav2. change (ev :: evs) with ([ev] ++ evs).
    rewrite count_app. reflexivity.
Qed.

Lemma run_reachable evs : ∀ c c' log,
  reachable props c → run props c evs = Some (c', log) → reachable props c'.
Proof.
  induction evs as [|ev evs IH]; intros c c' log Hreach Hrun.
  - injection Hrun as <- <-. exact Hreach.
  - cbn [run] in Hrun.
    destruct (step props c ev) as [[c1 log1]|] eqn:Hstep; [|discriminate].
    cbn in Hrun.
    destruct (run props c1 evs) as [[c2 log2]|] eqn:Hrest; [|discriminate].
    injection Hrun as <- <-.
    eapply IH; [|exact Hrest]. eapply reachable_step; eassumption.
Qed.

End Steps.

Section LifecycleClaims.
Context `{Collaborators}.
Variable props : Props.
Implicit Types (σ : State) (c : Mounted).


(** C2, as the code has it.  On a receipt whose parent report is settled
    and whose originating action is found, the menu has no Replace item
    and has the Download item; the Delete receipt item is there exactly
    when the transaction has a receipt that is not being scanned. *)
Theorem settled_receipt_menu σ parent actions action :
  isAttachmentReceipt σ = true →
  parentReport props = Some parent →
  parentReportActions props = Some actions →
  parentReportActionOf props actions = Some action →
  isSettled (reportID parent) = true →
  ∃ items, threeDotsMenuItems props σ = Ok items
           ∧ (replaceItem props ∉ items)
           ∧ downloadItem ∈ items
           ∧ (deleteItem ∈ items ↔
              hasReceipt (transaction props) = true
              ∧ isReceiptBeingScanned (transaction props) = false).
Proof.
  intros Hreceipt Hparent Hactions Haction Hsettled.
  unfold threeDotsMenuItems, isRequestorOf.
  rewrite Hreceipt, Hparent, Hactions, Haction, Hsettled.
  assert (replaceItem props ≠ downloadItem) as Hrd
    by (intros Heq; apply (f_equal icon) in Heq; discriminate).
  assert (replaceItem props ≠ deleteItem) as Hrt
    by (intros Heq; apply (f_equal icon) in Heq; discriminate).
  assert (deleteItem ≠ downloadItem) as Htd
    by (intros Heq; apply (f_equal icon) in Heq; discriminate).
  destruct (isMoneyRequestReport parent); cbn [negb andb app];
    (eexists; split; [reflexivity|]);
    destruct (hasReceipt (transaction props)),
             (isReceiptBeingScanned (transaction props)); cbn [negb andb];
    rewrite ?not_elem_of_cons, ?elem_of_cons, ?elem_of_nil;
    intuition congruence.
Qed.

(** C1, as the code has it.  Selecting Replace queues the navigation and
    closes the modal without navigating.  With an action queued, the hide
    handler calls the caller's hide hook and then the action, once, and
    lowers the loading flag; it leaves the action queued, so that in any
    run there are as many navigations as hide hooks and the action is
    still queued at the end. *)
Theorem queued_action_runs_after_every_hide c route :
  onModalHideCallbackRef (state c) = Some (NavigateTo route) →
  (∀ σ, ∃ σ', onSelected (replaceItem props) σ = Returned tt σ' []
              ∧ onModalHideCallbackRef σ'
                = Some (NavigateTo (EDIT_REQUEST (reportID (report props))
                                                 EDIT_REQUEST_FIELD_RECEIPT))
              ∧ isModalOpen σ' = false)
  ∧ (∀ c' log, step props c EvModalHide = Some (c', log) →
               log = [Props_onModalHide; Navigation_navigate route]
               ∧ onModalHideCallbackRef (state c') = Some (NavigateTo route)
               ∧ shouldLoadAttachment (state c') = false)
  ∧ (∀ evs c' log, run props c evs = Some (c', log) →
                   count isNavigation log = count isHide evs
                   ∧ is_Some (onModalHideCallbackRef (state c'))).
Proof.
  intros Href. split; [|split].
  - intros σ. eexists. split; [reflexivity|]. split; reflexivity.
  - intros c' log Hstep.
    apply step_modalHide in Hstep as (_ & _ & _ & Hflag & Hkeep & ->).
    rewrite Hkeep, Href. auto.
  - intros evs c' log Hrun. eapply run_navigation_count; [|exact Hrun].
    rewrite Href. eexists. reflexivity.
Qed.

End LifecycleClaims.

(** * The properties on the sample configuration *)

#[local] Existing Instance Sample.collaborators.

(** Witness for C3: a dropped folder and a dropped file, both holding the
    oversized file; the folder is refused as a folder, the file as too
    large.  The same file in an item without an entry: the call raises. *)
Lemma rules_in_order_unless_entry_is_null_witness :
  isDirectoryEntry (Sample.droppedFolder Sample.oversized) = true
  ∧ verdictObserved FolderNotAllowed Sample.idle
      (validateAndDisplayFileToUpload (Sample.droppedFolder Sample.oversized) Sample.idle)
  ∧ verdictObserved SizeExceeded Sample.idle
      (validateAndDisplayFileToUpload (Sample.droppedFile Sample.oversized) Sample.idle)
  ∧ validateAndDisplayFileToUpload (Sample.entrylessFile Sample.oversized) Sample.idle
    = Thrown (TypeError "webkitGetAsEntry().isDirectory") Sample.idle []
  ∧ ¬ verdictObserved SizeExceeded Sample.idle
        (validateAndDisplayFileToUpload (Sample.entrylessFile Sample.oversized)
           Sample.idle).
Proof.
  destruct (rules_in_order_unless_entry_is_null Sample.idle
              (Sample.droppedFolder Sample.oversized)) as [Hfolder _].
  destruct (rules_in_order_unless_entry_is_null Sample.idle
              (Sample.droppedFile Sample.oversized)) as [_ Hfile].
  destruct (rules_in_order_unless_entry_is_null Sample.idle
              (Sample.entrylessFile Sample.oversized)) as [_ Hnull].
  destruct (Hfile Sample.oversized (or_introl eq_refl)) as [Hverdict _].
  destruct (Hnull Sample.oversized (or_introl eq_refl)) as [_ Hraise].
  destruct (Hraise eq_refl) as (_ & Hthrown & Hnone).
  split; [reflexivity|]. split; [apply Hfolder; reflexivity|].
  split; [apply Hverdict; reflexivity|].
  split; [exact Hthrown | exact Hnone].
Defined.

(** Witness for C4: a file of [MAX_SIZE + 1] bytes, picked while the PDF
    is previewed; and the same file in an item without an entry. *)
Lemma oversized_file_rejected_unless_entry_is_null_witness :
  lodashGet_size Sample.oversized = MAX_SIZE + 1
  ∧ attachmentInvalidReason
      (finalState (validateAndDisplayFileToUpload (Sample.picked Sample.oversized)
                     Sample.previewing))
    = Some "attachmentPicker.sizeExceeded"
  ∧ file (finalState (validateAndDisplayFileToUpload (Sample.picked Sample.oversized)
                        Sample.previewing))
    = file Sample.previewing
  ∧ validateAndDisplayFileToUpload (Sample.entrylessFile Sample.oversized)
      Sample.previewing
    = Thrown (TypeError "webkitGetAsEntry().isDirectory") Sample.previewing []
  ∧ isAttachmentInvalid
      (finalState (validateAndDisplayFileToUpload (Sample.entrylessFile Sample.oversized)
                     Sample.previewing))
    = false.
Proof.
  split; [reflexivity|].
  destruct (oversized_file_rejected_unless_entry_is_null Sample.previewing
              (Sample.picked Sample.oversized) Sample.oversized)
    as [Hpicked _]; [reflexivity | right; split; reflexivity | cbn; lia |].
  destruct (Hpicked eq_refl) as (_ & _ & _ & Hreason & _ & Hfile & _).
  destruct (oversized_file_rejected_unless_entry_is_null Sample.previewing
              (Sample.entrylessFile Sample.oversized) Sample.oversized)
    as [_ Hnull]; [reflexivity | left; reflexivity | cbn; lia |].
  destruct (Hnull eq_refl) as (Hthrown & Hdialog & _).
  split; [exact Hreason|]. split; [exact Hfile|].
  split; [exact Hthrown | exact Hdialog].
Defined.

(** Witness for C5: the empty file named test.png, dropped while the PDF
    is previewed; and the same file in an item without an entry. *)
Lemma undersized_file_rejected_unless_entry_is_null_witness :
  MIN_SIZE ≤ MAX_SIZE
  ∧ lodashGet_size Sample.emptyFile = 0
  ∧ attachmentInvalidReason
      (finalState (validateAndDisplayFileToUpload (Sample.droppedFile Sample.emptyFile)
                     Sample.previewing))
    = Some "attachmentPicker.sizeNotMet"
  ∧ source (finalState (validateAndDisplayFileToUpload
                          (Sample.droppedFile Sample.emptyFile) Sample.previewing))
    = source Sample.previewing
  ∧ validateAndDisplayFileToUpload (Sample.entrylessFile Sample.emptyFile)
      Sample.previewing
    = Thrown (TypeError "webkitGetAsEntry().isDirectory") Sample.previewing []
  ∧ attachmentInvalidReason
      (finalState (validateAndDisplayFileToUpload (Sample.entrylessFile Sample.emptyFile)
                     Sample.previewing))
    = None.
Proof.
  assert (MIN_SIZE ≤ MAX_SIZE) as Hconf by (cbn; lia).
  split; [exact Hconf|]. split; [reflexivity|].
  destruct (undersized_file_rejected_unless_entry_is_null Sample.previewing
              (Sample.droppedFile Sample.emptyFile) Sample.emptyFile Hconf)
    as [Hdropped _]; [reflexivity | left; reflexivity | cbn; lia |].
  destruct (Hdropped eq_refl) as (_ & _ & _ & Hreason & Hsource & _).
  destruct (undersized_file_rejected_unless_entry_is_null Sample.previewing
              (Sample.entrylessFile Sample.emptyFile) Sample.emptyFile Hconf)
    as [_ Hnull]; [reflexivity | left; reflexivity | cbn; lia |].
  destruct (Hnull eq_refl) as (Hthrown & _ & Hnone).
  split; [exact Hreason|]. split; [exact Hsource|].
  split; [exact Hthrown | exact Hnone].
Defined.

(** Witness for C6: a dropped PDF of 1000 bytes whose name holds a space,
    a photo from the native picker with its [uri], and the PDF in an item
    without an entry. *)
Lemma file_within_bounds_displayed_unless_entry_is_null_witness :
  MIN_SIZE ≤ lodashGet_size Sample.spacedPdf ≤ MAX_SIZE
  ∧ (∃ σ', validateAndDisplayFileToUpload (Sample.droppedFile Sample.spacedPdf)
             Sample.idle
           = Returned tt σ' []
           ∧ isModalOpen σ' = true
           ∧ file σ' = Some (File "my_receipt.pdf" 1000 "application/pdf" None)
           ∧ source σ' = SrcString "blob:my_receipt.pdf")
  ∧ (∃ σ', validateAndDisplayFileToUpload (Sample.picked Sample.nativePhoto) Sample.idle
           = Returned tt σ' []
           ∧ isModalOpen σ' = true
           ∧ file σ' = Some Sample.nativePhoto
           ∧ source σ' = SrcString "file:///photo.jpg")
  ∧ validateAndDisplayFileToUpload (Sample.entrylessFile Sample.spacedPdf) Sample.idle
    = Thrown (TypeError "webkitGetAsEntry().isDirectory") Sample.idle [].
Proof.
  assert (MIN_SIZE ≤ lodashGet_size Sample.spacedPdf ≤ MAX_SIZE) as Hsize
    by (cbn; lia).
  split; [exact Hsize|].
  destruct (file_within_bounds_displayed_unless_entry_is_null Sample.idle
              (Sample.droppedFile Sample.spacedPdf) Sample.spacedPdf)
    as [Hdropped _]; [reflexivity | left; reflexivity | exact Hsize |].
  destruct (Hdropped eq_refl) as (σ1 & Hrun1 & Hopen1 & _ & Hfile1 & _).
  destruct (Hfile1 "my receipt.pdf" 1000 "application/pdf" None eq_refl)
    as (_ & Hcopy & active & Hactive & _ & _ & Hsource1).
  destruct (file_within_bounds_displayed_unless_entry_is_null Sample.idle
              (Sample.picked Sample.nativePhoto) Sample.nativePhoto)
    as [Hpicked _]; [reflexivity | right; split; reflexivity | cbn; lia |].
  destruct (Hpicked eq_refl) as (σ2 & Hrun2 & Hopen2 & _ & _ & Hplain).
  destruct (Hplain (Some "photo.jpg") (Some 5000) (Some "file:///photo.jpg") None eq_refl)
    as (Hfile2 & Hsource2 & _).
  destruct (file_within_bounds_displayed_unless_entry_is_null Sample.idle
              (Sample.entrylessFile Sample.spacedPdf) Sample.spacedPdf)
    as [_ Hnull]; [reflexivity | left; reflexivity | exact Hsize |].
  split; [|split; [|exact (Hnull eq_refl)]].
  - exists σ1. split; [exact Hrun1|]. split; [exact Hopen1|].
    assert (file σ1 = Some (File "my_receipt.pdf" 1000 "application/pdf" None)) as Hf
      by (apply Hcopy; discriminate).
    split; [exact Hf|]. rewrite Hsource1. rewrite Hf in Hactive.
    injection Hactive as <-. reflexivity.
  - exists σ2. split; [exact Hrun2|]. split; [exact Hopen2|].
    split; [exact Hfile2 | exact (Hsource2 _ eq_refl)].
Defined.

(** An entry that is a file, with no file object behind it, is passed
    over in silence. *)
Example empty_entry_is_ignored :
  validateAndDisplayFileToUpload Sample.emptyEntry Sample.previewing
  = Returned tt Sample.previewing [].
Proof. apply missing_file_object_is_ignored; reflexivity. Qed.

(** Witness for C9: a dragged text selection. *)
Lemma missing_file_object_with_null_entry_raises_witness :
  webkitGetAsEntry Sample.draggedText = Some None
  ∧ fileObjectOf Sample.draggedText = None
  ∧ returns (validateAndDisplayFileToUpload Sample.draggedText Sample.idle) = false.
Proof.
  split; [reflexivity|]. split; [reflexivity|].
  destruct (missing_file_object_with_null_entry_raises Sample.idle Sample.draggedText)
    as (_ & _ & Hraises); [reflexivity | reflexivity |].
  exact Hraises.
Defined.

(** Witness for C10: files of exactly 24 MB and exactly 240 bytes, and
    the object [{name: "photo.jpg"}]. *)
Lemma size_limits_are_inclusive_witness :
  0 < MIN_SIZE
  ∧ MIN_SIZE ≤ MAX_SIZE
  ∧ isValidFile Sample.largest Sample.idle = Returned true Sample.idle []
  ∧ isValidFile Sample.smallest Sample.idle = Returned true Sample.idle []
  ∧ isValidFile (PlainObject (Some "photo.jpg") None None None) Sample.idle
    = Returned false (invalidated "attachmentPicker.attachmentTooSmall"
                                  "attachmentPicker.sizeNotMet" Sample.idle) [].
Proof.
  assert (0 < MIN_SIZE) as Hpos by (cbn; lia).
  assert (MIN_SIZE ≤ MAX_SIZE) as Hconf by (cbn; lia).
  destruct (size_limits_are_inclusive Sample.idle Hpos Hconf)
    as (Hmax & Hmin & Hmissing).
  split; [exact Hpos|]. split; [exact Hconf|].
  split; [apply Hmax; reflexivity|]. split; [apply Hmin; reflexivity|].
  destruct (Hmissing (Some "photo.jpg") None None) as [_ Hsmall]. exact Hsmall.
Defined.


(** The menu on the receipt of a settled report whose transaction has a
    receipt that is not being scanned: Download and Delete receipt. *)
Example settled_receipt_menu_entries :
  isSettled (reportID {| Sample.id := "settled"; Sample.parentAction := None;
                         Sample.expense := true; Sample.moneyRequest := true |}) = true
  ∧ threeDotsMenuItems (Sample.receiptProps "settled") (Sample.viewing "settled")
    = Ok [downloadItem; deleteItem].
Proof. split; reflexivity. Qed.

(** Counterexample to C2 as stated: on that receipt the parent is settled,
    and it is not so that Replace and Delete receipt are both absent with
    Download present, for Delete receipt is offered. *)
Lemma settled_receipt_menu_offers_delete :
  ¬ (∀ items,
       threeDotsMenuItems (Sample.receiptProps "settled") (Sample.viewing "settled")
       = Ok items →
       (replaceItem (Sample.receiptProps "settled") ∉ items)
       ∧ (deleteItem ∉ items)
       ∧ downloadItem ∈ items).
Proof.
  intros Hclaim.
  destruct settled_receipt_menu_entries as [_ Hmenu].
  destruct (Hclaim _ Hmenu) as (_ & Hdelete & _).
  apply Hdelete, list_elem_of_further, list_elem_of_here.
Qed.

(** Witness for the amended C2: that receipt. *)
Lemma settled_receipt_menu_witness :
  isAttachmentReceipt (Sample.viewing "settled") = true
  ∧ isSettled (Some "settled") = true
  ∧ ∃ items, threeDotsMenuItems (Sample.receiptProps "settled") (Sample.viewing "settled")
             = Ok items
             ∧ (replaceItem (Sample.receiptProps "settled") ∉ items)
             ∧ downloadItem ∈ items.
Proof.
  split; [reflexivity|]. split; [reflexivity|].
  destruct (settled_receipt_menu (Sample.receiptProps "settled")
              (Sample.viewing "settled")
              {| Sample.id := "settled"; Sample.parentAction := None;
                 Sample.expense := true; Sample.moneyRequest := true |}
              {[ "a1" := {| Sample.actor := 7; Sample.deleted := false |} ]}
              {| Sample.actor := 7; Sample.deleted := false |})
    as (items & Hmenu & Hreplace & Hdownload & _);
    [reflexivity | reflexivity | reflexivity | reflexivity | reflexivity |].
  exists items. repeat split; assumption.
Defined.

(** A receipt preview is opened, Replace is selected once (entry 0 of the
    menu), the hide hook runs; the preview is opened again and closed, and
    the hide hook runs again.  Both hide hooks navigate, and the action is
    still queued at the end. *)
Example replace_then_reopen_and_close :
  ∃ c,
    run (Sample.receiptProps "open") (mount (Sample.receiptProps "open"))
        [EvShow; EvModalShow; EvNavigate Sample.receiptAttachment;
         EvSelectMenuItem 0; EvModalHide;
         EvShow; EvModalShow; EvClose; EvModalHide]
    = Some (c, [Props_onModalShow;
                Props_onCarouselAttachmentChange Sample.receiptAttachment;
                Props_onModalHide; Navigation_navigate Sample.editRoute;
                Props_onModalShow;
                Props_onModalHide; Navigation_navigate Sample.editRoute])
    ∧ onModalHideCallbackRef (state c) = Some (NavigateTo Sample.editRoute).
Proof. eexists. split; [vm_compute; reflexivity|reflexivity]. Qed.

(** Counterexample to C1 as stated: in that run, with one Replace request,
    it is not so that the action ran once and was cleared. *)
Lemma replace_navigates_again_on_later_close :
  ¬ (∀ c log,
       run (Sample.receiptProps "open") (mount (Sample.receiptProps "open"))
           [EvShow; EvModalShow; EvNavigate Sample.receiptAttachment;
            EvSelectMenuItem 0; EvModalHide;
            EvShow; EvModalShow; EvClose; EvModalHide]
       = Some (c, log) →
       count isNavigation log = 1%nat
       ∧ onModalHideCallbackRef (state c) = None).
Proof.
  intros Hclaim.
  destruct replace_then_reopen_and_close as (c & Hrun & Href).
  destruct (Hclaim _ _ Hrun) as [_ Hcleared]. congruence.
Qed.

(** Witness for the amended C1: the preview in which Replace was just
    selected. *)
Lemma queued_action_runs_after_every_hide_witness :
  onModalHideCallbackRef (state Sample.replacing) = Some (NavigateTo Sample.editRoute)
  ∧ ∃ c', step (Sample.receiptProps "open") Sample.replacing EvModalHide
          = Some (c', [Props_onModalHide; Navigation_navigate Sample.editRoute])
          ∧ onModalHideCallbackRef (state c') = Some (NavigateTo Sample.editRoute).
Proof.
  split; [reflexivity|].
  destruct (queued_action_runs_after_every_hide (Sample.receiptProps "open")
              Sample.replacing Sample.editRoute) as (_ & Hhide & _); [reflexivity|].
  destruct (step (Sample.receiptProps "open") Sample.replacing EvModalHide)
    as [[c' log]|] eqn:Hstep; [|discriminate].
  destruct (Hhide c' log eq_refl) as (-> & Href & _).
  exists c'. split; [reflexivity | exact Href].
Defined.



(** * Further properties of the attachment modal *)

(** ** Preservation, handler by handler *)

Lemma preserves_ret {A} (P : State → Prop) (a : A) : preserves P (mret a).
Proof. intros σ HP. exact HP. Qed.

Lemma preserves_bind {A B} (P : State → Prop) (m : Handler A) (k : A → Handler B) :
  preserves P m → (∀ a, preserves P (k a)) → preserves P (m ≫= k).
Proof.
  intros Hm Hk σ HP. cbv [mbind handler_mbind handler_bind].
  specialize (Hm σ HP).
  destruct (m σ) as [a σ1 l1|e σ1 l1]; cbn [finalState] in *; [|exact Hm].
  specialize (Hk a σ1 Hm).
  destruct (k a σ1) as [b σ2 l2|e σ2 l2]; exact Hk.
Qed.

Lemma preserves_get (P : State → Prop) : preserves P get.
Proof. intros σ HP. exact HP. Qed.

Lemma preserves_throw {A} (P : State → Prop) (e : JsError) :
  preserves P (throw (A:=A) e).
Proof. intros σ HP. exact HP. Qed.

Lemma preserves_emit (P : State → Prop) (e : Effect) : preserves P (emit e).
Proof. intros σ HP. exact HP. Qed.

Lemma preserves_modify (P : State → Prop) (f : State → State) :
  (∀ σ, P σ → P (f σ)) → preserves P (modify f).
Proof. intros Hf σ HP. apply Hf, HP. Qed.

Create HintDb handlers.

#[local] Hint Resolve preserves_ret preserves_get preserves_throw preserves_emit
  : handlers.
#[local] Hint Extern 1 (preserves _ (_ ≫= _)) =>
  apply preserves_bind; [|intros ?] : handlers.
#[local] Hint Extern 2 (preserves _ (modify _)) =>
  apply preserves_modify; intros ? ?; cbn in *; solve [eauto] : handlers.
#[local] Hint Extern 3 (preserves _ (match ?x with _ => _ end)) =>
  destruct x : handlers.

Ltac by_handlers :=
  cbv [setOnModalHideCallbackRef setIsModalOpen setShouldLoadAttachment
       setIsAttachmentInvalid setIsDeleteReceiptConfirmModalVisible
       setIsAuthTokenRequired setIsAttachmentReceipt
       setAttachmentInvalidReasonTitle setAttachmentInvalidReason
       setSource setModalType setIsConfirmButtonDisabled
       setShouldShowDownloadButton setFile];
  auto 30 with handlers.

Section ValidationFrame.
Context `{Collaborators}.
Implicit Types (σ : State) (f : FileObject) (d : Payload).

Lemma validate_keeps_bystanders d σ0 :
  preserves (λ σ, bystanders σ = bystanders σ0) (validateAndDisplayFileToUpload d).
Proof.
  unfold validateAndDisplayFileToUpload, isDirectoryCheck, isValidFile.
  by_handlers.
Qed.

(** X1.  Whatever the payload, and whether the call returns or raises,
    [validateAndDisplayFileToUpload] writes none of the cells that are
    not its own: the queued action, the loading flag, the delete dialog,
    the auth-token flag, the receipt flag, the confirm gate and the
    download button are as they were.  A file displayed over a carousel
    receipt keeps the receipt's flags. *)
Theorem validation_keeps_to_its_cells d σ :
  let σ' := finalState (validateAndDisplayFileToUpload d σ) in
  onModalHideCallbackRef σ' = onModalHideCallbackRef σ
  ∧ shouldLoadAttachment σ' = shouldLoadAttachment σ
  ∧ isDeleteReceiptConfirmModalVisible σ' = isDeleteReceiptConfirmModalVisible σ
  ∧ isAuthTokenRequired σ' = isAuthTokenRequired σ
  ∧ isAttachmentReceipt σ' = isAttachmentReceipt σ
  ∧ isConfirmButtonDisabled σ' = isConfirmButtonDisabled σ
  ∧ shouldShowDownloadButton σ' = shouldShowDownloadButton σ.
Proof.
  intros σ'. subst σ'.
  pose proof (validate_keeps_bystanders d σ σ eq_refl) as Hkept.
  unfold bystanders in Hkept. injection Hkept as Href Hload Hdelete Hauth Hreceipt Hgate Hbutton.
  repeat split; assumption.
Qed.
End ValidationFrame.

Section ValidationDialog.
Context `{Collaborators}.
Implicit Types (σ : State) (f : FileObject) (d : Payload).

Lemma payload_cases d :
  webkitGetAsEntry d = Some None
  ∨ isDirectoryEntry d = true
  ∨ (entryAvailable d = true ∧ isDirectoryEntry d = false).
Proof.
  unfold isDirectoryEntry, entryAvailable.
  destruct (webkitGetAsEntry d) as [[[[|]]|]|]; auto.
Qed.

Lemma isValidFile_cases σ f :
  isValidFile f σ = Returned false (invalidated "attachmentPicker.attachmentTooLarge"
                                                "attachmentPicker.sizeExceeded" σ) []
  ∨ isValidFile f σ = Returned false (invalidated "attachmentPicker.attachmentTooSmall"
                                                  "attachmentPicker.sizeNotMet" σ) []
  ∨ isValidFile f σ = Returned true σ [].
Proof.
  destruct (Z.gtb_spec (lodashGet_size f) MAX_SIZE) as [Hgt|Hle].
  { left. apply isValidFile_too_large, Hgt. }
  destruct (Z.ltb_spec (lodashGet_size f) MIN_SIZE) as [Hlt|Hge].
  { right. left. apply isValidFile_too_small; assumption. }
  right. right. apply isValidFile_within_bounds. lia.
Qed.

(** Every way [validateAndDisplayFileToUpload] can end. *)
Lemma validate_cases d σ :
  validateAndDisplayFileToUpload d σ
    = Thrown (TypeError "webkitGetAsEntry().isDirectory") σ []
  ∨ validateAndDisplayFileToUpload d σ = Returned tt σ []
  ∨ (∃ title reason, (title, Some reason) ∈ knownDialogTexts
       ∧ validateAndDisplayFileToUpload d σ = Returned tt (invalidated title reason σ) [])
  ∨ (∃ σ', validateAndDisplayFileToUpload d σ = Returned tt σ' []
           ∧ isModalOpen σ' = true
           ∧ isAttachmentInvalid σ' = isAttachmentInvalid σ
           ∧ dialogText σ' = dialogText σ).
Proof.
  destruct (payload_cases d) as [Hnull|[Hdir|[Havail Hfile]]].
  - left. apply validate_null_entry, Hnull.
  - right. right. left. eexists _, _. split; [|apply validate_directory, Hdir].
    unfold knownDialogTexts. rewrite !elem_of_cons. auto.
  - rewrite (validate_after_directory_check _ _ Havail Hfile).
    destruct (fileObjectOf d) as [f|]; [|auto].
    destruct (isValidFile_cases σ f) as [-> | [-> | ->]].
    + right. right. left. eexists _, _. split; [|reflexivity].
      unfold knownDialogTexts. rewrite !elem_of_cons. auto.
    + right. right. left. eexists _, _. split; [|reflexivity].
      unfold knownDialogTexts. rewrite !elem_of_cons. auto.
    + right. right. right. eexists. split; [reflexivity|]. repeat split.
Qed.

(** X2.  The call never both raises the invalid-file dialog and adopts
    the file: when it turns the dialog on, it has returned without any
    collaborator call, the texts are one of the three known pairs, and
    every other cell is as before; closing the dialog then gives back the
    source, file, modal state and modal type the component had. *)
Theorem dialog_raised_means_rejected d σ :
  isAttachmentInvalid σ = false →
  isAttachmentInvalid (finalState (validateAndDisplayFileToUpload d σ)) = true →
  ∃ title reason,
    (title, Some reason) ∈ knownDialogTexts
    ∧ validateAndDisplayFileToUpload d σ = Returned tt (invalidated title reason σ) []
    ∧ let σ' := finalState (closeConfirmModal (invalidated title reason σ)) in
      isAttachmentInvalid σ' = false
      ∧ source σ' = source σ
      ∧ file σ' = file σ
      ∧ isModalOpen σ' = isModalOpen σ
      ∧ modalType σ' = modalType σ.
Proof.
  intros Hdown Hup.
  destruct (validate_cases d σ) as [Hrun|[Hrun|[(title & reason & Hknown & Hrun)|
                                     (σ' & Hrun & _ & Hsame & _)]]];
    rewrite Hrun in Hup; cbn [finalState] in Hup; try congruence.
  exists title, reason. split; [exact Hknown|]. split; [exact Hrun|]. repeat split.
Qed.

Lemma dialogConsistent_same_text σ σ' :
  dialogText σ' = dialogText σ →
  (isAttachmentInvalid σ' = true → isAttachmentInvalid σ = true) →
  dialogConsistent σ → dialogConsistent σ'.
Proof.
  unfold dialogConsistent. intros Htext Hflag [[Hdown Hinit]|Hknown].
  - left. split; [|congruence].
    destruct (isAttachmentInvalid σ'); [|reflexivity]. rewrite Hflag in Hdown; auto.
  - right. congruence.
Qed.

Lemma validate_dialogConsistent d :
  preserves dialogConsistent (validateAndDisplayFileToUpload d).
Proof.
  intros σ Hσ.
  destruct (validate_cases d σ) as [Hrun|[Hrun|[(title & reason & Hknown & Hrun)|
                                     (σ' & Hrun & _ & Hflag & Htext)]]];
    rewrite Hrun; cbn [finalState]; auto.
  - right. exact Hknown.
  - eapply dialogConsistent_same_text; [exact Htext| |exact Hσ]. congruence.
Qed.
End ValidationDialog.

#[local] Hint Extern 2 (preserves dialogConsistent (modify _)) =>
  apply preserves_modify; intros ? ?;
  match goal with
  | Hc : dialogConsistent ?s |- _ =>
      apply (dialogConsistent_same_text s);
      [reflexivity | cbn; intros; congruence | exact Hc]
  end : handlers.

Section DialogInvariant.
Context `{Collaborators}.
Variable props : Props.
Implicit Types (σ : State) (c : Mounted).

Lemma onSelected_dialogConsistent σ items item ρ :
  threeDotsMenuItems props σ = Ok items → item ∈ items →
  preserves dialogConsistent (selectedFrom ρ item).
Proof.
  unfold threeDotsMenuItems. intros Hitems Hitem.
  assert (item ∈ [replaceItem props; downloadItem; deleteItem]) as Hin.
  { repeat case_match; simplify_eq; cbn in Hitem;
    rewrite ?elem_of_cons, ?elem_of_nil in *; tauto. }
  clear Hitems Hitem.
  rewrite !elem_of_cons, elem_of_nil in Hin.
  destruct Hin as [->|[->|[->|[]]]];
    cbn [selectedFrom icon onSelected replaceItem downloadItem deleteItem].
  - unfold closeModal. by_handlers.
  - intros σ0 Hσ0. destruct (downloadAttachment ρ); exact Hσ0.
  - by_handlers.
Qed.

Lemma step_dialogConsistent c ev c' log :
  step props c ev = Some (c', log) →
  dialogConsistent (state c) → dialogConsistent (state c').
Proof.
  intros Hstep Hc.
  assert (∀ shown h, preserves dialogConsistent h →
                     after c shown h = Some (c', log) →
                     dialogConsistent (state c')) as Hafter.
  { intros shown h Hh [= <- _]. apply Hh, Hc. }
  destruct ev; cbn [step] in Hstep.
  - eapply Hafter, Hstep. unfold openModal. by_handlers.
  - eapply Hafter, Hstep. apply validate_dialogConsistent.
  - eapply Hafter, Hstep. unfold closeModal. by_handlers.
  - eapply Hafter, Hstep. unfold submitAndClose. by_handlers.
  - eapply Hafter, Hstep. unfold onNavigate. by_handlers.
  - eapply Hafter, Hstep. unfold updateConfirmButtonVisibility. by_handlers.
  - eapply Hafter, Hstep. unfold setDownloadButtonVisibility. by_handlers.
  - eapply Hafter, Hstep. unfold downloadAttachment. by_handlers.
  - destruct (isAttachmentReceipt (state c) && isModalOpen (state c)); [|discriminate].
    destruct (threeDotsMenuItems props (state c)) as [items|e] eqn:Hitems; [|discriminate].
    destruct (items !! index) as [item|] eqn:Hitem; [|discriminate].
    cbn in Hstep. eapply Hafter, Hstep.
    eapply onSelected_dialogConsistent; [exact Hitems|].
    eapply list_elem_of_lookup_2, Hitem.
  - destruct (isAttachmentReceipt (state c)
              && isDeleteReceiptConfirmModalVisible (state c)); [|discriminate].
    eapply Hafter, Hstep. unfold deleteAndCloseModal. by_handlers.
  - eapply Hafter, Hstep. unfold closeConfirmModal. by_handlers.
  - destruct (isModalOpen (state c) && negb (surfaceShown c)); [|discriminate].
    eapply Hafter, Hstep. unfold onModalShow. by_handlers.
  - destruct (negb (isModalOpen (state c)) && surfaceShown c); [|discriminate].
    eapply Hafter, Hstep. unfold onModalHide, runCallback. by_handlers.
Qed.

(** X3.  In every reachable state the invalid-file dialog has its texts:
    whenever [isAttachmentInvalid] is up, the title and prompt keys are
    one of the three pairs (folder, too large, too small), so the dialog
    is never shown with an empty title or prompt. *)
Theorem invalid_dialog_always_has_its_texts c :
  reachable props c →
  isAttachmentInvalid (state c) = true →
  dialogText (state c) ∈ knownDialogTexts
  ∧ attachmentInvalidReasonTitle (state c) ≠ ""
  ∧ is_Some (attachmentInvalidReason (state c)).
Proof.
  intros Hreach Hup.
  assert (dialogConsistent (state c)) as Hc.
  { clear Hup. induction Hreach as [|c ev c' log _ IH Hstep].
    - left. split; reflexivity.
    - eapply step_dialogConsistent; eassumption. }
  destruct Hc as [[Hdown _]|Hknown]; [congruence|].
  split; [exact Hknown|].
  unfold dialogText, knownDialogTexts in Hknown.
  rewrite !elem_of_cons, elem_of_nil in Hknown.
  destruct Hknown as [[= -> ->]|[[= -> ->]|[[= -> ->]|[]]]];
    (split; [discriminate | eexists; reflexivity]).
Qed.
End DialogInvariant.

Section ConfirmGate.
Context `{Collaborators}.
Variable props : Props.
Implicit Types (σ : State).

Lemma submitAndClose_cases σ :
  (submitAndClose props σ = Returned tt σ []
   ∧ (isModalOpen σ = false ∨ isConfirmButtonDisabled σ = true))
  ∨ (isModalOpen σ = true
     ∧ isConfirmButtonDisabled σ = false
     ∧ isModalOpen (finalState (submitAndClose props σ)) = false
     ∧ effects (submitAndClose props σ)
       = if onConfirm props
         then [Props_onConfirm (lodashExtend (file σ) (source σ))]
         else []).
Proof.
  unfold submitAndClose. run_handler.
  destruct (isModalOpen σ) eqn:Hopen, (isConfirmButtonDisabled σ) eqn:Hgate;
    cbn [negb orb]; auto.
  right. destruct (onConfirm props); repeat split.
Qed.

(** X4.  A second [submitAndClose] does nothing once the component has
    rendered after the first: the new closure sees the closed modal.
    The closure of a render is [submitAndClose] on that render's cells,
    and it does not see its own update: called twice with no render in
    between on an open modal with the gate up, it passes its guard both
    times, so that a caller's confirm callback is called twice with the
    same argument; the cells end as after one call. *)
Theorem second_submit_is_stopped_by_the_render σ :
  submitAndClose props (finalState (submitAndClose props σ))
  = Returned tt (finalState (submitAndClose props σ)) []
  ∧ submitAndCloseOf props σ σ = submitAndClose props σ
  ∧ (isModalOpen σ = true →
     isConfirmButtonDisabled σ = false →
     let twice := (submitAndCloseOf props σ;; submitAndCloseOf props σ) σ in
     finalState twice = finalState (submitAndClose props σ)
     ∧ effects twice = effects (submitAndClose props σ) ++ effects (submitAndClose props σ)
     ∧ (onConfirm props = true →
        effects twice = [Props_onConfirm (lodashExtend (file σ) (source σ));
                         Props_onConfirm (lodashExtend (file σ) (source σ))])).
Proof.
  split; [|split].
  - destruct (submitAndClose_cases σ) as [[Hrun _]|(_ & _ & Hclosed & _)].
    + rewrite Hrun. cbn [finalState]. exact Hrun.
    + destruct (submitAndClose_cases (finalState (submitAndClose props σ)))
        as [[Hrun _]|(Hopen & _)]; [exact Hrun | congruence].
  - unfold submitAndCloseOf, submitAndClose. run_handler.
    destruct (negb (isModalOpen σ) || isConfirmButtonDisabled σ); [reflexivity|].
    destruct (onConfirm props); reflexivity.
  - intros Hopen Hgate twice. subst twice.
    unfold submitAndCloseOf, submitAndClose. run_handler.
    rewrite Hopen, Hgate. cbn [negb orb].
    destruct (onConfirm props); cbn; repeat split; discriminate.
Qed.

(** X5.  The keyboard gate.  [updateConfirmButtonVisibility true] fades
    the button to 0 in 100 ms and from then on [submitAndClose] does
    nothing, also on an open modal; [updateConfirmButtonVisibility false]
    fades it back to 1 and an open modal can be submitted again. *)
Theorem keyboard_gate_blocks_submit σ :
  effects (updateConfirmButtonVisibility true σ) = [Animated_timing 0 100]
  ∧ submitAndClose props (finalState (updateConfirmButtonVisibility true σ))
    = Returned tt (finalState (updateConfirmButtonVisibility true σ)) []
  ∧ effects (updateConfirmButtonVisibility false σ) = [Animated_timing 1 100]
  ∧ (isModalOpen σ = true →
     isModalOpen (finalState (submitAndClose props
                    (finalState (updateConfirmButtonVisibility false σ)))) = false).
Proof.
  split; [reflexivity|]. split.
  - destruct (submitAndClose_cases (finalState (updateConfirmButtonVisibility true σ)))
      as [[Hrun _]|(_ & Hgate & _)]; [exact Hrun | discriminate Hgate].
  - split; [reflexivity|]. intros Hopen.
    destruct (submitAndClose_cases (finalState (updateConfirmButtonVisibility false σ)))
      as [[_ [Hclosed|Hgate]]|(_ & _ & Hclosed & _)].
    + change (isModalOpen σ = false) in Hclosed. congruence.
    + discriminate Hgate.
    + exact Hclosed.
Qed.

(** X6.  Carousel navigation is authoritative: after [onNavigate] to an
    attachment, on an open modal whose gate is up, [submitAndClose] hands
    the confirm callback the attachment's file extended with the
    attachment's source, whatever file was displayed before. *)
Theorem submit_after_navigation_confirms_the_attachment σ attachment :
  onConfirm props = true →
  isModalOpen σ = true →
  isConfirmButtonDisabled σ = false →
  effects (onNavigate attachment σ) = [Props_onCarouselAttachmentChange attachment]
  ∧ effects (submitAndClose props (finalState (onNavigate attachment σ)))
    = [Props_onConfirm (lodashExtend (Attachment.file attachment)
                                     (Attachment.source attachment))].
Proof.
  intros Hconfirm Hopen Hgate. split; [reflexivity|].
  destruct (submitAndClose_cases (finalState (onNavigate attachment σ)))
    as [[_ [Hclosed|Hdisabled]]|(_ & _ & _ & ->)].
  - change (isModalOpen σ = false) in Hclosed. congruence.
  - change (isConfirmButtonDisabled σ = true) in Hdisabled. congruence.
  - rewrite Hconfirm. reflexivity.
Qed.

(** X7.  [downloadAttachment] never changes the state.  Without a file
    (a component mounted without [originalFileName] that has displayed
    nothing yet) it raises on [file.name] before any download is asked
    for; with a file it asks for one download, of the source with the
    auth token added when [isAuthTokenRequired], under the file's name,
    and then dismisses the keyboard. *)
Theorem download_needs_a_file σ :
  finalState (downloadAttachment σ) = σ
  ∧ (file σ = None → downloadAttachment σ = Thrown (TypeError "file.name") σ [])
  ∧ (originalFileName props = "" →
     downloadAttachment (initialState props)
     = Thrown (TypeError "file.name") (initialState props) [])
  ∧ (∀ f, file σ = Some f →
          downloadAttachment σ
          = Returned tt σ
              [FileDownload (if isAuthTokenRequired σ
                             then addEncryptedAuthTokenToURL (source σ)
                             else source σ) (fileName f);
               Keyboard_dismiss]).
Proof.
  unfold downloadAttachment. run_handler. repeat split.
  - destruct (file σ); reflexivity.
  - intros ->. reflexivity.
  - intros Hname. cbn [file initialState]. rewrite Hname. reflexivity.
  - intros f ->. reflexivity.
Qed.

(** X8.  The delete dialog.  Selecting Delete receipt only raises the
    confirmation dialog.  Cancelling lowers it with no collaborator
    called.  Confirming detaches the receipt of [props.transaction] from
    [props.report], lowers the dialog and dismisses the modal through the
    navigation; the component does not set [isModalOpen] itself. *)
Theorem delete_receipt_dialog_flow σ :
  let σ1 := finalState (onSelected deleteItem σ) in
  onSelected deleteItem σ = Returned tt σ1 []
  ∧ isDeleteReceiptConfirmModalVisible σ1 = true
  ∧ effects (closeConfirmModal σ1) = []
  ∧ isDeleteReceiptConfirmModalVisible (finalState (closeConfirmModal σ1)) = false
  ∧ effects (deleteAndCloseModal props σ1)
    = [IOU_detachReceipt (transaction props ≫= transactionID) (reportID (report props));
       Navigation_dismissModal (reportID (report props))]
  ∧ isDeleteReceiptConfirmModalVisible (finalState (deleteAndCloseModal props σ1)) = false
  ∧ isModalOpen (finalState (deleteAndCloseModal props σ1)) = isModalOpen σ
  ∧ source (finalState (deleteAndCloseModal props σ1)) = source σ
  ∧ file (finalState (deleteAndCloseModal props σ1)) = file σ.
Proof. repeat split. Qed.
End ConfirmGate.

Section NativeFile.
Context `{Collaborators}.
Implicit Types (σ : State) (d : Payload).

(** X9.  A file object that is not a [File] and has no [uri] is accepted
    when its size is within the limits: the modal opens on it with the
    source [undefined] and the swipeable centered layout, even when its
    name is that of a PDF. *)
Theorem file_without_uri_opens_without_source σ d name size ext :
  entryAvailable d = true →
  isDirectoryEntry d = false →
  fileObjectOf d = Some (PlainObject name size None ext) →
  MIN_SIZE ≤ default 0 size ≤ MAX_SIZE →
  let σ' := finalState (validateAndDisplayFileToUpload d σ) in
  isModalOpen σ' = true
  ∧ file σ' = Some (PlainObject name size None ext)
  ∧ source σ' = SrcUndefined
  ∧ modalType σ' = CENTERED.
Proof.
  intros Havail Hdir Hf Hsize σ'. subst σ'.
  rewrite (validate_after_directory_check _ _ Havail Hdir), Hf.
  rewrite isValidFile_within_bounds by exact Hsize. repeat split.
Qed.
End NativeFile.

Section ReceiptMenu.
Context `{Collaborators}.
Variable props : Props.
Implicit Types (σ : State) (c : Mounted).

Lemma menu_with_action σ parent actions action :
  isAttachmentReceipt σ = true →
  parentReport props = Some parent →
  parentReportActions props = Some actions →
  parentReportActionOf props actions = Some action →
  threeDotsMenuItems props σ
  = Ok ((if canEditFor props parent action then [replaceItem props] else [])
        ++ [downloadItem]
        ++ (if hasReceipt (transaction props)
               && negb (isReceiptBeingScanned (transaction props))
            then [deleteItem] else [])).
Proof.
  intros Hreceipt Hparent Hactions Haction.
  unfold threeDotsMenuItems, isRequestorOf, canEditFor.
  rewrite Hreceipt, Hparent, Hactions, Haction.
  destruct (isMoneyRequestReport parent); cbn [andb]; [reflexivity|].
  rewrite !orb_false_r. reflexivity.
Qed.

Lemma menu_items_distinct :
  replaceItem props ≠ downloadItem
  ∧ replaceItem props ≠ deleteItem
  ∧ downloadItem ≠ deleteItem.
Proof.
  repeat split; intros Heq; apply (f_equal icon) in Heq; discriminate.
Qed.

(** X10.  On a receipt with its parent report, parent actions and
    originating action at hand, Replace is offered exactly when the
    parent report is not settled, the action is not deleted, and the
    viewer is an admin of the free policy on an expense report or, on a
    money request report, the account that made the request; a session
    or an action without an account id never makes a requestor.  The menu
    lists Replace, Download, Delete receipt in that order, Download
    always and once. *)
Theorem replace_is_offered_to_editors σ parent actions action :
  isAttachmentReceipt σ = true →
  parentReport props = Some parent →
  parentReportActions props = Some actions →
  parentReportActionOf props actions = Some action →
  ∃ items,
    threeDotsMenuItems props σ = Ok items
    ∧ (replaceItem props ∈ items ↔
       isSettled (reportID parent) = false
       ∧ isDeletedAction (Some action) = false
       ∧ ((isAdminOfFreePolicy [policy props] = true ∧ isExpenseReport parent = true)
          ∨ (isMoneyRequestReport parent = true
             ∧ ∃ account, session props ≫= accountID = Some account
                          ∧ actorAccountID action = Some account)))
    ∧ (∃ before after, items = before ++ downloadItem :: after
                       ∧ before `sublist_of` [replaceItem props]
                       ∧ after `sublist_of` [deleteItem]).
Proof.
  intros Hreceipt Hparent Hactions Haction.
  rewrite (menu_with_action _ _ _ _ Hreceipt Hparent Hactions Haction).
  eexists. split; [reflexivity|].
  destruct menu_items_distinct as (Hrd & Hrt & Hdt).
  split.
  - assert (replaceItem props
              ∈ (if canEditFor props parent action then [replaceItem props] else [])
                ++ [downloadItem]
                ++ (if hasReceipt (transaction props)
                       && negb (isReceiptBeingScanned (transaction props))
                    then [deleteItem] else [])
            ↔ canEditFor props parent action = true) as ->.
    { destruct (canEditFor props parent action),
        (hasReceipt (transaction props)
         && negb (isReceiptBeingScanned (transaction props))); cbn [app];
        rewrite ?elem_of_cons, ?elem_of_nil; intuition congruence. }
    unfold canEditFor, sameAccountID.
    rewrite !andb_true_iff, orb_true_iff, !andb_true_iff, !negb_true_iff.
    destruct (session props ≫= accountID) as [a|], (actorAccountID action) as [b|].
    + rewrite Z.eqb_eq. split.
      * intros [[Hs Hd] [Hadmin|[Hmoney ->]]]; [auto|].
        split; [exact Hs|]. split; [exact Hd|]. right. split; [exact Hmoney|].
        exists b. split; reflexivity.
      * intros (Hs & Hd & [Hadmin|(Hmoney & account & [= ->] & [= ->])]); auto.
    + split.
      * intros [[Hs Hd] [Hadmin|[_ [=]]]]; auto.
      * intros (Hs & Hd & [Hadmin|(_ & account & _ & [=])]); auto.
    + split.
      * intros [[Hs Hd] [Hadmin|[_ [=]]]]; auto.
      * intros (Hs & Hd & [Hadmin|(_ & account & [=] & _)]); auto.
    + split.
      * intros [[Hs Hd] [Hadmin|[_ [=]]]]; auto.
      * intros (Hs & Hd & [Hadmin|(_ & account & [=] & _)]); auto.
  - eexists _, _. split; [reflexivity|].
    split; [destruct (canEditFor props parent action)|
            destruct (hasReceipt (transaction props)
                      && negb (isReceiptBeingScanned (transaction props)))];
      (reflexivity || apply sublist_nil_l).
Qed.

(** X11.  The edges of the menu.  It is empty when the attachment is not
    a receipt, or the parent report or the parent actions are missing.
    Computing it raises exactly when all three are there, the parent is a
    money request report and the originating action is not among the
    parent actions: the read of [actorAccountID] then fails, also when the
    report is settled. *)
Theorem menu_is_empty_or_raises σ :
  ((isAttachmentReceipt σ = false
    ∨ parentReport props = None
    ∨ parentReportActions props = None) →
   threeDotsMenuItems props σ = Ok [])
  ∧ ((∃ e, threeDotsMenuItems props σ = Raised e) ↔
     isAttachmentReceipt σ = true
     ∧ ∃ parent actions,
         parentReport props = Some parent
         ∧ parentReportActions props = Some actions
         ∧ isMoneyRequestReport parent = true
         ∧ parentReportActionOf props actions = None).
Proof.
  unfold threeDotsMenuItems, isRequestorOf. split.
  - intros [-> | [-> | ->]]; [reflexivity| |].
    + destruct (isAttachmentReceipt σ); reflexivity.
    + destruct (isAttachmentReceipt σ), (parentReport props); reflexivity.
  - destruct (isAttachmentReceipt σ), (parentReport props) as [parent|],
      (parentReportActions props) as [actions|];
      try (split; [intros [e [=]] | intros (Hr & p & a & Hp & Ha & _); congruence]).
    destruct (isMoneyRequestReport parent) eqn:Hmoney,
      (parentReportActionOf props actions) as [action|] eqn:Haction.
    + split; [intros [e [=]]|].
      intros (_ & p & a & [= <-] & [= <-] & _ & Hnone). congruence.
    + split; [|eauto]. intros _. split; [reflexivity|]. eauto 10.
    + split; [intros [e [=]]|].
      intros (_ & p & a & [= <-] & [= <-] & Hm & _). congruence.
    + split; [intros [e [=]]|].
      intros (_ & p & a & [= <-] & [= <-] & Hm & _). congruence.
Qed.
End ReceiptMenu.

Section QueuedAction.
Context `{Collaborators}.
Variable props : Props.
Implicit Types (σ : State) (c : Mounted) (ev : Event).

Lemma menu_shape σ items :
  threeDotsMenuItems props σ = Ok items →
  items = []
  ∨ ∃ canEdit canDelete : bool,
      items = (if canEdit then [replaceItem props] else [])
              ++ [downloadItem]
              ++ (if canDelete then [deleteItem] else []).
Proof.
  unfold threeDotsMenuItems.
  destruct (isAttachmentReceipt σ), (parentReport props) as [parent|],
    (parentReportActions props) as [actions|]; try (intros [= <-]; auto).
  destruct (isRequestorOf props parent (parentReportActionOf props actions));
    [|discriminate].
  intros [= <-]. right. eexists _, _. reflexivity.
Qed.

Lemma keeps_ref_after c shown h c' log :
  preserves (λ σ, onModalHideCallbackRef σ = onModalHideCallbackRef (state c)) h →
  after c shown h = Some (c', log) →
  onModalHideCallbackRef (state c') = onModalHideCallbackRef (state c).
Proof. intros Hh [= <- _]. apply Hh. reflexivity. Qed.

(** A step that changes the queued action is the selection of Replace at
    the head of the menu. *)
Lemma step_ref_change c ev c' log :
  step props c ev = Some (c', log) →
  onModalHideCallbackRef (state c') ≠ onModalHideCallbackRef (state c) →
  ev = EvSelectMenuItem 0
  ∧ (∃ rest, threeDotsMenuItems props (state c) = Ok (replaceItem props :: rest))
  ∧ state c' = finalState (onSelected (replaceItem props) (state c))
  ∧ log = [].
Proof.
  intros Hstep Hchange.
  destruct ev; cbn [step] in Hstep;
    try (exfalso; apply Hchange; eapply keeps_ref_after; [|exact Hstep];
         unfold openModal, closeModal, submitAndClose, onNavigate,
           updateConfirmButtonVisibility, setDownloadButtonVisibility,
           downloadAttachment, closeConfirmModal,
           validateAndDisplayFileToUpload, isDirectoryCheck, isValidFile;
         by_handlers).
  - destruct (isAttachmentReceipt (state c) && isModalOpen (state c)); [|discriminate].
    destruct (threeDotsMenuItems props (state c)) as [items|e] eqn:Hitems; [|discriminate].
    destruct (items !! index) as [item|] eqn:Hitem; [|discriminate].
    cbn in Hstep.
    destruct (menu_shape _ _ Hitems) as [->|(canEdit & canDelete & ->)];
      [discriminate Hitem|].
    assert (item = replaceItem props ∧ index = 0%nat ∧ canEdit = true) as (-> & -> & ->).
    { destruct canEdit, canDelete, index as [|[|[|index]]]; cbn in Hitem;
        try discriminate Hitem; injection Hitem as <-; auto;
        exfalso; apply Hchange; (eapply keeps_ref_after; [|exact Hstep]);
        cbn [selectedFrom icon onSelected downloadItem deleteItem];
        solve [ by_handlers
              | intros σ0 Hσ0; destruct (downloadAttachment (menuRender c));
                exact Hσ0 ]. }
    injection Hstep as <- <-. repeat split. eexists. reflexivity.
  - destruct (isAttachmentReceipt (state c)
              && isDeleteReceiptConfirmModalVisible (state c)); [|discriminate].
    exfalso. apply Hchange. eapply keeps_ref_after; [|exact Hstep].
    unfold deleteAndCloseModal. by_handlers.
  - exfalso. apply Hchange.
    change (step props c EvModalShow = Some (c', log)) in Hstep.
    apply (step_modalShow props c c' log Hstep).
  - exfalso. apply Hchange.
    change (step props c EvModalHide = Some (c', log)) in Hstep.
    apply (step_modalHide props c c' log Hstep).
Qed.

(** X12.  The queued action is written in one place only: an event that
    changes [onModalHideCallbackRef] is the selection of entry 0 of a
    menu that starts with Replace, it queues the navigation to the
    receipt field of [props.report], closes the modal and calls no
    collaborator.  No event ever empties the queue. *)
Theorem queue_is_written_by_replace_only c ev c' log :
  step props c ev = Some (c', log) →
  onModalHideCallbackRef (state c') ≠ onModalHideCallbackRef (state c) →
  ev = EvSelectMenuItem 0
  ∧ (∃ rest, threeDotsMenuItems props (state c) = Ok (replaceItem props :: rest))
  ∧ onModalHideCallbackRef (state c')
    = Some (NavigateTo (EDIT_REQUEST (reportID (report props))
                                     EDIT_REQUEST_FIELD_RECEIPT))
  ∧ isModalOpen (state c') = false
  ∧ log = [].
Proof.
  intros Hstep Hchange.
  destruct (step_ref_change _ _ _ _ Hstep Hchange) as (Hev & Hmenu & Hstate & Hlog).
  rewrite Hstate. repeat split; assumption.
Qed.

Lemma settled_menu_has_no_replace σ rest :
  (∀ parent, parentReport props = Some parent → isSettled (reportID parent) = true) →
  threeDotsMenuItems props σ ≠ Ok (replaceItem props :: rest).
Proof.
  intros Hsettled. unfold threeDotsMenuItems.
  destruct (isAttachmentReceipt σ), (parentReport props) as [parent|] eqn:Hparent,
    (parentReportActions props) as [actions|]; try discriminate.
  rewrite (Hsettled parent eq_refl).
  destruct (isRequestorOf props parent (parentReportActionOf props actions));
    [|discriminate].
  cbn [negb andb app]. intros Heq. injection Heq as Hhead _.
  destruct (menu_items_distinct props) as (Hdistinct & _). congruence.
Qed.

Lemma never_queued_run evs : ∀ c c' log,
  (∀ parent, parentReport props = Some parent → isSettled (reportID parent) = true) →
  onModalHideCallbackRef (state c) = None →
  run props c evs = Some (c', log) →
  count isNavigation log = 0%nat ∧ onModalHideCallbackRef (state c') = None.
Proof.
  induction evs as [|ev evs IH]; intros c c' log Hsettled Href Hrun.
  - injection Hrun as <- <-. auto.
  - cbn [run] in Hrun.
    destruct (step props c ev) as [[c1 log1]|] eqn:Hstep; [|discriminate].
    cbn in Hrun.
    destruct (run props c1 evs) as [[c2 log2]|] eqn:Hrest; [|discriminate].
    injection Hrun as <- <-.
    assert (onModalHideCallbackRef (state c1) = None) as Href1.
    { destruct (onModalHideCallbackRef (state c1)) as [cb|] eqn:Hc1; [|reflexivity].
      exfalso.
      destruct (step_ref_change c ev c1 log1 Hstep) as (_ & [rest Hmenu] & _);
        [congruence|].
      exact (settled_menu_has_no_replace _ _ Hsettled Hmenu). }
    assert (count isNavigation log1 = 0%nat) as Hnav1.
    { destruct (hook_or_not ev) as [->|[->|[Hshow Hhide]]].
      - apply step_modalShow in Hstep as (_ & _ & _ & _ & _ & ->). reflexivity.
      - apply step_modalHide in Hstep as (_ & _ & _ & _ & _ & ->).
        rewrite Href. reflexivity.
      - apply (step_offHook props _ _ _ _ Hstep Hshow Hhide). }
    destruct (IH _ _ _ Hsettled Href1 Hrest) as [Hnav2 Href2].
    split; [|exact Href2]. rewrite count_app, Hnav1, Hnav2. reflexivity.
Qed.

(** X13.  When the parent report, if there is one, is settled, no run of
    the mounted component ever navigates: whatever is displayed, selected,
    opened and closed, the queue stays empty and every hide hook only
    calls the caller's hook. *)
Theorem settled_receipt_never_navigates evs c log :
  (∀ parent, parentReport props = Some parent → isSettled (reportID parent) = true) →
  run props (mount props) evs = Some (c, log) →
  count isNavigation log = 0%nat
  ∧ onModalHideCallbackRef (state c) = None.
Proof.
  intros Hsettled Hrun.
  apply (never_queued_run evs (mount props) c log Hsettled eq_refl Hrun).
Qed.
End QueuedAction.

Section MenuDownload.
Context `{Collaborators}.
Variable props : Props.
Implicit Types (σ : State) (c : Mounted).



Lemma menu_reads_the_receipt_flag σ σ' :
  isAttachmentReceipt σ' = isAttachmentReceipt σ →
  threeDotsMenuItems props σ' = threeDotsMenuItems props σ.
Proof. unfold threeDotsMenuItems. intros ->. reflexivity. Qed.

Lemma step_is_after c ev c' log :
  step props c ev = Some (c', log) →
  ∃ shown h, after c shown h = Some (c', log).
Proof.
  destruct ev; cbn [step]; eauto.
  - destruct (isAttachmentReceipt (state c) && isModalOpen (state c)); [|discriminate].
    destruct (threeDotsMenuItems props (state c)) as [items|e]; [|discriminate].
    destruct (items !! index) as [item|]; [|discriminate]. cbn. eauto.
  - destruct (isAttachmentReceipt (state c)
              && isDeleteReceiptConfirmModalVisible (state c)); [eauto | discriminate].
  - destruct (isModalOpen (state c) && negb (surfaceShown c)); [eauto | discriminate].
  - destruct (negb (isModalOpen (state c)) && surfaceShown c); [eauto | discriminate].
Qed.

(** The memoised menu is the menu of the current cells, up to the render
    that the closure of Download belongs to. *)
Lemma reachable_menuRender c :
  reachable props c →
  isAttachmentReceipt (menuRender c) = isAttachmentReceipt (state c)
  ∧ threeDotsMenuItems props (menuRender c) = threeDotsMenuItems props (state c).
Proof.
  intros Hreach.
  assert (isAttachmentReceipt (menuRender c) = isAttachmentReceipt (state c)) as Hflag.
  { induction Hreach as [|c ev c' log _ IH Hstep]; [reflexivity|].
    destruct (step_is_after _ _ _ _ Hstep) as (shown & h & [= <- _]).
    cbn [state menuRender].
    destruct (Bool.eqb_spec (isAttachmentReceipt (finalState (h (state c))))
                (isAttachmentReceipt (state c))); congruence. }
  split; [exact Hflag | apply menu_reads_the_receipt_flag, Hflag].
Qed.

End MenuDownload.

(** * The sign-in page *)

Section SignInForms.
Import SignIn.
Variables (canUseSAML : bool) (platform : Platform).
Implicit Types (a : RenderArguments).

(** Which render options cannot hold together. *)
Lemma render_options_exclusions a :
  let o := getRenderOptions canUseSAML platform a in
  (shouldShowLoginForm o = true →
   shouldShowValidateCodeForm o = false
   ∧ shouldShowEmailDeliveryFailurePage o = false
   ∧ shouldShowUnlinkLoginForm o = false
   ∧ shouldShowChooseSSOOrMagicCode o = false
   ∧ shouldInitiateSAMLLogin o = false)
  ∧ (shouldShowValidateCodeForm o = true →
     shouldShowEmailDeliveryFailurePage o = false
     ∧ shouldShowUnlinkLoginForm o = false
     ∧ shouldShowChooseSSOOrMagicCode o = false
     ∧ shouldInitiateSAMLLogin o = false)
  ∧ (shouldShowEmailDeliveryFailurePage o = true →
     shouldShowUnlinkLoginForm o = false
     ∧ shouldShowChooseSSOOrMagicCode o = false)
  ∧ (shouldShowChooseSSOOrMagicCode o = true →
     shouldInitiateSAMLLogin o = false).
Proof.
  unfold getRenderOptions. cbn [shouldShowLoginForm shouldShowValidateCodeForm
    shouldShowEmailDeliveryFailurePage shouldShowUnlinkLoginForm
    shouldShowChooseSSOOrMagicCode shouldInitiateSAMLLogin].
  destruct (samlAllowed canUseSAML platform),
    a as [[] [] [] [] [] [] [] [] []]; cbn;
    repeat split; intros; reflexivity || discriminate.
Qed.

(** X14.  The forms of the sign-in page exclude each other, with one
    exception.  The login form, the validate code form and the email
    delivery failure page are each shown alone; the SSO choice is never
    shown with any of these three, nor while a SAML login is initiated.
    Only the unlink login form and the SSO choice can be shown together.
    A validate code form is never shown while a SAML login is initiated. *)
Theorem sign_in_forms_exclude_each_other a :
  let o := getRenderOptions canUseSAML platform a in
  (shouldShowLoginForm o = true →
   shouldShowValidateCodeForm o = false
   ∧ shouldShowEmailDeliveryFailurePage o = false
   ∧ shouldShowUnlinkLoginForm o = false
   ∧ shouldShowChooseSSOOrMagicCode o = false
   ∧ shouldInitiateSAMLLogin o = false)
  ∧ (shouldShowValidateCodeForm o = true →
     shouldShowEmailDeliveryFailurePage o = false
     ∧ shouldShowUnlinkLoginForm o = false
     ∧ shouldShowChooseSSOOrMagicCode o = false
     ∧ shouldInitiateSAMLLogin o = false)
  ∧ (shouldShowEmailDeliveryFailurePage o = true →
     shouldShowUnlinkLoginForm o = false
     ∧ shouldShowChooseSSOOrMagicCode o = false)
  ∧ (shouldShowChooseSSOOrMagicCode o = true →
     shouldInitiateSAMLLogin o = false).
Proof. exact (render_options_exclusions a). Qed.
End SignInForms.

Section SignInPageBody.
Import SignIn.
Variables (canUseSAML : bool) (platform : Platform) (LOGIN_FORM : string).
Variable translate : string → option string → string.
Variable formatPhoneNumber : string → string.
Variables (removeSMSDomain : string → string) (isSMSLogin : string → bool).
Implicit Types (a : RenderArguments) (account : Account) (credentials : Credentials).

Abbreviation page := (SignInPage canUseSAML platform LOGIN_FORM translate
                    formatPhoneNumber removeSMSDomain isSMSLogin).

(** Nothing is shown and no SAML login is initiated: in terms of the
    arguments. *)
Lemma nothing_to_show a :
  let o := getRenderOptions canUseSAML platform a in
  negb (shouldShowLoginForm o || shouldShowValidateCodeForm o
        || shouldShowUnlinkLoginForm o || shouldShowEmailDeliveryFailurePage o
        || shouldShowChooseSSOOrMagicCode o || shouldInitiateSAMLLogin o)
  = hasLogin a && negb (hasAccount a) && negb (hasEmailDeliveryFailure a)
    && (isPrimaryLogin a || isAccountValidated a)
    || negb (hasLogin a) && hasValidateCode a
       && (negb (hasAccount a) || hasEmailDeliveryFailure a).
Proof.
  unfold getRenderOptions. cbn [shouldShowLoginForm shouldShowValidateCodeForm
    shouldShowEmailDeliveryFailurePage shouldShowUnlinkLoginForm
    shouldShowChooseSSOOrMagicCode shouldInitiateSAMLLogin].
  destruct (samlAllowed canUseSAML platform),
    a as [[] [] [] [] [] [] [] [] []]; reflexivity.
Qed.

Lemma empty_account account :
  isEmptyAccount account = true →
  account = {| errors := None; validated := None; primaryLogin := None;
               requiresTwoFactorAuth := None;
               accountHasEmailDeliveryFailure := None; isLoading := None;
               loadingForm := None; accountIsSAMLEnabled := None;
               accountIsSAMLRequired := None |}.
Proof.
  destruct account as [[] [] [] [] [] [] [] [] []]; cbn; congruence.
Qed.

(** The effects of a render, read off the render options. *)
Lemma page_effects credentials account inModal small recovery magic :
  let o := getRenderOptions canUseSAML platform
             (renderArguments credentials account magic) in
  (page credentials account inModal small recovery magic).2
  = (if shouldInitiateSAMLLogin o && bool_decide (loadingForm account = Some LOGIN_FORM)
     then [Navigation_navigate_SAML_SIGN_IN] else [])
    ++ (if negb (shouldShowLoginForm o || shouldShowValidateCodeForm o
                 || shouldShowUnlinkLoginForm o
                 || shouldShowEmailDeliveryFailurePage o
                 || shouldShowChooseSSOOrMagicCode o || shouldInitiateSAMLLogin o)
        then [Log_warn "SignInPage in unexpected state!"] else []).
Proof.
  intros o. unfold SignInPage. fold o.
  destruct (shouldShowLoginForm o); [reflexivity|].
  destruct (shouldShowValidateCodeForm o).
  { destruct (truthy (requiresTwoFactorAuth account)); [reflexivity|].
    destruct (truthy (validated account)); reflexivity. }
  destruct (shouldShowUnlinkLoginForm o), (shouldShowEmailDeliveryFailurePage o),
    (shouldShowChooseSSOOrMagicCode o), (shouldInitiateSAMLLogin o); reflexivity.
Qed.

(** X15.  The page logs its unexpected-state warning exactly when there
    is a login but no account data, or there is a validate code without a
    login and the account is empty or has an email delivery failure.  In
    these renders no form is shown and the login form is hidden. *)
Theorem unexpected_state_is_logged credentials account inModal small recovery magic :
  let view := (page credentials account inModal small recovery magic).1 in
  let effects := (page credentials account inModal small recovery magic).2 in
  (Log_warn "SignInPage in unexpected state!" ∈ effects ↔
   (nonEmpty (login credentials) = true ∧ isEmptyAccount account = true)
   ∨ (nonEmpty (login credentials) = false
      ∧ nonEmpty (validateCode credentials) = true
      ∧ (isEmptyAccount account = true
         ∨ truthy (accountHasEmailDeliveryFailure account) = true)))
  ∧ (Log_warn "SignInPage in unexpected state!" ∈ effects →
     loginFormIsVisible view = false
     ∧ rendersValidateCodeForm view = false
     ∧ rendersUnlinkLoginForm view = false
     ∧ rendersChooseSSOOrMagicCode view = false
     ∧ rendersEmailDeliveryFailurePage view = false).
Proof.
  intros view effects. subst view effects. rewrite page_effects.
  set (o := getRenderOptions canUseSAML platform
              (renderArguments credentials account magic)).
  assert (∀ (b c : bool),
            Log_warn "SignInPage in unexpected state!"
              ∈ (if b then [Navigation_navigate_SAML_SIGN_IN] else [])
                ++ (if c then [Log_warn "SignInPage in unexpected state!"] else [])
            ↔ c = true) as Hin.
  { intros [] []; cbn; rewrite ?elem_of_cons, ?elem_of_nil; intuition congruence. }
  rewrite Hin. split.
  - subst o. rewrite nothing_to_show.
    cbn [renderArguments hasLogin hasValidateCode hasAccount isPrimaryLogin
         isAccountValidated hasEmailDeliveryFailure].
    destruct (isEmptyAccount account) eqn:Hempty.
    + rewrite (empty_account _ Hempty). cbn.
      destruct (nonEmpty (login credentials)), (nonEmpty (validateCode credentials));
        cbn; intuition congruence.
    + cbn. destruct (nonEmpty (login credentials)),
        (nonEmpty (validateCode credentials)),
        (truthy (accountHasEmailDeliveryFailure account));
        cbn; intuition congruence.
  - unfold SignInPage. fold o. cbn [fst].
    destruct (shouldShowLoginForm o), (shouldShowValidateCodeForm o),
      (shouldShowUnlinkLoginForm o), (shouldShowEmailDeliveryFailurePage o),
      (shouldShowChooseSSOOrMagicCode o); cbn; try discriminate;
      repeat (destruct (truthy _)); cbn; auto.
Qed.

(** X16.  While rendering, the page navigates to the SAML sign-in
    exactly when SAML is allowed (permission, web or desktop), there is a
    login, the account requires SAML, and the form being loaded is the
    login form.  In these renders neither the login form, the validate
    code form nor the SSO choice is shown, and no warning is logged. *)
Theorem saml_login_is_initiated credentials account inModal small recovery magic :
  let view := (page credentials account inModal small recovery magic).1 in
  let effects := (page credentials account inModal small recovery magic).2 in
  (Navigation_navigate_SAML_SIGN_IN ∈ effects ↔
   samlAllowed canUseSAML platform = true
   ∧ nonEmpty (login credentials) = true
   ∧ accountIsSAMLRequired account = Some true
   ∧ loadingForm account = Some LOGIN_FORM)
  ∧ (Navigation_navigate_SAML_SIGN_IN ∈ effects →
     effects = [Navigation_navigate_SAML_SIGN_IN]
     ∧ loginFormIsVisible view = false
     ∧ rendersValidateCodeForm view = false
     ∧ rendersChooseSSOOrMagicCode view = false).
Proof.
  intros view effects. subst view effects. rewrite page_effects.
  set (o := getRenderOptions canUseSAML platform
              (renderArguments credentials account magic)).
  assert (shouldInitiateSAMLLogin o = true ↔
          samlAllowed canUseSAML platform = true
          ∧ nonEmpty (login credentials) = true
          ∧ accountIsSAMLRequired account = Some true) as Hsaml.
  { subst o. unfold getRenderOptions.
    cbn [shouldInitiateSAMLLogin renderArguments hasAccount hasLogin isSAMLRequired].
    destruct (samlAllowed canUseSAML platform); [|intuition discriminate].
    destruct (nonEmpty (login credentials)); [|rewrite andb_false_r; intuition discriminate].
    destruct (accountIsSAMLRequired account) as [[]|] eqn:Hreq; cbn;
      rewrite ?andb_false_r; try intuition congruence.
    destruct (isEmptyAccount account) eqn:Hempty; [|intuition congruence].
    rewrite (empty_account _ Hempty) in Hreq. discriminate Hreq. }
  assert (shouldInitiateSAMLLogin o = true →
          shouldShowLoginForm o = false
          ∧ shouldShowValidateCodeForm o = false
          ∧ shouldShowChooseSSOOrMagicCode o = false) as Hforms.
  { intros Hinit.
    pose proof (render_options_exclusions canUseSAML platform
                  (renderArguments credentials account magic)) as Hex.
    cbv zeta in Hex. fold o in Hex. destruct Hex as (Hl & Hv & _ & Hc).
    destruct (shouldShowLoginForm o); [destruct Hl as (_ & _ & _ & _ & ?); congruence|].
    destruct (shouldShowValidateCodeForm o); [destruct Hv as (_ & _ & _ & ?); congruence|].
    destruct (shouldShowChooseSSOOrMagicCode o); [specialize (Hc eq_refl); congruence|].
    auto. }
  assert (∀ (b c : bool),
            Navigation_navigate_SAML_SIGN_IN
              ∈ (if b then [Navigation_navigate_SAML_SIGN_IN] else [])
                ++ (if c then [Log_warn "SignInPage in unexpected state!"] else [])
            ↔ b = true) as Hin.
  { intros [] []; cbn; rewrite ?elem_of_cons, ?elem_of_nil; intuition congruence. }
  rewrite Hin, andb_true_iff, bool_decide_eq_true, Hsaml. split; [tauto|].
  intros [(Hallowed & Hlogin & Hreq) Hform].
  assert (shouldInitiateSAMLLogin o = true) as Hinit by (apply Hsaml; auto).
  destruct (Hforms Hinit) as (Hl & Hv & Hc).
  rewrite Hinit, Hl, Hv, Hc, !orb_true_r. cbn [negb andb].
  rewrite bool_decide_eq_true_2 by exact Hform. split; [reflexivity|].
  unfold SignInPage. fold o. rewrite Hl, Hv, Hc. cbn [fst].
  destruct (shouldShowUnlinkLoginForm o || shouldShowEmailDeliveryFailurePage o || false);
    auto.
Qed.
End SignInPageBody.

Section SignInWelcome.
Import SignIn.
Variables (canUseSAML : bool) (platform : Platform) (LOGIN_FORM : string).
Variable translate : string → option string → string.
Variable formatPhoneNumber : string → string.
Variables (removeSMSDomain : string → string) (isSMSLogin : string → bool).

(** X17.  The welcome text is empty unless the login form or the validate
    code form is shown: with the unlink form, the email delivery failure
    page or the SSO choice, and in the unexpected state, the layout gets
    an empty text.  Whenever the layout is told to show the welcome text
    it is also told to show the welcome header. *)
Theorem welcome_text_goes_with_a_form credentials account inModal small recovery magic :
  let view := (SignInPage canUseSAML platform LOGIN_FORM translate formatPhoneNumber
                 removeSMSDomain isSMSLogin
                 credentials account inModal small recovery magic).1 in
  (loginFormIsVisible view = false →
   rendersValidateCodeForm view = false →
   welcomeText view = "")
  ∧ (layoutShouldShowWelcomeText view = true →
     layoutShouldShowWelcomeHeader view = true).
Proof.
  intros view. subst view. unfold SignInPage.
  assert (∀ o, o = getRenderOptions canUseSAML platform
                     (renderArguments credentials account magic) →
               shouldShowWelcomeText o = true → shouldShowWelcomeHeader o = true)
    as Hhead.
  { intros o ->. unfold getRenderOptions.
    cbn [shouldShowWelcomeText shouldShowWelcomeHeader].
    intros ->. reflexivity. }
  remember (getRenderOptions canUseSAML platform
              (renderArguments credentials account magic)) as o eqn:Ho.
  specialize (Hhead o eq_refl). clear Ho.
  split.
  - destruct (shouldShowLoginForm o) eqn:Hl, (shouldShowValidateCodeForm o) eqn:Hv;
      cbn; try (repeat (destruct (truthy _)); cbn; rewrite ?Hl, ?Hv; congruence).
    destruct (shouldShowUnlinkLoginForm o || shouldShowEmailDeliveryFailurePage o
              || shouldShowChooseSSOOrMagicCode o); reflexivity.
  - destruct (shouldShowLoginForm o), (shouldShowValidateCodeForm o);
      cbn; repeat (destruct (truthy _)); cbn;
      try (destruct (shouldShowUnlinkLoginForm o || shouldShowEmailDeliveryFailurePage o
                     || shouldShowChooseSSOOrMagicCode o)); cbn;
      intros Htext; rewrite (Hhead Htext); reflexivity.
Qed.

Lemma hardSpaces_has_no_space (s : string) : hasSpace (hardSpaces s) = false.
Proof.
  induction s as [|c s IH]; [reflexivity|]. cbn [hardSpaces].
  destruct (Ascii.eqb c " ") eqn:Hc; cbn [hasSpace]; rewrite ?Hc, IH; reflexivity.
Qed.

Lemma hardSpaces_without_space (s : string) : hasSpace s = false → hardSpaces s = s.
Proof.
  induction s as [|c s IH]; [reflexivity|]. cbn [hasSpace hardSpaces].
  destruct (Ascii.eqb c " "); [discriminate|]. cbn [orb].
  intros Hs. rewrite (IH Hs). reflexivity.
Qed.

Lemma hardSpaces_app (s t : string) :
  hardSpaces (s +:+ t) = hardSpaces s +:+ hardSpaces t.
Proof.
  induction s as [|c s IH]; [reflexivity|].
  change (String c s +:+ t) with (String c (s +:+ t)). cbn [hardSpaces].
  destruct (Ascii.eqb c " "); rewrite IH; reflexivity.
Qed.

Lemma hardSpaces_join (words : list string) :
  Forall (λ word, hasSpace word = false) words →
  hardSpaces (joinWith " " words) = joinWith noBreakSpace words.
Proof.
  induction 1 as [|word rest Hword Hrest IH]; [reflexivity|].
  destruct rest as [|next rest]; [apply hardSpaces_without_space, Hword|].
  change (joinWith " " (word :: next :: rest))
    with (word +:+ " " +:+ joinWith " " (next :: rest)).
  change (joinWith noBreakSpace (word :: next :: rest))
    with (word +:+ noBreakSpace +:+ joinWith noBreakSpace (next :: rest)).
  rewrite !hardSpaces_app, IH, (hardSpaces_without_space _ Hword). reflexivity.
Qed.

(** Every string is its words joined by single spaces. *)
Lemma words_of_string (s : string) :
  ∃ word rest, Forall (λ w, hasSpace w = false) (word :: rest)
               ∧ s = joinWith " " (word :: rest).
Proof.
  induction s as [|c s (word & rest & Hwords & ->)].
  - exists "", []. split; [repeat constructor | reflexivity].
  - destruct (Ascii.eqb c " ") eqn:Hc.
    + apply Ascii.eqb_eq in Hc as ->.
      exists "", (word :: rest). split; [constructor; [reflexivity | exact Hwords]|].
      reflexivity.
    + exists (String c word), rest. split.
      * inversion Hwords as [|? ? Hword Hrest]; subst.
        constructor; [|exact Hrest]. cbn [hasSpace]. rewrite Hc, Hword. reflexivity.
      * destruct rest; reflexivity.
Qed.

(** X18.  The login shown in the welcome text.  A login that is not an
    SMS login is shown as it is.  The formatted phone number of an SMS
    login is shown word for word with a no-break space in place of every
    space: when the formatted number is the words [words] joined by
    single spaces, the shown login is the same words joined by U+00A0.
    Every formatted number is such a join, the shown login holds no
    plain space, and a number without spaces is shown as formatted. *)
Theorem phone_login_is_shown_without_breaks credentials :
  let userLogin := removeSMSDomain (default "" (login credentials)) in
  let shown := userLoginToDisplay formatPhoneNumber removeSMSDomain isSMSLogin
                 credentials in
  (isSMSLogin userLogin = false → shown = userLogin)
  ∧ (isSMSLogin userLogin = true →
     (∀ words, Forall (λ word, hasSpace word = false) words →
               formatPhoneNumber userLogin = joinWith " " words →
               shown = joinWith noBreakSpace words)
     ∧ (∃ words, Forall (λ word, hasSpace word = false) words
                 ∧ formatPhoneNumber userLogin = joinWith " " words
                 ∧ shown = joinWith noBreakSpace words)
     ∧ hasSpace shown = false
     ∧ (hasSpace (formatPhoneNumber userLogin) = false →
        shown = formatPhoneNumber userLogin)).
Proof.
  intros userLogin shown. subst userLogin shown. unfold userLoginToDisplay.
  split; [intros ->; reflexivity|]. intros ->.
  assert (∀ words, Forall (λ word, hasSpace word = false) words →
                   formatPhoneNumber (removeSMSDomain (default "" (login credentials)))
                   = joinWith " " words →
                   hardSpaces (formatPhoneNumber
                                 (removeSMSDomain (default "" (login credentials))))
                   = joinWith noBreakSpace words) as Hjoin.
  { intros words Hwords ->. apply hardSpaces_join, Hwords. }
  split; [exact Hjoin|]. split; [|split].
  - destruct (words_of_string
                (formatPhoneNumber (removeSMSDomain (default "" (login credentials)))))
      as (word & rest & Hwords & Hs).
    exists (word :: rest). split; [exact Hwords|]. split; [exact Hs|].
    apply Hjoin; assumption.
  - apply hardSpaces_has_no_space.
  - apply hardSpaces_without_space.
Qed.
End SignInWelcome.

(** * The Sage Intacct settings pages *)

Section SageIntacctPages.
Import SageIntacct.
Variable translate : string → string.
Variable policy_id : option string.
Variable expenseTypes : list string.
Variable NON_REIMBURSABLE_CREDIT_CARD_VENDOR : string.

(** X19.  [getDefaultVendorName] shows the value of the first vendor
    whose id is the default vendor, and falls back on the id itself when
    no vendor has that id (an empty list included) or that vendor has no
    value: the name shown is never one of another vendor. *)
Theorem default_vendor_name_is_of_the_first_match defaultVendor vendorList :
  let shown := getDefaultVendorName defaultVendor vendorList in
  ((∀ vendor, vendor ∈ vendorList → id vendor ≠ defaultVendor) → shown = defaultVendor)
  ∧ (∀ before vendor after,
       vendorList = before ++ vendor :: after →
       (∀ earlier, earlier ∈ before → id earlier ≠ defaultVendor) →
       id vendor = defaultVendor →
       shown = default defaultVendor (value vendor))
  ∧ (shown = defaultVendor
     ∨ ∃ vendor, vendor ∈ vendorList
                 ∧ id vendor = defaultVendor ∧ value vendor = Some shown).
Proof.
  intros shown. subst shown. unfold getDefaultVendorName.
  assert (∀ before,
            (∀ earlier, earlier ∈ before → id earlier ≠ defaultVendor) →
            ∀ rest, List.find (λ vendor, String.eqb (id vendor) defaultVendor)
                      (before ++ rest)
                    = List.find (λ vendor, String.eqb (id vendor) defaultVendor) rest)
    as Hskip.
  { induction before as [|u before IH]; intros Hnone rest; [reflexivity|].
    cbn [app List.find].
    destruct (String.eqb_spec (id u) defaultVendor) as [Heq|_].
    - exfalso. apply (Hnone u); [apply list_elem_of_here | exact Heq].
    - apply IH. intros earlier Hin. apply Hnone, list_elem_of_further, Hin. }
  split; [|split].
  - intros Hnone. rewrite <- (app_nil_r vendorList), (Hskip _ Hnone). reflexivity.
  - intros before vendor after -> Hnone Hid. rewrite (Hskip _ Hnone).
    cbn [List.find]. rewrite <- Hid, String.eqb_refl. reflexivity.
  - destruct (List.find _ vendorList) as [vendor|] eqn:Hfind; [|auto].
    apply List.find_some in Hfind as [Hin Hid].
    apply String.eqb_eq in Hid.
    destruct (value vendor) as [v|] eqn:Hvalue; cbn; [|auto].
    right. exists vendor. rewrite list_elem_of_In. auto.
Qed.

(** X20.  The default vendor switch.  Switched off, the vendor is reset
    to [null].  Switched on, the first vendor of the connection becomes
    the default; without vendor data the vendor is [null]; with an empty
    vendor list the handler raises and no update is sent. *)
Theorem default_vendor_switch vendorList enabled :
  let result := defaultVendorOnToggle policy_id NON_REIMBURSABLE_CREDIT_CARD_VENDOR
                  vendorList enabled in
  let update := updateSageIntacctDefaultVendor (default "-1" policy_id)
                  NON_REIMBURSABLE_CREDIT_CARD_VENDOR in
  ((∃ e, result = Raised e) ↔ enabled = true ∧ vendorList = Some [])
  ∧ (enabled = false → result = Ok [update None])
  ∧ (enabled = true → vendorList = None → result = Ok [update None])
  ∧ (∀ first rest, enabled = true → vendorList = Some (first :: rest) →
                   result = Ok [update (Some (id first))]).
Proof.
  intros result update. subst result update. unfold defaultVendorOnToggle, policyID.
  split; [|split; [|split]].
  - destruct enabled, vendorList as [[|first rest]|]; cbn; split;
      try (intros [e He]; discriminate He);
      try (intros [Hen Hlist]; discriminate Hen || discriminate Hlist);
      eauto.
  - intros ->. reflexivity.
  - intros -> ->. reflexivity.
  - intros first rest -> ->. reflexivity.
Qed.

(** X21.  The expense type list.  A row is selected exactly when its
    value is the configured export destination; pressing the selected row
    sends nothing, pressing another row sends one update with that row's
    value to the policy (to ['-1'] without a policy).  With distinct
    expense types at most one row is selected. *)
Theorem expense_type_rows nonReimbursable :
  (∀ row, row ∈ data translate expenseTypes nonReimbursable →
     (isSelected row = true ↔ nonReimbursable = Some (rowValue row))
     ∧ selectNonReimbursableExpense policy_id nonReimbursable row
       = if isSelected row then []
         else [updateSageIntacctNonreimbursableExpensesExportDestination
                 (default "-1" policy_id) (rowValue row)])
  ∧ (NoDup expenseTypes →
     (length (List.filter isSelected (data translate expenseTypes nonReimbursable))
      ≤ 1)%nat).
Proof.
  split.
  - intros row Hrow. unfold data in Hrow.
    apply list_elem_of_fmap in Hrow as (expenseType & -> & _).
    cbn [isSelected rowValue]. unfold selectNonReimbursableExpense.
    cbn [rowValue]. rewrite bool_decide_eq_true. split; [reflexivity|].
    destruct (decide (nonReimbursable = Some expenseType)) as [->|Hne].
    + rewrite !bool_decide_eq_true_2 by reflexivity. reflexivity.
    + rewrite !bool_decide_eq_false_2 by congruence. reflexivity.
  - unfold data. induction 1 as [|expenseType rest Hnotin _ IH]; cbn; [lia|].
    destruct (decide (nonReimbursable = Some expenseType)) as [->|Hne].
    + rewrite bool_decide_eq_true_2 by reflexivity. cbn.
      assert (List.filter isSelected
                ((λ expenseType0,
                    {| rowValue := expenseType0;
                       text := translate
                                 ("workspace.sageIntacct.nonReimbursableExpenses.values."
                                  +:+ expenseType0);
                       keyForList := expenseType0;
                       isSelected := bool_decide (Some expenseType = Some expenseType0) |})
                 <$> rest) = []) as ->; [|cbn; lia].
      clear IH. induction rest as [|t rest IH]; [reflexivity|]. cbn.
      rewrite bool_decide_eq_false_2.
      * apply IH. intros Hin. apply Hnotin, list_elem_of_further, Hin.
      * intros [= ->]. apply Hnotin, list_elem_of_here.
    + rewrite bool_decide_eq_false_2 by exact Hne. exact IH.
Qed.

Lemma find_first_match {A} (p : A → bool) (before : list A) (x : A) (after : list A) :
  (∀ earlier, earlier ∈ before → p earlier = false) →
  p x = true →
  List.find p (before ++ x :: after) = Some x.
Proof.
  intros Hbefore Hx. induction before as [|y before IH]; cbn [app List.find].
  - rewrite Hx. reflexivity.
  - rewrite (Hbefore y) by (apply elem_of_cons; auto).
    apply IH. intros earlier Hin. apply Hbefore, elem_of_cons. auto.
Qed.

Lemma find_no_match {A} (p : A → bool) (l : list A) :
  (∀ x, x ∈ l → p x = false) → List.find p l = None.
Proof.
  intros Hnone. induction l as [|y l IH]; [reflexivity|]. cbn [List.find].
  rewrite (Hnone y) by (apply elem_of_cons; auto).
  apply IH. intros x Hin. apply Hnone, elem_of_cons. auto.
Qed.

(** X22.  The payment account row of the advanced page.  Rendering it
    raises exactly when the policy has no Intacct data or the data has no
    bank account list.  Otherwise the title is decided by the first bank
    account whose id is the reimbursement account id: its name when it
    has a name that is not empty, and the translated not-configured text
    when it has no name or an empty one, as when no account has that id.
    The title is never empty when that text is not. *)
Theorem payment_account_title intacctData reimbursementAccountID :
  let title := paymentAccountTitle translate intacctData reimbursementAccountID in
  let notConfigured := translate "workspace.sageIntacct.notConfigured" in
  ((∃ e, title = Raised e) ↔
   intacctData = None ∨ ∃ d, intacctData = Some d ∧ bankAccounts d = None)
  ∧ (∀ d accounts,
       intacctData = Some d → bankAccounts d = Some accounts →
       ((∀ bankAccount, bankAccount ∈ accounts →
                        Some (bankAccountID bankAccount) ≠ reimbursementAccountID) →
        title = Ok notConfigured)
       ∧ (∀ before bankAccount after,
            accounts = before ++ bankAccount :: after →
            (∀ earlier, earlier ∈ before →
                        Some (bankAccountID earlier) ≠ reimbursementAccountID) →
            Some (bankAccountID bankAccount) = reimbursementAccountID →
            (∀ n, name bankAccount = Some n → n ≠ "" → title = Ok n)
            ∧ (name bankAccount = None ∨ name bankAccount = Some "" →
               title = Ok notConfigured)))
  ∧ (notConfigured ≠ "" → title ≠ Ok "").
Proof.
  intros title notConfigured. subst title notConfigured. unfold paymentAccountTitle.
  split; [|split].
  - destruct intacctData as [d|]; [|split; eauto].
    destruct (bankAccounts d) as [accounts|] eqn:Haccounts; [|split; eauto].
    split.
    + intros [e He]. repeat case_match; discriminate.
    + intros [[=]|(d' & [= <-] & ?)]. congruence.
  - intros d accounts -> ->. split.
    + intros Hnone. rewrite find_no_match; [reflexivity|].
      intros x Hx. apply bool_decide_eq_false_2, Hnone, Hx.
    + intros before bankAccount after -> Hbefore Hid.
      rewrite (find_first_match _ before bankAccount after).
      * destruct bankAccount as [bid [n|]]; cbn [name]; split.
        -- intros n' [= <-] Hn. apply String.eqb_neq in Hn. rewrite Hn. reflexivity.
        -- intros [[=]|[= ->]]. reflexivity.
        -- intros n' [=].
        -- reflexivity.
      * intros earlier Hin. apply bool_decide_eq_false_2, Hbefore, Hin.
      * apply bool_decide_eq_true_2, Hid.
  - intros Hnonempty. repeat case_match; try discriminate; try congruence.
    intros [= ->]. match goal with Hn : String.eqb "" "" = false |- _ => discriminate Hn end.
Qed.
End SageIntacctPages.

(** * The distance request *)

Section DistanceWaypoints.
Import Distance.
Context {Coordinate : Type}.
Variable getWaypointIndex : string → Z.
Variable showCoordinate : Coordinate → string.
Implicit Types (waypoints : gmap string (option (Waypoint Coordinate))).

Lemma waypointKey_inj i j : waypointKey i = waypointKey j → i = j.
Proof.
  unfold waypointKey. intros Heq.
  apply (inj (String.app "waypoint")) in Heq. apply (inj pretty), Heq.
Qed.

Lemma renumber_lookup_other waypoints data : ∀ index acc key,
  (∀ i, (i < length data)%nat → key ≠ waypointKey (index + i)) →
  renumber Coordinate waypoints data index acc !! key = acc !! key.
Proof.
  induction data as [|k data IH]; intros index acc key Hother; [reflexivity|].
  cbn [renumber]. rewrite IH.
  - apply lookup_insert_ne. intros Heq.
    apply (Hother 0%nat); [cbn; lia|]. rewrite Nat.add_0_r. congruence.
  - intros i Hi. rewrite Nat.add_succ_comm. apply Hother. cbn. lia.
Qed.

Lemma renumber_lookup waypoints data : ∀ index acc i k,
  data !! i = Some k →
  renumber Coordinate waypoints data index acc !! waypointKey (index + i)
  = Some (lodashGet_waypoint Coordinate waypoints k).
Proof.
  induction data as [|k0 data IH]; intros index acc i k Hi; [discriminate Hi|].
  cbn [renumber]. destruct i as [|i].
  - injection Hi as ->. rewrite Nat.add_0_r, renumber_lookup_other.
    + apply lookup_insert_eq.
    + intros j _ Heq. apply waypointKey_inj in Heq. lia.
  - rewrite <- Nat.add_succ_comm. apply IH. exact Hi.
Qed.

(** X23.  A drag renumbers the waypoints and loses none.  For a list of
    keys of the waypoints in their new order, the object handed to
    [Transaction.updateWaypoints] holds under [waypoint0], [waypoint1],
    ... the waypoints of these keys, unchanged and in that order, and has
    no other key; it has as many waypoints as the list has keys. *)
Theorem drag_renumbers_the_waypoints waypoints (data : list string) :
  (∀ k, k ∈ data → is_Some (waypoints !! k)) →
  let newWaypoints := onDragEnd Coordinate waypoints data in
  (∀ i k, data !! i = Some k → newWaypoints !! waypointKey i = waypoints !! k)
  ∧ (∀ key, is_Some (newWaypoints !! key) ↔
            ∃ i, (i < length data)%nat ∧ key = waypointKey i)
  ∧ size newWaypoints = length data.
Proof.
  intros Hkeys newWaypoints. subst newWaypoints. unfold onDragEnd.
  assert (∀ i k, data !! i = Some k →
                 renumber Coordinate waypoints data 0 ∅ !! waypointKey i
                 = waypoints !! k) as Hlookup.
  { intros i k Hi. rewrite (renumber_lookup waypoints data 0 ∅ i k Hi).
    destruct (Hkeys k) as [w Hw]; [eapply list_elem_of_lookup_2, Hi|].
    unfold lodashGet_waypoint. rewrite Hw. reflexivity. }
  assert (∀ key, is_Some (renumber Coordinate waypoints data 0 ∅ !! key) ↔
                 ∃ i, (i < length data)%nat ∧ key = waypointKey i) as Hdom.
  { intros key. split.
    - intros Hsome.
      destruct (decide (key ∈ waypointKey <$> seq 0 (length data))) as [Hin|Hout].
      + apply list_elem_of_fmap in Hin as (i & -> & Hi).
        apply elem_of_seq in Hi. exists i. split; [lia | reflexivity].
      + rewrite renumber_lookup_other, lookup_empty in Hsome.
        * destruct Hsome as [? [=]].
        * intros i Hi ->. apply Hout, list_elem_of_fmap. exists i.
          split; [reflexivity|]. apply elem_of_seq. lia.
    - intros (i & Hi & ->).
      destruct (lookup_lt_is_Some_2 data i Hi) as [k Hk].
      rewrite (renumber_lookup waypoints data 0 ∅ i k Hk). eexists. reflexivity. }
  split; [exact Hlookup|]. split; [exact Hdom|].
  rewrite <- size_dom.
  assert (dom (renumber Coordinate waypoints data 0 ∅)
          = list_to_set (waypointKey <$> seq 0 (length data))) as ->.
  { apply set_eq. intros key. rewrite elem_of_dom, Hdom, elem_of_list_to_set,
      list_elem_of_fmap. split.
    - intros (i & Hi & ->). exists i. split; [reflexivity|]. apply elem_of_seq. lia.
    - intros (i & -> & Hi). apply elem_of_seq in Hi. exists i. split; [lia|reflexivity]. }
  rewrite size_list_to_set.
  - rewrite length_fmap, length_seq. reflexivity.
  - apply NoDup_fmap_2; [intros i j; apply waypointKey_inj | apply NoDup_seq].
Qed.

Lemma omap_length_le {A B} (f : A → option B) (l : list A) :
  (length (omap f l) ≤ length l)%nat.
Proof.
  induction l as [|x l IH]; [reflexivity|]. cbn [omap list_omap].
  destruct (f x); cbn [length]; lia.
Qed.

(** X24.  The map markers are the waypoints that have both coordinates:
    each marker sits at the longitude and latitude of such a waypoint,
    each such waypoint has its marker, and a waypoint that is [null] or
    lacks a coordinate has none.  The marker of index 0 is the unfilled
    dot, also when it is the only waypoint; the pin marks the last index
    when that is not 0. *)
Theorem markers_are_the_located_waypoints
    (entries : list (string * option (Waypoint Coordinate))) :
  let markers := waypointMarkers Coordinate getWaypointIndex showCoordinate entries in
  (length markers ≤ length entries)%nat
  ∧ (∀ marker, marker ∈ markers →
       ∃ key waypoint latitude longitude,
         (key, Some waypoint) ∈ entries
         ∧ lat _ waypoint = Some latitude
         ∧ lng _ waypoint = Some longitude
         ∧ coordinate _ marker = (longitude, latitude)
         ∧ (markerComponent _ marker = DotIndicatorUnfilled ↔ getWaypointIndex key = 0)
         ∧ (markerComponent _ marker = Location ↔
            getWaypointIndex key ≠ 0
            ∧ getWaypointIndex key = Z.of_nat (length entries) - 1))
  ∧ (∀ key waypoint latitude longitude,
       (key, Some waypoint) ∈ entries →
       lat _ waypoint = Some latitude →
       lng _ waypoint = Some longitude →
       ∃ marker, marker ∈ markers ∧ coordinate _ marker = (longitude, latitude)).
Proof.
  intros markers. subst markers. unfold waypointMarkers.
  split; [apply omap_length_le|]. split.
  - intros marker Hmarker. apply list_elem_of_omap in Hmarker as ([key w] & Hin & Hto).
    destruct w as [[[la|] [lo|] addr]|]; try discriminate Hto.
    cbn [toMarker] in Hto. injection Hto as <-.
    exists key, {| lat := Some la; lng := Some lo; address := addr |}, la, lo.
    split; [exact Hin|]. cbn [lat lng coordinate markerComponent]. repeat split.
    + destruct (Z.eqb_spec (getWaypointIndex key) 0) as [Hz|Hz]; [auto|].
      destruct (getWaypointIndex key =? Z.of_nat (length entries) - 1); discriminate.
    + intros Hz. rewrite Hz. reflexivity.
    + destruct (Z.eqb_spec (getWaypointIndex key) 0) as [Hz|Hz]; [discriminate|auto].
    + destruct (Z.eqb_spec (getWaypointIndex key) 0) as [Hz|Hz]; [discriminate|].
      destruct (Z.eqb_spec (getWaypointIndex key) (Z.of_nat (length entries) - 1));
        [auto | discriminate].
    + intros [Hz Hlast]. destruct (Z.eqb_spec (getWaypointIndex key) 0); [lia|].
      rewrite Hlast, Z.eqb_refl. reflexivity.
  - intros key [la' lo' addr] la lo Hin Hla Hlo. cbn in Hla, Hlo. subst la' lo'.
    eexists. split.
    + apply list_elem_of_omap. eexists. split; [exact Hin|]. reflexivity.
    + reflexivity.
Qed.
End DistanceWaypoints.

Section DistanceRoute.
Import Distance.

(** X25.  A route is fetched only while online, while no route is being
    loaded and with at least two validated waypoints.  With a route error
    on the transaction it is fetched again only once the validated
    waypoints have changed, and with a route and unchanged waypoints it is
    not fetched.  Whenever a route is fetched, the Next button is disabled
    exactly by a route error. *)
Theorem route_is_fetched_when_it_can_change
    (isOffline hasRoute hasRouteError changed isLoadingRoute : bool) (validated : nat) :
  (fetchesRoute isOffline hasRoute hasRouteError changed isLoadingRoute validated
   = true ↔
   isOffline = false ∧ isLoadingRoute = false ∧ (2 ≤ validated)%nat
   ∧ (changed = true ∨ (hasRoute = false ∧ hasRouteError = false)))
  ∧ (fetchesRoute isOffline hasRoute hasRouteError changed isLoadingRoute validated
     = true →
     (hasRouteError = true → changed = true)
     ∧ (hasRoute = true → changed = true)
     ∧ nextIsDisabled hasRouteError validated = hasRouteError).
Proof.
  unfold fetchesRoute, shouldFetchRoute, nextIsDisabled.
  destruct (Nat.ltb_spec 1 validated) as [Hmany|Hfew],
    (Nat.ltb_spec validated 2) as [Hlt|Hge]; try lia;
    destruct isOffline, hasRoute, hasRouteError, changed, isLoadingRoute; cbn;
    (split; [split; [intros Hf; try discriminate Hf; repeat split; auto; lia
                    |intros (? & ? & ? & [?|[? ?]]); try discriminate; try lia; reflexivity]
            |intros Hf; try discriminate Hf; repeat split; auto; discriminate]).
Qed.
End DistanceRoute.

(** * The further properties on sample data *)

(** Witness for X2: a folder dropped on the idle upload dialog. *)
Lemma dialog_raised_means_rejected_witness :
  isAttachmentInvalid Sample.idle = false
  ∧ isAttachmentInvalid (state Cases.refused) = true
  ∧ ∃ title reason,
      validateAndDisplayFileToUpload (Sample.droppedFolder Sample.oversized) Sample.idle
      = Returned tt (invalidated title reason Sample.idle) [].
Proof.
  split; [reflexivity|]. split; [reflexivity|].
  destruct (dialog_raised_means_rejected (Sample.droppedFolder Sample.oversized)
              Sample.idle) as (title & reason & _ & Hrun & _);
    [reflexivity | reflexivity |].
  exists title, reason. exact Hrun.
Defined.

(** Witness for X3: the upload dialog after the folder was refused. *)
Lemma invalid_dialog_always_has_its_texts_witness :
  reachable Sample.uploadProps Cases.refused
  ∧ isAttachmentInvalid (state Cases.refused) = true
  ∧ attachmentInvalidReasonTitle (state Cases.refused) ≠ "".
Proof.
  assert (reachable Sample.uploadProps Cases.refused) as Hreach.
  { apply (run_reachable Sample.uploadProps
             [EvDisplayFileInModal (Sample.droppedFolder Sample.oversized)]
             (mount Sample.uploadProps) Cases.refused []);
      [apply reachable_mount | reflexivity]. }
  split; [exact Hreach|]. split; [reflexivity|].
  destruct (invalid_dialog_always_has_its_texts Sample.uploadProps Cases.refused
              Hreach eq_refl) as (_ & Htitle & _).
  exact Htitle.
Defined.

(** Witness for X4: the upload dialog open on the PDF; the confirm
    closure of that render, called twice, confirms twice. *)
Lemma second_submit_is_stopped_by_the_render_witness :
  isModalOpen Sample.previewing = true
  ∧ isConfirmButtonDisabled Sample.previewing = false
  ∧ count isConfirm
      (effects ((submitAndCloseOf Sample.uploadProps Sample.previewing;;
                 submitAndCloseOf Sample.uploadProps Sample.previewing)
                  Sample.previewing))
    = 2%nat
  ∧ effects (submitAndClose Sample.uploadProps
               (finalState (submitAndClose Sample.uploadProps Sample.previewing)))
    = [].
Proof.
  destruct (second_submit_is_stopped_by_the_render Sample.uploadProps Sample.previewing)
    as (Hsecond & _ & Htwice).
  destruct (Htwice eq_refl eq_refl) as (_ & _ & Hconfirms).
  split; [reflexivity|]. split; [reflexivity|]. split.
  - rewrite (Hconfirms eq_refl). reflexivity.
  - rewrite Hsecond. reflexivity.
Defined.

(** Witness for X5: the keyboard goes down on the open preview. *)
Lemma keyboard_gate_blocks_submit_witness :
  isModalOpen Sample.previewing = true
  ∧ isModalOpen (finalState (submitAndClose Sample.uploadProps
                   (finalState (updateConfirmButtonVisibility false Sample.previewing))))
    = false.
Proof.
  split; [reflexivity|].
  destruct (keyboard_gate_blocks_submit Sample.uploadProps Sample.previewing)
    as (_ & _ & _ & Hsubmit).
  apply Hsubmit. reflexivity.
Defined.

(** Witness for X6: the carousel moves to the receipt while the PDF is
    previewed. *)
Lemma submit_after_navigation_confirms_the_attachment_witness :
  onConfirm Sample.uploadProps = true
  ∧ isModalOpen Sample.previewing = true
  ∧ isConfirmButtonDisabled Sample.previewing = false
  ∧ effects (submitAndClose Sample.uploadProps
               (finalState (onNavigate Sample.receiptAttachment Sample.previewing)))
    = [Props_onConfirm
         (PlainObject (Some "receipt.jpg") None None
            (Some (SrcString "https://example.com/receipt.jpg")))].
Proof.
  split; [reflexivity|]. split; [reflexivity|]. split; [reflexivity|].
  destruct (submit_after_navigation_confirms_the_attachment Sample.uploadProps
              Sample.previewing Sample.receiptAttachment) as [_ Hsubmit];
    [reflexivity | reflexivity | reflexivity |].
  exact Hsubmit.
Defined.

(** Witness for X7: download pressed on the upload dialog just mounted. *)
Lemma download_needs_a_file_witness :
  file Sample.idle = None
  ∧ originalFileName Sample.uploadProps = ""
  ∧ downloadAttachment Sample.idle = Thrown (TypeError "file.name") Sample.idle [].
Proof.
  split; [reflexivity|]. split; [reflexivity|].
  destruct (download_needs_a_file Sample.uploadProps Sample.idle)
    as (_ & Hnone & _).
  apply Hnone. reflexivity.
Defined.

(** Witness for X9: the PDF picked on a native platform. *)
Lemma file_without_uri_opens_without_source_witness :
  MIN_SIZE ≤ 1000 ≤ MAX_SIZE
  ∧ source (finalState (validateAndDisplayFileToUpload
                          (Sample.picked Cases.nativePdf) Sample.idle)) = SrcUndefined
  ∧ modalType (finalState (validateAndDisplayFileToUpload
                             (Sample.picked Cases.nativePdf) Sample.idle)) = CENTERED.
Proof.
  assert (MIN_SIZE ≤ 1000 ≤ MAX_SIZE) as Hsize by (cbn; lia).
  split; [exact Hsize|].
  destruct (file_without_uri_opens_without_source Sample.idle
              (Sample.picked Cases.nativePdf) (Some "scan.pdf") (Some 1000) None)
    as (_ & _ & Hsource & Htype);
    [reflexivity | reflexivity | reflexivity | exact Hsize |].
  split; [exact Hsource | exact Htype].
Defined.

(** Witness for X10: the requestor views the receipt of the open report. *)
Lemma replace_is_offered_to_editors_witness :
  isAttachmentReceipt (Sample.viewing "open") = true
  ∧ ∃ items,
      threeDotsMenuItems (Sample.receiptProps "open") (Sample.viewing "open") = Ok items
      ∧ replaceItem (Sample.receiptProps "open") ∈ items.
Proof.
  split; [reflexivity|].
  destruct (replace_is_offered_to_editors (Sample.receiptProps "open")
              (Sample.viewing "open")
              {| Sample.id := "open"; Sample.parentAction := None;
                 Sample.expense := true; Sample.moneyRequest := true |}
              {[ "a1" := {| Sample.actor := 7; Sample.deleted := false |} ]}
              {| Sample.actor := 7; Sample.deleted := false |})
    as (items & Hmenu & Hreplace & _);
    [reflexivity | reflexivity | reflexivity | reflexivity |].
  exists items. split; [exact Hmenu|]. apply Hreplace.
  split; [reflexivity|]. split; [reflexivity|]. right.
  split; [reflexivity|]. exists 7. split; reflexivity.
Defined.

(** Witness for X11: the upload dialog, which shows no receipt. *)
Lemma menu_is_empty_or_raises_witness :
  isAttachmentReceipt Sample.idle = false
  ∧ threeDotsMenuItems Sample.uploadProps Sample.idle = Ok [].
Proof.
  split; [reflexivity|].
  destruct (menu_is_empty_or_raises Sample.uploadProps Sample.idle) as [Hempty _].
  apply Hempty. left. reflexivity.
Defined.

(** Witness for X12: Replace is selected on the shown receipt. *)
Lemma queue_is_written_by_replace_only_witness :
  step (Sample.receiptProps "open") Cases.receiptShown (EvSelectMenuItem 0)
  = Some (Sample.replacing, [])
  ∧ onModalHideCallbackRef (state Cases.receiptShown) = None
  ∧ onModalHideCallbackRef (state Sample.replacing)
    = Some (NavigateTo (EDIT_REQUEST (Some "thread") "receipt")).
Proof.
  assert (step (Sample.receiptProps "open") Cases.receiptShown (EvSelectMenuItem 0)
          = Some (Sample.replacing, [])) as Hstep by (vm_compute; reflexivity).
  split; [exact Hstep|]. split; [reflexivity|].
  destruct (queue_is_written_by_replace_only (Sample.receiptProps "open")
              Cases.receiptShown (EvSelectMenuItem 0) Sample.replacing [] Hstep)
    as (_ & _ & Href & _); [discriminate|].
  exact Href.
Defined.

(** Witness for X13: a visit to the receipt of the settled report. *)
Lemma settled_receipt_never_navigates_witness :
  (∀ parent, parentReport (Sample.receiptProps "settled") = Some parent →
             isSettled (reportID parent) = true)
  ∧ ∃ c log,
      run (Sample.receiptProps "settled") (mount (Sample.receiptProps "settled"))
          Cases.settledVisit = Some (c, log)
      ∧ count isNavigation log = 0%nat.
Proof.
  assert (∀ parent, parentReport (Sample.receiptProps "settled") = Some parent →
                    isSettled (reportID parent) = true) as Hsettled.
  { intros parent [= <-]. reflexivity. }
  split; [exact Hsettled|].
  assert (∃ c log,
            run (Sample.receiptProps "settled") (mount (Sample.receiptProps "settled"))
                Cases.settledVisit = Some (c, log)) as (c & log & Hrun)
    by (vm_compute; eexists _, _; reflexivity).
  exists c, log. split; [exact Hrun|].
  apply (settled_receipt_never_navigates (Sample.receiptProps "settled")
           Cases.settledVisit c log Hsettled Hrun).
Defined.

(** Witness for X14: a first visit, on which the login form is shown. *)
Lemma sign_in_forms_exclude_each_other_witness :
  SignIn.shouldShowLoginForm
    (SignIn.getRenderOptions false SignIn.WEB Cases.firstVisit) = true
  ∧ SignIn.shouldShowValidateCodeForm
      (SignIn.getRenderOptions false SignIn.WEB Cases.firstVisit) = false
  ∧ SignIn.shouldShowChooseSSOOrMagicCode
      (SignIn.getRenderOptions false SignIn.WEB Cases.firstVisit) = false.
Proof.
  split; [reflexivity|].
  destruct (sign_in_forms_exclude_each_other false SignIn.WEB Cases.firstVisit)
    as [Hlogin _].
  destruct (Hlogin eq_refl) as (Hvalidate & _ & _ & Hchoose & _).
  split; [exact Hvalidate | exact Hchoose].
Defined.

(** Witness for X15: a login whose account data is empty. *)
Lemma unexpected_state_is_logged_witness :
  SignIn.nonEmpty (SignIn.login Cases.emailLogin) = true
  ∧ SignIn.isEmptyAccount Cases.noAccount = true
  ∧ SignIn.Log_warn "SignInPage in unexpected state!"
      ∈ (Cases.webPage Cases.emailLogin Cases.noAccount false false false false).2
  ∧ SignIn.loginFormIsVisible
      (Cases.webPage Cases.emailLogin Cases.noAccount false false false false).1
    = false.
Proof.
  split; [reflexivity|]. split; [reflexivity|].
  destruct (unexpected_state_is_logged false SignIn.WEB "LoginForm" Cases.translateKey
              Cases.spacedNumber id (String.prefix "+")
              Cases.emailLogin Cases.noAccount false false false false)
    as [Hiff Hforms].
  assert (SignIn.Log_warn "SignInPage in unexpected state!"
            ∈ (Cases.webPage Cases.emailLogin Cases.noAccount
                 false false false false).2) as Hwarn.
  { apply Hiff. left. split; reflexivity. }
  split; [exact Hwarn|]. apply Hforms, Hwarn.
Defined.

(** Witness for X16: the account behind required SAML, on the web, while
    its login form loads. *)
Lemma saml_login_is_initiated_witness :
  SignIn.samlAllowed false SignIn.WEB = true
  ∧ (Cases.webPage Cases.emailLogin Cases.samlAccount false false false false).2
    = [SignIn.Navigation_navigate_SAML_SIGN_IN]
  ∧ SignIn.rendersValidateCodeForm
      (Cases.webPage Cases.emailLogin Cases.samlAccount false false false false).1
    = false.
Proof.
  split; [reflexivity|].
  destruct (saml_login_is_initiated false SignIn.WEB "LoginForm" Cases.translateKey
              Cases.spacedNumber id (String.prefix "+")
              Cases.emailLogin Cases.samlAccount false false false false)
    as [Hiff Hthen].
  assert (SignIn.Navigation_navigate_SAML_SIGN_IN
            ∈ (Cases.webPage Cases.emailLogin Cases.samlAccount
                 false false false false).2) as Hsaml.
  { apply Hiff. repeat split. }
  destruct (Hthen Hsaml) as (Heffects & _ & Hvalidate & _).
  split; [exact Heffects | exact Hvalidate].
Defined.

(** Witness for X17: the login with empty account data shows no form and
    gets no welcome text. *)
Lemma welcome_text_goes_with_a_form_witness :
  SignIn.loginFormIsVisible
    (Cases.webPage Cases.emailLogin Cases.noAccount false false false false).1 = false
  ∧ SignIn.rendersValidateCodeForm
      (Cases.webPage Cases.emailLogin Cases.noAccount false false false false).1 = false
  ∧ SignIn.welcomeText
      (Cases.webPage Cases.emailLogin Cases.noAccount false false false false).1 = "".
Proof.
  split; [reflexivity|]. split; [reflexivity|].
  destruct (welcome_text_goes_with_a_form false SignIn.WEB "LoginForm"
              Cases.translateKey Cases.spacedNumber id (String.prefix "+")
              Cases.emailLogin Cases.noAccount false false false false)
    as [Htext _].
  apply Htext; reflexivity.
Defined.

(** Witness for X18: a phone login, shown with no-break spaces. *)
Lemma phone_login_is_shown_without_breaks_witness :
  String.prefix "+" (Cases.dropSmsDomain "+15550100@expensify.sms") = true
  ∧ Cases.spacedNumber (Cases.dropSmsDomain "+15550100@expensify.sms")
    = joinWith " " ["+1"; "555"; "0100"]
  ∧ SignIn.userLoginToDisplay Cases.spacedNumber Cases.dropSmsDomain
      (String.prefix "+") Cases.phoneLogin
    = joinWith noBreakSpace ["+1"; "555"; "0100"].
Proof.
  split; [reflexivity|]. split; [reflexivity|].
  destruct (phone_login_is_shown_without_breaks Cases.spacedNumber Cases.dropSmsDomain
              (String.prefix "+") Cases.phoneLogin) as [_ Hsms].
  destruct (Hsms eq_refl) as (Hjoin & _).
  apply Hjoin; [repeat constructor | reflexivity].
Defined.

(** Witness for X19: the vendor v1 has a value, v2 has none, v3 is not in
    the list. *)
Lemma default_vendor_name_is_of_the_first_match_witness :
  SageIntacct.getDefaultVendorName "v1" Cases.vendors = "Acme"
  ∧ SageIntacct.getDefaultVendorName "v2" Cases.vendors = "v2"
  ∧ SageIntacct.getDefaultVendorName "v3" Cases.vendors = "v3".
Proof.
  destruct (default_vendor_name_is_of_the_first_match "v1" Cases.vendors)
    as (_ & Hfirst & _).
  destruct (default_vendor_name_is_of_the_first_match "v2" Cases.vendors)
    as (_ & Hsecond & _).
  destruct (default_vendor_name_is_of_the_first_match "v3" Cases.vendors)
    as (Hnone & _).
  split; [|split].
  - apply (Hfirst [] {| SageIntacct.id := "v1"; SageIntacct.value := Some "Acme" |}
             [{| SageIntacct.id := "v2"; SageIntacct.value := None |}]);
      [reflexivity | | reflexivity].
    intros earlier Hin. apply elem_of_nil in Hin. destruct Hin.
  - apply (Hsecond [{| SageIntacct.id := "v1"; SageIntacct.value := Some "Acme" |}]
             {| SageIntacct.id := "v2"; SageIntacct.value := None |} []);
      [reflexivity | | reflexivity].
    intros earlier Hin. apply list_elem_of_singleton in Hin. subst earlier. discriminate.
  - apply Hnone. intros vendor Hin. unfold Cases.vendors in Hin.
    rewrite !elem_of_cons, elem_of_nil in Hin.
    destruct Hin as [->|[->|[]]]; discriminate.
Defined.

(** Witness for X20: the switch is turned on with vendors, and with an
    empty vendor list. *)
Lemma default_vendor_switch_witness :
  SageIntacct.defaultVendorOnToggle (Some "p1") "nonReimbursableVendor"
    (Some Cases.vendors) true
  = Ok [SageIntacct.updateSageIntacctDefaultVendor "p1" "nonReimbursableVendor"
          (Some "v1")]
  ∧ ∃ e, SageIntacct.defaultVendorOnToggle (Some "p1") "nonReimbursableVendor"
           (Some []) true = Raised e.
Proof.
  destruct (default_vendor_switch (Some "p1") "nonReimbursableVendor"
              (Some Cases.vendors) true) as (_ & _ & _ & Hfirst).
  destruct (default_vendor_switch (Some "p1") "nonReimbursableVendor"
              (Some []) true) as (Hraise & _).
  split.
  - apply (Hfirst {| SageIntacct.id := "v1"; SageIntacct.value := Some "Acme" |}
             [{| SageIntacct.id := "v2"; SageIntacct.value := None |}]); reflexivity.
  - apply Hraise. split; reflexivity.
Defined.

(** Witness for X21: vendor bills are configured; the two rows. *)
Lemma expense_type_rows_witness :
  NoDup Cases.expenseTypes
  ∧ SageIntacct.isSelected <$> SageIntacct.data id Cases.expenseTypes (Some "VENDOR_BILL")
    = [false; true]
  ∧ (length (List.filter SageIntacct.isSelected
               (SageIntacct.data id Cases.expenseTypes (Some "VENDOR_BILL"))) ≤ 1)%nat.
Proof.
  assert (NoDup Cases.expenseTypes) as Hdistinct.
  { unfold Cases.expenseTypes. apply NoDup_cons. split.
    - rewrite list_elem_of_singleton. discriminate.
    - apply NoDup_singleton. }
  split; [exact Hdistinct|]. split; [reflexivity|].
  destruct (expense_type_rows id None Cases.expenseTypes (Some "VENDOR_BILL"))
    as [_ Hone].
  apply Hone, Hdistinct.
Defined.

(** Witness for X22: two accounts have the id b1 and the first of them
    gives the title; the account b2 has an empty name; no account has
    the id b9. *)
Lemma payment_account_title_witness :
  SageIntacct.paymentAccountTitle id (Some Cases.intacctData) (Some "b1") = Ok "Checking"
  ∧ SageIntacct.paymentAccountTitle id (Some Cases.intacctData) (Some "b2")
    = Ok "workspace.sageIntacct.notConfigured"
  ∧ SageIntacct.paymentAccountTitle id (Some Cases.intacctData) (Some "b9")
    = Ok "workspace.sageIntacct.notConfigured"
  ∧ SageIntacct.paymentAccountTitle id (Some Cases.intacctData) (Some "b2") ≠ Ok "".
Proof.
  destruct (payment_account_title id (Some Cases.intacctData) (Some "b1"))
    as (_ & Hfirst & _).
  destruct (Hfirst Cases.intacctData _ eq_refl eq_refl) as [_ Hb1].
  destruct (payment_account_title id (Some Cases.intacctData) (Some "b2"))
    as (_ & Hsecond & Hnonempty).
  destruct (Hsecond Cases.intacctData _ eq_refl eq_refl) as [_ Hb2].
  destruct (payment_account_title id (Some Cases.intacctData) (Some "b9"))
    as (_ & Hnone & _).
  destruct (Hnone Cases.intacctData _ eq_refl eq_refl) as [Hb9 _].
  split; [|split; [|split]].
  - destruct (Hb1 [] {| SageIntacct.bankAccountID := "b1";
                        SageIntacct.name := Some "Checking" |}
                  [{| SageIntacct.bankAccountID := "b2"; SageIntacct.name := Some "" |};
                   {| SageIntacct.bankAccountID := "b1";
                      SageIntacct.name := Some "Savings" |}])
      as [Hname _]; [reflexivity | | reflexivity |].
    + intros earlier Hin. apply elem_of_nil in Hin. destruct Hin.
    + apply (Hname "Checking"); [reflexivity | discriminate].
  - destruct (Hb2 [{| SageIntacct.bankAccountID := "b1";
                      SageIntacct.name := Some "Checking" |}]
                  {| SageIntacct.bankAccountID := "b2"; SageIntacct.name := Some "" |}
                  [{| SageIntacct.bankAccountID := "b1";
                      SageIntacct.name := Some "Savings" |}])
      as [_ Hempty]; [reflexivity | | reflexivity |].
    + intros earlier Hin. apply list_elem_of_singleton in Hin as ->. discriminate.
    + apply Hempty. right. reflexivity.
  - apply Hb9. intros bankAccount Hin.
    cbn in Hin. rewrite !elem_of_cons, elem_of_nil in Hin.
    destruct Hin as [->|[->|[->|[]]]]; discriminate.
  - apply Hnonempty. discriminate.
Defined.

(** Witness for X23: the last stop is dragged to the front. *)
Lemma drag_renumbers_the_waypoints_witness :
  (∀ k, k ∈ Cases.draggedOrder → is_Some (Cases.stopsObject !! k))
  ∧ Distance.onDragEnd Z Cases.stopsObject Cases.draggedOrder !! "waypoint0"
    = Some (Some (Cases.stop 46 7 "Bern"))
  ∧ size (Distance.onDragEnd Z Cases.stopsObject Cases.draggedOrder) = 3%nat.
Proof.
  assert (∀ k, k ∈ Cases.draggedOrder → is_Some (Cases.stopsObject !! k)) as Hkeys.
  { intros k Hk. unfold Cases.draggedOrder in Hk.
    rewrite !elem_of_cons, elem_of_nil in Hk.
    destruct Hk as [->|[->|[->|[]]]]; eexists; vm_compute; reflexivity. }
  split; [exact Hkeys|].
  destruct (drag_renumbers_the_waypoints Cases.stopsObject Cases.draggedOrder Hkeys)
    as (Hlookup & _ & Hsize).
  split; [|exact Hsize].
  transitivity (Cases.stopsObject !! "waypoint2");
    [exact (Hlookup 0%nat "waypoint2" eq_refl) | vm_compute; reflexivity].
Defined.

(** Witness for X24: of three stops the second is not located. *)
Lemma markers_are_the_located_waypoints_witness :
  ("waypoint2", Some (Cases.stop 46 7 "Bern")) ∈ Cases.stops
  ∧ Distance.markerComponent Z
      <$> Distance.waypointMarkers Z Cases.indexOfKey pretty Cases.stops
    = [Distance.DotIndicatorUnfilled; Distance.Location]
  ∧ ∃ marker,
      marker ∈ Distance.waypointMarkers Z Cases.indexOfKey pretty Cases.stops
      ∧ Distance.coordinate Z marker = (7, 46).
Proof.
  assert (("waypoint2", Some (Cases.stop 46 7 "Bern")) ∈ Cases.stops) as Hin.
  { unfold Cases.stops. rewrite !elem_of_cons. auto. }
  split; [exact Hin|]. split; [reflexivity|].
  destruct (markers_are_the_located_waypoints Cases.indexOfKey pretty Cases.stops)
    as (_ & _ & Hcomplete).
  apply (Hcomplete "waypoint2" (Cases.stop 46 7 "Bern") 46 7 Hin); reflexivity.
Defined.

(** Witness for X25: online with a route error and the same two validated
    waypoints nothing is fetched; once they have changed the route is
    fetched. *)
Lemma route_is_fetched_when_it_can_change_witness :
  Distance.fetchesRoute false false true false false 2 = false
  ∧ Distance.fetchesRoute false false true true false 2 = true
  ∧ Distance.nextIsDisabled true 2 = true.
Proof.
  split; [reflexivity|].
  destruct (route_is_fetched_when_it_can_change false false true true false 2)
    as [Hiff Hthen].
  assert (Distance.fetchesRoute false false true true false 2 = true) as Hfetch.
  { apply Hiff. repeat split; auto. }
  split; [exact Hfetch|].
  destruct (Hthen Hfetch) as (_ & _ & Hnext). exact Hnext.
Defined.

